(** * Emulation of X11 window types from window titles

    A shallow embedding of [emulateX11WindowType.js]: the title parser of
    [ManageWindow], its signal handlers, and the registry and coalesced
    refresh of [EmulateX11WindowType], followed by the properties the
    specification states about them. *)

From Stdlib Require Import ZArith Bool List Ascii String Lia.
From stdpp Require Import base option list gmap.

Import ListNotations.
Local Open Scope string_scope.
Local Open Scope Z_scope.

(** ** The JavaScript string primitives the parser calls

    A title is a [string]; each [ascii] stands for the UTF-16 code unit of
    the same number, so the titles covered are those over code units 0..255. *)

(** The values [_x] and [_y] take: [null], or the result of [parseInt],
    which is [NaN] or a number.  [Num n] carries the mathematical integer
    that [parseInt] read, before it is rounded to a Number; -0 is [Num 0]. *)
Inductive jsval : Type :=
  | null
  | NaN
  | Num (n : Z).

Module JS.

Definition code (c : ascii) : Z := Z.of_N (N_of_ascii c).

(** WhiteSpace and LineTerminator code units below 256: TAB, LF, VT, FF,
    CR, SP and NBSP. *)
Definition is_whitespace (c : ascii) : bool :=
  let n := code c in
  ((9 <=? n) && (n <=? 13)) || (n =? 32) || (n =? 160).

(** [s[i]]: the code unit at index [i], [None] for [undefined]. *)
Definition at_index (s : string) (i : Z) : option ascii :=
  if i <? 0 then None else String.get (Z.to_nat i) s.

Definition length (s : string) : Z := Z.of_nat (String.length s).

(** [s.search(pat)] for a pattern without regular-expression operators:
    the index of the first occurrence of [pat], or -1.  [search] takes one
    argument; a second one is ignored by the call. *)
Fixpoint search_from (pat s : string) (i : Z) : Z :=
  if String.prefix pat s then i
  else match s with
       | EmptyString => -1
       | String _ s' => search_from pat s' (i + 1)
       end.

Definition search (s pat : string) : Z := search_from pat s 0.

(** [s.substring(start, end)]: both indices are clamped to [0, length]
    and swapped when [start > end]; [end] absent means [length]. *)
Definition substring (s : string) (start : Z) (end_ : option Z) : string :=
  let len := length s in
  let intEnd := match end_ with Some e => e | None => len end in
  let finalStart := Z.min (Z.max start 0) len in
  let finalEnd := Z.min (Z.max intEnd 0) len in
  let from := Z.min finalStart finalEnd in
  let to := Z.max finalStart finalEnd in
  String.substring (Z.to_nat from) (Z.to_nat (to - from)) s.

Fixpoint trimStart (s : string) : string :=
  match s with
  | EmptyString => EmptyString
  | String c s' => if is_whitespace c then trimStart s' else s
  end.

Fixpoint trimEnd (s : string) : string :=
  match s with
  | EmptyString => EmptyString
  | String c s' =>
      match trimEnd s' with
      | EmptyString => if is_whitespace c then EmptyString else String c EmptyString
      | t => String c t
      end
  end.

Definition trim (s : string) : string := trimEnd (trimStart s).

(** [s.split(",")]: the tokens between commas, at least one. *)
Fixpoint split_comma (s : string) : list string :=
  match s with
  | EmptyString => [EmptyString]
  | String c s' =>
      if Ascii.eqb c "," then EmptyString :: split_comma s'
      else match split_comma s' with
           | t :: ts => String c t :: ts
           | [] => [String c EmptyString]
           end
  end.

(** [toUpperCase] on the letters a-z.  The other code units below 256 are
    kept: the real function sends none of them to a string that holds
    one of B, T, D, H, F, which is all the flag scan looks at. *)
Definition upper (c : ascii) : ascii :=
  let n := code c in
  if (97 <=? n) && (n <=? 122) then ascii_of_N (Z.to_N (n - 32)) else c.

Fixpoint toUpperCase (s : string) : string :=
  match s with
  | EmptyString => EmptyString
  | String c s' => String (upper c) (toUpperCase s')
  end.

(** [ToString] of a string or of [undefined]. *)
Definition ToString (v : option string) : string :=
  match v with
  | Some s => s
  | None => "undefined"
  end.

(** The value of a code unit as a digit: 0-9, then a-z or A-Z for 10-35. *)
Definition digit_value (c : ascii) : option Z :=
  let n := code c in
  if (48 <=? n) && (n <=? 57) then Some (n - 48)
  else if (97 <=? n) && (n <=? 122) then Some (n - 87)
  else if (65 <=? n) && (n <=? 90) then Some (n - 55)
  else None.

(** The longest prefix of radix-[R] digits, read as an integer; [acc] is
    [None] until a digit has been read. *)
Fixpoint parse_digits (R : Z) (s : string) (acc : option Z) : option Z :=
  match s with
  | EmptyString => acc
  | String c s' =>
      match digit_value c with
      | Some d =>
          if d <? R
          then parse_digits R s' (Some (match acc with
                                        | Some a => a * R + d
                                        | None => d
                                        end))
          else acc
      | None => acc
      end
  end.

(** [parseInt(v)] with no radix: leading white space is skipped, a sign
    is read, a [0x] or [0X] prefix selects radix 16, and the digits that
    follow give the number; no digit gives [NaN].  It never throws. *)
Definition parseInt (v : option string) : jsval :=
  let inputString := ToString v in
  let str := trimStart inputString in
  let sign := match str with
              | String "-" _ => -1
              | _ => 1
              end in
  let str1 := match str with
              | String "+" r => r
              | String "-" r => r
              | _ => str
              end in
  let '(R, str2) := match str1 with
                    | String "0" (String "x" r) => (16, r)
                    | String "0" (String "X" r) => (16, r)
                    | _ => (10, str1)
                    end in
  match parse_digits R str2 None with
  | None => NaN
  | Some mathInt => Num (sign * mathInt)
  end.

(** [v !== null] *)
Definition not_null (v : jsval) : bool :=
  match v with
  | null => false
  | _ => true
  end.

(** Truthiness of a boolean or [undefined]. *)
Definition truthy (b : option bool) : bool :=
  match b with
  | Some true => true
  | _ => false
  end.

End JS.


(** ** [ManageWindow]: the record attached to a managed window *)

Module ManageWindow.

(** What a [ManageWindow] calls on its window ([lower], [make_above],
    [unmake_above], [move_frame], [change_workspace], [disconnect]), on the
    Wayland client about its window, and on its status callback. *)
Inductive wcall : Type :=
  | Lower
  | MakeAbove
  | UnmakeAbove
  | MoveFrame (user_op : bool) (x y : jsval)
  | ChangeWorkspace
  | Disconnect (id : positive)
  | HideFromWindowList
  | ShowInWindowList
  | ChangedStatusCB.

(** The fields of the object.  [_wayland_client] records whether the
    client is set; [_keepAtTop] is [None] while it is [undefined], which
    the first [_parseTitle] reads.  The object is kept in the heap under
    its window, so [_window] is not a field. *)
Record t : Type := {
  _wayland_client : bool;
  _signalIDs : list positive;
  _x : jsval;
  _y : jsval;
  _keepAtBottom : bool;
  _keepAtTop : option bool;
  _showInAllDesktops : bool;
  _hideFromWindowList : bool;
  _fixed : bool;
  unmanagedID : option positive
}.

Definition set_wayland_client (v : bool) (this : t) : t :=
  {| _wayland_client := v; _signalIDs := _signalIDs this;
     _x := _x this; _y := _y this;
     _keepAtBottom := _keepAtBottom this; _keepAtTop := _keepAtTop this;
     _showInAllDesktops := _showInAllDesktops this;
     _hideFromWindowList := _hideFromWindowList this;
     _fixed := _fixed this; unmanagedID := unmanagedID this |}.

Definition set_x (v : jsval) (this : t) : t :=
  {| _wayland_client := _wayland_client this; _signalIDs := _signalIDs this;
     _x := v; _y := _y this;
     _keepAtBottom := _keepAtBottom this; _keepAtTop := _keepAtTop this;
     _showInAllDesktops := _showInAllDesktops this;
     _hideFromWindowList := _hideFromWindowList this;
     _fixed := _fixed this; unmanagedID := unmanagedID this |}.

Definition set_y (v : jsval) (this : t) : t :=
  {| _wayland_client := _wayland_client this; _signalIDs := _signalIDs this;
     _x := _x this; _y := v;
     _keepAtBottom := _keepAtBottom this; _keepAtTop := _keepAtTop this;
     _showInAllDesktops := _showInAllDesktops this;
     _hideFromWindowList := _hideFromWindowList this;
     _fixed := _fixed this; unmanagedID := unmanagedID this |}.

Definition set_keepAtBottom (v : bool) (this : t) : t :=
  {| _wayland_client := _wayland_client this; _signalIDs := _signalIDs this;
     _x := _x this; _y := _y this;
     _keepAtBottom := v; _keepAtTop := _keepAtTop this;
     _showInAllDesktops := _showInAllDesktops this;
     _hideFromWindowList := _hideFromWindowList this;
     _fixed := _fixed this; unmanagedID := unmanagedID this |}.

Definition set_keepAtTop (v : bool) (this : t) : t :=
  {| _wayland_client := _wayland_client this; _signalIDs := _signalIDs this;
     _x := _x this; _y := _y this;
     _keepAtBottom := _keepAtBottom this; _keepAtTop := Some v;
     _showInAllDesktops := _showInAllDesktops this;
     _hideFromWindowList := _hideFromWindowList this;
     _fixed := _fixed this; unmanagedID := unmanagedID this |}.

Definition set_showInAllDesktops (v : bool) (this : t) : t :=
  {| _wayland_client := _wayland_client this; _signalIDs := _signalIDs this;
     _x := _x this; _y := _y this;
     _keepAtBottom := _keepAtBottom this; _keepAtTop := _keepAtTop this;
     _showInAllDesktops := v;
     _hideFromWindowList := _hideFromWindowList this;
     _fixed := _fixed this; unmanagedID := unmanagedID this |}.

Definition set_hideFromWindowList (v : bool) (this : t) : t :=
  {| _wayland_client := _wayland_client this; _signalIDs := _signalIDs this;
     _x := _x this; _y := _y this;
     _keepAtBottom := _keepAtBottom this; _keepAtTop := _keepAtTop this;
     _showInAllDesktops := _showInAllDesktops this;
     _hideFromWindowList := v;
     _fixed := _fixed this; unmanagedID := unmanagedID this |}.

Definition set_fixed (v : bool) (this : t) : t :=
  {| _wayland_client := _wayland_client this; _signalIDs := _signalIDs this;
     _x := _x this; _y := _y this;
     _keepAtBottom := _keepAtBottom this; _keepAtTop := _keepAtTop this;
     _showInAllDesktops := _showInAllDesktops this;
     _hideFromWindowList := _hideFromWindowList this;
     _fixed := v; unmanagedID := unmanagedID this |}.

Definition set_unmanagedID (v : positive) (this : t) : t :=
  {| _wayland_client := _wayland_client this; _signalIDs := _signalIDs this;
     _x := _x this; _y := _y this;
     _keepAtBottom := _keepAtBottom this; _keepAtTop := _keepAtTop this;
     _showInAllDesktops := _showInAllDesktops this;
     _hideFromWindowList := _hideFromWindowList this;
     _fixed := _fixed this; unmanagedID := Some v |}.

(** The trailing-space convention at the head of [_parseTitle]: a title
    whose last character is a space is replaced by ["@!HTD"] when the one
    before it is a space too, and by ["@!H"] otherwise. *)
Definition special_title (title : string) : string :=
  if (0 <? JS.length title)
     && bool_decide (JS.at_index title (JS.length title - 1) = Some " "%char)
  then
    if (1 <? JS.length title)
       && bool_decide (JS.at_index title (JS.length title - 2) = Some " "%char)
    then "@!HTD"
    else "@!H"
  else title.

(** The array [coords]: [pos2] is [title.search(";", pos)], and [search]
    does not look at [pos]. *)
Definition coords_field (title : string) (pos : Z) : string :=
  let pos2 := JS.search title ";" in
  if negb (pos2 =? -1)
  then JS.trim (JS.substring title (pos + 2) (Some pos2))
  else JS.trim (JS.substring title (pos + 2) None).

Definition coords (title : string) (pos : Z) : list string :=
  JS.split_comma (coords_field title pos).

Definition extra_chars (title : string) (pos : Z) : string :=
  JS.toUpperCase (JS.trim (JS.substring title (pos + 2) None)).

(** One turn of the [switch] over the characters of [extra_chars]. *)
Definition scan_char (this : t) (char : ascii) : t :=
  if Ascii.eqb char "B" then set_keepAtTop false (set_keepAtBottom true this)
  else if Ascii.eqb char "T" then set_keepAtBottom false (set_keepAtTop true this)
  else if Ascii.eqb char "D" then set_showInAllDesktops true this
  else if Ascii.eqb char "H" then set_hideFromWindowList true this
  else if Ascii.eqb char "F" then set_fixed true this
  else this.

(** The assignments at the head of [_parseTitle]. *)
Definition reset (this : t) : t :=
  set_fixed false
    (set_hideFromWindowList false
       (set_showInAllDesktops false
          (set_keepAtTop false
             (set_keepAtBottom false (set_y null (set_x null this)))))).

(** [this._keepAtTop != keepAtTop], the right side possibly [undefined]. *)
Definition keepAtTop_changed (this : t) (keepAtTop : option bool) : bool :=
  match _keepAtTop this, keepAtTop with
  | Some a, Some b => xorb a b
  | None, None => false
  | _, _ => true
  end.

(** [_parseTitle()], given what [this._window.get_title()] returns
    ([None] for [null]).  It gives the object after the call and the calls
    made, in order.  Neither [try] block can throw: [parseInt] returns
    [NaN] where it reads no number. *)
Definition _parseTitle (this : t) (get_title : option string)
  : t * list wcall :=
  let keepAtTop := _keepAtTop this in
  let this := reset this in
  match get_title with
  | None => (this, [])
  | Some title =>
      let title := special_title title in
      let pos := JS.search title "@!" in
      let this :=
        if negb (pos =? -1) then
          let coords := coords title pos in
          let this := set_x (JS.parseInt (coords !! 0%nat)) this in
          let this := set_y (JS.parseInt (coords !! 1%nat)) this in
          fold_left scan_char (list_ascii_of_string (extra_chars title pos)) this
        else this in
      (this,
       ((if _wayland_client this
        then [if _hideFromWindowList this
              then HideFromWindowList else ShowInWindowList]
        else [])
       ++ (if keepAtTop_changed this keepAtTop
           then [if JS.truthy (_keepAtTop this) then MakeAbove else UnmakeAbove]
           else [])
       ++ (if _keepAtBottom this then [Lower] else [])
       ++ (if _fixed this && JS.not_null (_x this) && JS.not_null (_y this)
           then [MoveFrame false (_x this) (_y this)]
           else [])
       ++ [ChangedStatusCB])%list)
  end.

(** The object as the constructor has it when it calls [_parseTitle]: the
    client and the four signal ids are set, [_keepAtTop] is [undefined];
    the other fields are assigned by [_parseTitle] before they are read. *)
Definition fresh (wayland_client : bool) (signalIDs : list positive) : t :=
  {| _wayland_client := wayland_client; _signalIDs := signalIDs;
     _x := null; _y := null;
     _keepAtBottom := false; _keepAtTop := None;
     _showInAllDesktops := false; _hideFromWindowList := false;
     _fixed := false; unmanagedID := None |}.

(** The four handlers the constructor connects. *)
Definition on_raised (this : t) : list wcall :=
  if _keepAtBottom this && negb (JS.truthy (_keepAtTop this)) then [Lower] else [].

Definition on_position_changed (this : t) : list wcall :=
  if _fixed this && JS.not_null (_x this) && JS.not_null (_y this)
  then [MoveFrame false (_x this) (_y this)]
  else [].

Definition on_notify_title (this : t) (get_title : option string)
  : t * list wcall :=
  _parseTitle this get_title.

Definition on_notify_above (this : t) (above : bool) : list wcall :=
  if _keepAtBottom this && above then [UnmakeAbove] else [].

(** [disconnect()]: the calls made; the object is dropped afterwards. *)
Definition disconnect (this : t) : list wcall :=
  (map Disconnect (_signalIDs this)
   ++ (if JS.truthy (_keepAtTop this) then [UnmakeAbove] else []))%list.

(** [refreshState(checkWorkspace)], given whether the window is on the
    active workspace. *)
Definition refreshState (this : t) (checkWorkspace : bool)
    (located_on_workspace : bool) : list wcall :=
  ((if checkWorkspace && _showInAllDesktops this
    then if negb located_on_workspace then [ChangeWorkspace] else []
    else [])
   ++ (if _keepAtBottom this then [Lower] else []))%list.

End ManageWindow.

(** ** The environment: windows, signals, idle sources *)

Inductive signal : Type :=
  | Raised
  | PositionChanged
  | NotifyTitle
  | NotifyAbove
  | Unmanaged
  | Map
  | Destroy
  | SwitchWorkspace
  | Showing
  | Hiding.

#[global] Instance signal_eq_dec : EqDecision signal.
Proof. solve_decision. Defined.

(** A [Meta.Window] object: what its queries answer, the handlers
    connected to it, and the property [customJS_ding] the emulation hangs
    on it ([None] for [null] or absent).  [located_on_workspace] answers
    for the active workspace, [belongs_to] is what
    [query_window_belongs_to] answers for the window. *)
Record MetaWindow : Type := {
  get_title : option string;
  minimized : bool;
  above : bool;
  get_window_type : Z;
  located_on_workspace : bool;
  belongs_to : bool;
  handlers : list (positive * signal);
  customJS_ding : option ManageWindow.t
}.

Definition with_handlers (v : list (positive * signal)) (r : MetaWindow) : MetaWindow :=
  {| get_title := get_title r; minimized := minimized r; above := above r;
     get_window_type := get_window_type r;
     located_on_workspace := located_on_workspace r;
     belongs_to := belongs_to r; handlers := v;
     customJS_ding := customJS_ding r |}.

Definition with_customJS_ding (v : option ManageWindow.t) (r : MetaWindow) : MetaWindow :=
  {| get_title := get_title r; minimized := minimized r; above := above r;
     get_window_type := get_window_type r;
     located_on_workspace := located_on_workspace r;
     belongs_to := belongs_to r; handlers := handlers r;
     customJS_ding := v |}.

Definition with_get_title (v : option string) (r : MetaWindow) : MetaWindow :=
  {| get_title := v; minimized := minimized r; above := above r;
     get_window_type := get_window_type r;
     located_on_workspace := located_on_workspace r;
     belongs_to := belongs_to r; handlers := handlers r;
     customJS_ding := customJS_ding r |}.

(** [Meta.WindowType.DROPDOWN_MENU] and [GLib.PRIORITY_LOW]. *)
Definition DROPDOWN_MENU : Z := 9.

Definition PRIORITY_LOW : Z := 300.

(** Every call made on a collaborator, as it is logged: on a window [w]
    (with the calls of its [ManageWindow]), on [global.window_manager], on
    [Main.overview], on [Main] and on [GLib]. *)
Inductive call : Type :=
  | OnWindow (w : positive) (c : ManageWindow.wcall)
  | WindowConnect (w : positive) (s : signal) (id : positive)
  | WmConnect (s : signal) (id : positive)
  | WmDisconnect (id : positive)
  | OverviewConnect (s : signal) (id : positive)
  | OverviewDisconnect (id : positive)
  | IdleAdd (priority : Z) (id : positive)
  | SourceRemove (id : positive)
  | ActivateWindow (w : positive).

(** ** [EmulateX11WindowType]: the registry and its coalesced refresh *)

Module EmulateX11WindowType.

(** The fields of the object; an id that is [null] or [undefined] is
    [None]. *)
Record t : Type := {
  _isX11 : bool;
  _windowList : list positive;
  _enableRefresh : bool;
  _wayland_client : bool;
  _idMap : option positive;
  _idDestroy : option positive;
  _switchWorkspaceId : option positive;
  _showingId : option positive;
  _hidingId : option positive;
  _activate_window_ID : option positive
}.

Definition assign_windowList (v : list positive) (r : t) : t :=
  {| _isX11 := _isX11 r; _windowList := v;
     _enableRefresh := _enableRefresh r;
     _wayland_client := _wayland_client r; _idMap := _idMap r;
     _idDestroy := _idDestroy r; _switchWorkspaceId := _switchWorkspaceId r;
     _showingId := _showingId r; _hidingId := _hidingId r;
     _activate_window_ID := _activate_window_ID r |}.

Definition assign_enableRefresh (v : bool) (r : t) : t :=
  {| _isX11 := _isX11 r; _windowList := _windowList r; _enableRefresh := v;
     _wayland_client := _wayland_client r; _idMap := _idMap r;
     _idDestroy := _idDestroy r; _switchWorkspaceId := _switchWorkspaceId r;
     _showingId := _showingId r; _hidingId := _hidingId r;
     _activate_window_ID := _activate_window_ID r |}.

Definition assign_wayland_client (v : bool) (r : t) : t :=
  {| _isX11 := _isX11 r; _windowList := _windowList r;
     _enableRefresh := _enableRefresh r; _wayland_client := v;
     _idMap := _idMap r; _idDestroy := _idDestroy r;
     _switchWorkspaceId := _switchWorkspaceId r; _showingId := _showingId r;
     _hidingId := _hidingId r;
     _activate_window_ID := _activate_window_ID r |}.

Definition assign_idMap (v : option positive) (r : t) : t :=
  {| _isX11 := _isX11 r; _windowList := _windowList r;
     _enableRefresh := _enableRefresh r;
     _wayland_client := _wayland_client r; _idMap := v;
     _idDestroy := _idDestroy r; _switchWorkspaceId := _switchWorkspaceId r;
     _showingId := _showingId r; _hidingId := _hidingId r;
     _activate_window_ID := _activate_window_ID r |}.

Definition assign_idDestroy (v : option positive) (r : t) : t :=
  {| _isX11 := _isX11 r; _windowList := _windowList r;
     _enableRefresh := _enableRefresh r;
     _wayland_client := _wayland_client r; _idMap := _idMap r;
     _idDestroy := v; _switchWorkspaceId := _switchWorkspaceId r;
     _showingId := _showingId r; _hidingId := _hidingId r;
     _activate_window_ID := _activate_window_ID r |}.

Definition assign_switchWorkspaceId (v : option positive) (r : t) : t :=
  {| _isX11 := _isX11 r; _windowList := _windowList r;
     _enableRefresh := _enableRefresh r;
     _wayland_client := _wayland_client r; _idMap := _idMap r;
     _idDestroy := _idDestroy r; _switchWorkspaceId := v;
     _showingId := _showingId r; _hidingId := _hidingId r;
     _activate_window_ID := _activate_window_ID r |}.

Definition assign_showingId (v : option positive) (r : t) : t :=
  {| _isX11 := _isX11 r; _windowList := _windowList r;
     _enableRefresh := _enableRefresh r;
     _wayland_client := _wayland_client r; _idMap := _idMap r;
     _idDestroy := _idDestroy r; _switchWorkspaceId := _switchWorkspaceId r;
     _showingId := v; _hidingId := _hidingId r;
     _activate_window_ID := _activate_window_ID r |}.

Definition assign_hidingId (v : option positive) (r : t) : t :=
  {| _isX11 := _isX11 r; _windowList := _windowList r;
     _enableRefresh := _enableRefresh r;
     _wayland_client := _wayland_client r; _idMap := _idMap r;
     _idDestroy := _idDestroy r; _switchWorkspaceId := _switchWorkspaceId r;
     _showingId := _showingId r; _hidingId := v;
     _activate_window_ID := _activate_window_ID r |}.

Definition assign_activate_window_ID (v : option positive) (r : t) : t :=
  {| _isX11 := _isX11 r; _windowList := _windowList r;
     _enableRefresh := _enableRefresh r;
     _wayland_client := _wayland_client r; _idMap := _idMap r;
     _idDestroy := _idDestroy r; _switchWorkspaceId := _switchWorkspaceId r;
     _showingId := _showingId r; _hidingId := _hidingId r;
     _activate_window_ID := v |}.

(** What the object runs in: the heap of window objects, the handlers
    connected to [global.window_manager] and to [Main.overview], the idle
    sources of the main context (id, priority and the [checkWorkspace] its
    closure captured), the next free handler or source id, what
    [get_tab_list] answers for the active workspace, and the calls made so
    far.  Queries are answered from this record; how the compositor reacts
    to a call is not part of it. *)
Record Env : Type := {
  windows : gmap positive MetaWindow;
  window_manager : list (positive * signal);
  overview : list (positive * signal);
  sources : list (positive * (Z * bool));
  next_id : positive;
  get_tab_list : list positive;
  log : list call
}.

Definition with_windows (v : gmap positive MetaWindow) (r : Env) : Env :=
  {| windows := v; window_manager := window_manager r;
     overview := overview r; sources := sources r; next_id := next_id r;
     get_tab_list := get_tab_list r; log := log r |}.

Definition with_window_manager (v : list (positive * signal)) (r : Env) : Env :=
  {| windows := windows r; window_manager := v; overview := overview r;
     sources := sources r; next_id := next_id r;
     get_tab_list := get_tab_list r; log := log r |}.

Definition with_overview (v : list (positive * signal)) (r : Env) : Env :=
  {| windows := windows r; window_manager := window_manager r; overview := v;
     sources := sources r; next_id := next_id r;
     get_tab_list := get_tab_list r; log := log r |}.

Definition with_sources (v : list (positive * (Z * bool))) (r : Env) : Env :=
  {| windows := windows r; window_manager := window_manager r;
     overview := overview r; sources := v; next_id := next_id r;
     get_tab_list := get_tab_list r; log := log r |}.

Definition with_next_id (v : positive) (r : Env) : Env :=
  {| windows := windows r; window_manager := window_manager r;
     overview := overview r; sources := sources r; next_id := v;
     get_tab_list := get_tab_list r; log := log r |}.

Definition with_log (v : list call) (r : Env) : Env :=
  {| windows := windows r; window_manager := window_manager r;
     overview := overview r; sources := sources r; next_id := next_id r;
     get_tab_list := get_tab_list r; log := v |}.

Record State : Type := {
  this : t;
  env : Env
}.

Definition upd_this (f : t -> t) (st : State) : State :=
  {| this := f (this st); env := env st |}.

Definition upd_env (f : Env -> Env) (st : State) : State :=
  {| this := this st; env := f (env st) |}.

(** A method reads and updates the state; it gives [None] when a
    JavaScript exception escapes it (a property read on [null]) or when a
    window id names no object of the heap. *)
Definition M (A : Type) : Type := State -> option (A * State).

Definition ret {A : Type} (a : A) : M A := fun st => Some (a, st).

Definition bind {A B : Type} (m : M A) (k : A -> M B) : M B :=
  fun st =>
    match m st with
    | Some (a, st') => k a st'
    | None => None
    end.

Definition throw {A : Type} : M A := fun _ => None.

Definition gets {A : Type} (f : State -> A) : M A := fun st => Some (f st, st).

Definition modify (f : State -> State) : M unit := fun st => Some (tt, f st).

Notation "'do' x <- m ; k" := (bind m (fun x => k))
  (at level 10, x name, m at level 100, k at level 200).

Notation "m ;; k" := (bind m (fun _ => k))
  (at level 100, k at level 200, right associativity).

(** [for (let x of l) body(x)], over the elements [l] had at the start. *)
Fixpoint for_of {A : Type} (l : list A) (body : A -> M unit) : M unit :=
  match l with
  | [] => ret tt
  | x :: l' => body x ;; for_of l' body
  end.

Definition when (b : bool) (m : M unit) : M unit := if b then m else ret tt.

(** *** The environment's operations *)

Definition emit (c : call) : M unit :=
  modify (upd_env (fun e => with_log (log e ++ [c])%list e)).

Definition fresh_id : M positive :=
  do id <- gets (fun st => next_id (env st));
  modify (upd_env (with_next_id (Pos.succ id))) ;;
  ret id.

Definition window (w : positive) : M MetaWindow :=
  fun st =>
    match windows (env st) !! w with
    | Some win => Some (win, st)
    | None => None
    end.

Definition update_window (w : positive) (f : MetaWindow -> MetaWindow) : M unit :=
  do win <- window w;
  modify (upd_env (fun e => with_windows (<[w := f win]> (windows e)) e)).

Definition without (id : positive) {A : Type} (l : list (positive * A))
  : list (positive * A) :=
  filter (fun h => fst h ≠ id) l.

(** [w.connect(s, ...)] and [w.connect_after(s, ...)]: one more handler
    on [w], under a fresh id. *)
Definition window_connect (w : positive) (s : signal) : M positive :=
  do id <- fresh_id;
  update_window w (fun win => with_handlers (handlers win ++ [(id, s)])%list win) ;;
  emit (WindowConnect w s id) ;;
  ret id.

Definition window_disconnect (w : positive) (id : positive) : M unit :=
  update_window w (fun win => with_handlers (without id (handlers win)) win) ;;
  emit (OnWindow w (ManageWindow.Disconnect id)).

Definition wm_connect (s : signal) : M positive :=
  do id <- fresh_id;
  modify (upd_env (fun e => with_window_manager (window_manager e ++ [(id, s)])%list e)) ;;
  emit (WmConnect s id) ;;
  ret id.

Definition wm_disconnect (id : positive) : M unit :=
  modify (upd_env (fun e => with_window_manager (without id (window_manager e)) e)) ;;
  emit (WmDisconnect id).

Definition overview_connect (s : signal) : M positive :=
  do id <- fresh_id;
  modify (upd_env (fun e => with_overview (overview e ++ [(id, s)])%list e)) ;;
  emit (OverviewConnect s id) ;;
  ret id.

Definition overview_disconnect (id : positive) : M unit :=
  modify (upd_env (fun e => with_overview (without id (overview e)) e)) ;;
  emit (OverviewDisconnect id).

(** [GLib.idle_add(priority, closure)]: one more source, whose closure
    holds the [checkWorkspace] it was created with. *)
Definition idle_add (priority : Z) (checkWorkspace : bool) : M positive :=
  do id <- fresh_id;
  modify (upd_env (fun e => with_sources (sources e ++ [(id, (priority, checkWorkspace))])%list e)) ;;
  emit (IdleAdd priority id) ;;
  ret id.

Definition source_remove (id : positive) : M unit :=
  modify (upd_env (fun e => with_sources (without id (sources e)) e)) ;;
  emit (SourceRemove id).

(** *** The methods *)

(** [new EmulateX11WindowType()] in a fresh environment. *)
Definition constructor (is_wayland_compositor : bool) : t :=
  {| _isX11 := negb is_wayland_compositor;
     _windowList := [];
     _enableRefresh := true;
     _wayland_client := false;
     _idMap := None; _idDestroy := None; _switchWorkspaceId := None;
     _showingId := None; _hidingId := None;
     _activate_window_ID := None |}.

(** One call of a [ManageWindow] on window [w]; [changedStatusCB] is the
    closure the object was built with. *)
Definition perform (changedStatusCB : M unit) (w : positive)
    (c : ManageWindow.wcall) : M unit :=
  match c with
  | ManageWindow.Disconnect id => window_disconnect w id
  | ManageWindow.ChangedStatusCB => changedStatusCB
  | _ => emit (OnWindow w c)
  end.

(** The activation loop over the tab list; it gives [anyActive]. *)
Fixpoint activate_top (windows : list positive) : M bool :=
  match windows with
  | [] => ret false
  | w :: rest =>
      do win <- window w;
      if (negb (bool_decide (is_Some (customJS_ding win)))
          || negb (from_option ManageWindow._keepAtBottom false (customJS_ding win)))
         && negb (minimized win)
      then emit (ActivateWindow w) ;; ret true
      else activate_top rest
  end.

(** The fallback loop over [_windowList]. *)
Fixpoint activate_pinned (windowList : list positive) : M unit :=
  match windowList with
  | [] => ret tt
  | w :: rest =>
      do win <- window w;
      if bool_decide (is_Some (customJS_ding win))
         && from_option ManageWindow._keepAtBottom false (customJS_ding win)
         && negb (minimized win)
      then emit (ActivateWindow w)
      else activate_pinned rest
  end.

(** The closure [_refreshWindows] hands to [GLib.idle_add]; it returns
    [SOURCE_REMOVE]. *)
Definition refresh_pass (checkWorkspace : bool) : M unit :=
  do enableRefresh <- gets (fun st => _enableRefresh (this st));
  when enableRefresh
    (do windowList <- gets (fun st => _windowList (this st));
     for_of windowList (fun w =>
       do win <- window w;
       match customJS_ding win with
       | None => throw
       | Some ding =>
           for_of (ManageWindow.refreshState ding checkWorkspace
                     (located_on_workspace win))
                  (perform (ret tt) w)
       end) ;;
     when checkWorkspace
       (do windows <- gets (fun st => get_tab_list (env st));
        do anyActive <- activate_top windows;
        when (negb anyActive)
          (do windowList <- gets (fun st => _windowList (this st));
           activate_pinned windowList))) ;;
  modify (upd_this (assign_activate_window_ID None)).

Definition _refreshWindows (checkWorkspace : bool) : M unit :=
  do activate_window_ID <- gets (fun st => _activate_window_ID (this st));
  when (negb (bool_decide (is_Some activate_window_ID)))
    (do id <- idle_add PRIORITY_LOW checkWorkspace;
     modify (upd_this (assign_activate_window_ID (Some id)))).

(** [new ManageWindow(window, wayland_client, changedStatusCB)]. *)
Definition new_ManageWindow (w : positive) (wayland_client : bool)
    (changedStatusCB : M unit) : M ManageWindow.t :=
  do id1 <- window_connect w Raised;
  do id2 <- window_connect w PositionChanged;
  do id3 <- window_connect w NotifyTitle;
  do id4 <- window_connect w NotifyAbove;
  do win <- window w;
  let '(ding, calls) :=
    ManageWindow._parseTitle
      (ManageWindow.fresh wayland_client [id1; id2; id3; id4]) (get_title win) in
  for_of calls (perform changedStatusCB w) ;;
  ret ding.

(** What [addWindow] receives: a [Meta.WindowActor] or a [Meta.Window],
    each named by its window. *)
Inductive handle : Type :=
  | Actor (get_meta_window : positive)
  | Window (w : positive).

(** [_clearWindow(window)].  [addWindow] sets [unmanagedID] right after
    it has attached the record; a record without it gives no result. *)
Definition _clearWindow (w : positive) : M unit :=
  do win <- window w;
  match customJS_ding win with
  | None => throw
  | Some ding =>
      match ManageWindow.unmanagedID ding with
      | None => throw
      | Some id => window_disconnect w id
      end ;;
      for_of (ManageWindow.disconnect ding) (perform (ret tt) w) ;;
      update_window w (with_customJS_ding None)
  end.

(** The handler [addWindow] connects to ["unmanaged"]. *)
Definition on_unmanaged (w : positive) : M unit :=
  _clearWindow w ;;
  modify (upd_this (fun o => assign_windowList (filter (fun item => item ≠ w) (_windowList o)) o)).

Definition addWindow (h : handle) : M unit :=
  do isX11 <- gets (fun st => _isX11 (this st));
  if isX11 then ret tt
  else
    let w := match h with
             | Actor w' => w'
             | Window w' => w'
             end in
    do wayland_client <- gets (fun st => _wayland_client (this st));
    do ding <- new_ManageWindow w wayland_client (_refreshWindows true);
    update_window w (with_customJS_ding (Some ding)) ;;
    modify (upd_this (fun o => assign_windowList (_windowList o ++ [w])%list o)) ;;
    do id <- window_connect w Unmanaged;
    update_window w (fun win =>
      with_customJS_ding
        (option_map (ManageWindow.set_unmanagedID id) (customJS_ding win)) win).

(** [set_wayland_client(client)]. *)
Definition set_wayland_client (client : bool) : M unit :=
  modify (upd_this (assign_wayland_client client)) ;;
  do windowList <- gets (fun st => _windowList (this st));
  for_of windowList (fun w =>
    update_window w (fun win =>
      with_customJS_ding
        (option_map (ManageWindow.set_wayland_client client) (customJS_ding win))
        win)).

(** The five handlers [enable] connects.  [on_map] and [on_destroy]
    receive the window of the actor; [on_destroy] may find it [null]. *)
Definition on_map (w : positive) : M unit :=
  do win <- window w;
  do wayland_client <- gets (fun st => _wayland_client (this st));
  when (wayland_client && belongs_to win) (addWindow (Window w)) ;;
  _refreshWindows false.

Definition on_destroy (window' : option positive) : M unit :=
  match window' with
  | Some w =>
      do win <- window w;
      if DROPDOWN_MENU <=? get_window_type win then ret tt
      else _refreshWindows true
  | None => _refreshWindows true
  end.

Definition on_switch_workspace : M unit := _refreshWindows true.

Definition on_showing : M unit := modify (upd_this (assign_enableRefresh false)).

Definition on_hiding : M unit :=
  modify (upd_this (assign_enableRefresh true)) ;;
  _refreshWindows true.

Definition enable : M unit :=
  do isX11 <- gets (fun st => _isX11 (this st));
  if isX11 then ret tt
  else
    do idMap <- wm_connect Map;
    modify (upd_this (assign_idMap (Some idMap))) ;;
    do idDestroy <- wm_connect Destroy;
    modify (upd_this (assign_idDestroy (Some idDestroy))) ;;
    do switchWorkspaceId <- wm_connect SwitchWorkspace;
    modify (upd_this (assign_switchWorkspaceId (Some switchWorkspaceId))) ;;
    do showingId <- overview_connect Showing;
    modify (upd_this (assign_showingId (Some showingId))) ;;
    do hidingId <- overview_connect Hiding;
    modify (upd_this (assign_hidingId (Some hidingId))).

(** [if (this.f) { disconnect(this.f); this.f = null; }] *)
Definition release (get : t -> option positive) (disconnect : positive -> M unit)
    (set : option positive -> t -> t) : M unit :=
  do f <- gets (fun st => get (this st));
  match f with
  | Some id => disconnect id ;; modify (upd_this (set None))
  | None => ret tt
  end.

Definition disable : M unit :=
  do isX11 <- gets (fun st => _isX11 (this st));
  if isX11 then ret tt
  else
    release _activate_window_ID source_remove assign_activate_window_ID ;;
    (do windowList <- gets (fun st => _windowList (this st));
     for_of windowList _clearWindow) ;;
    modify (upd_this (assign_windowList [])) ;;
    release _idMap wm_disconnect assign_idMap ;;
    release _idDestroy wm_disconnect assign_idDestroy ;;
    release _switchWorkspaceId wm_disconnect assign_switchWorkspaceId ;;
    release _showingId overview_disconnect assign_showingId ;;
    release _hidingId overview_disconnect assign_hidingId.

(** *** The main loop *)

(** The idle sources in [pending] are dispatched in turn, each one once
    if it is still there; its closure returns [SOURCE_REMOVE], which
    destroys it.  The result lists the [checkWorkspace] of the passes run. *)
Fixpoint dispatch (pending : list (positive * (Z * bool))) : M (list bool) :=
  match pending with
  | [] => ret []
  | (id, (_, checkWorkspace)) :: rest =>
      do live <- gets (fun st => bool_decide (id ∈ (sources (env st)).*1));
      if live : bool then
        refresh_pass checkWorkspace ;;
        modify (upd_env (fun e => with_sources (without id (sources e)) e)) ;;
        do passes <- dispatch rest;
        ret (checkWorkspace :: passes)
      else dispatch rest
  end.

(** The main loop once no event is left: the sources pending then. *)
Definition idle : M (list bool) :=
  do pending <- gets (fun st => sources (env st));
  dispatch pending.


(** *** Signals, as they are delivered *)

(** The ids under which a record is connected to its window: the four
    of the constructor and the one of [addWindow]. *)
Definition record_ids (ding : ManageWindow.t) : list positive :=
  (ManageWindow._signalIDs ding
   ++ from_option (fun id => [id]) [] (ManageWindow.unmanagedID ding))%list.

(** Whether the record [ding] still has a handler for [s] on [win]. *)
Definition connected (win : MetaWindow) (ding : ManageWindow.t) (s : signal) : bool :=
  bool_decide (Exists (fun h => h.2 = s /\ h.1 ∈ record_ids ding) (handlers win)).

(** Window [w] emits [s]: the closure that the record on [w] connected
    for [s] runs, if it is still connected; a record connects one handler
    to each signal.  The closures of the constructor work on the record
    and the window, the one of [addWindow] is [on_unmanaged]; the status
    callback of a record is the closure [addWindow] gave it.  Handlers
    left behind by a record that was replaced are not modelled. *)
Definition window_emit (w : positive) (s : signal) : M unit :=
  do win <- window w;
  match customJS_ding win with
  | None => ret tt
  | Some ding =>
      if connected win ding s then
        match s with
        | Raised =>
            for_of (ManageWindow.on_raised ding) (perform (_refreshWindows true) w)
        | PositionChanged =>
            for_of (ManageWindow.on_position_changed ding)
                   (perform (_refreshWindows true) w)
        | NotifyTitle =>
            let '(ding', calls) :=
              ManageWindow.on_notify_title ding (get_title win) in
            update_window w (with_customJS_ding (Some ding')) ;;
            for_of calls (perform (_refreshWindows true) w)
        | NotifyAbove =>
            for_of (ManageWindow.on_notify_above ding (above win))
                   (perform (_refreshWindows true) w)
        | Unmanaged => on_unmanaged w
        | _ => ret tt
        end
      else ret tt
  end.

(** [global.window_manager] or [Main.overview] emits [s]: the handler
    runs once for each connection of [s] in the table. *)
Definition table_emit (table : State -> list (positive * signal)) (s : signal)
    (handler : M unit) : M unit :=
  do connections <- gets (fun st => filter (fun h => h.2 = s) (table st));
  for_of connections (fun _ => handler).

(** What the compositor and the main loop make happen. *)
Inductive event : Type :=
  | MapEvent (w : positive)
  | DestroyEvent (window' : option positive)
  | SwitchWorkspaceEvent
  | ShowingEvent
  | HidingEvent
  | WindowEvent (w : positive) (s : signal)
  | TitleEvent (w : positive) (title : option string)
  | IdleEvent.

Definition deliver (ev : event) : M unit :=
  match ev with
  | MapEvent w => table_emit (fun st => window_manager (env st)) Map (on_map w)
  | DestroyEvent window' =>
      table_emit (fun st => window_manager (env st)) Destroy (on_destroy window')
  | SwitchWorkspaceEvent =>
      table_emit (fun st => window_manager (env st)) SwitchWorkspace on_switch_workspace
  | ShowingEvent => table_emit (fun st => overview (env st)) Showing on_showing
  | HidingEvent => table_emit (fun st => overview (env st)) Hiding on_hiding
  | WindowEvent w s => window_emit w s
  | TitleEvent w title =>
      update_window w (with_get_title title) ;; window_emit w NotifyTitle
  | IdleEvent => idle ;; ret tt
  end.

(** The state a new object starts in, given the environment. *)
Definition start (is_wayland_compositor : bool) (e : Env) : State :=
  {| this := constructor is_wayland_compositor; env := e |}.

End EmulateX11WindowType.

(** * Vocabulary of the properties *)

#[local] Arguments String.append !_ _ : simpl nomatch.

(** [s] holds [pat] somewhere; [s] ends with [suffix]. *)
Definition occurs (pat s : string) : Prop :=
  exists pre post : string, s = pre ++ pat ++ post.

Definition ends_with (suffix s : string) : Prop :=
  exists pre : string, s = pre ++ suffix.

(** The Directive of the specification: the seven fields [_parseTitle]
    decodes into the object. *)
Record Directive : Type := {
  x : jsval;
  y : jsval;
  pinBottom : bool;
  pinTop : bool;
  showOnAllWorkspaces : bool;
  hideFromWindowList : bool;
  fixedPosition : bool
}.

Definition directive_of (this : ManageWindow.t) : Directive :=
  {| x := ManageWindow._x this;
     y := ManageWindow._y this;
     pinBottom := ManageWindow._keepAtBottom this;
     pinTop := JS.truthy (ManageWindow._keepAtTop this);
     showOnAllWorkspaces := ManageWindow._showInAllDesktops this;
     hideFromWindowList := ManageWindow._hideFromWindowList this;
     fixedPosition := ManageWindow._fixed this |}.

(** [decode]: the Directive an object holds after [_parseTitle] has run
    on it with the given title. *)
Definition decode (this : ManageWindow.t) (title : option string) : Directive :=
  directive_of (fst (ManageWindow._parseTitle this title)).

Definition empty_Directive : Directive :=
  {| x := null; y := null; pinBottom := false; pinTop := false;
     showOnAllWorkspaces := false; hideFromWindowList := false;
     fixedPosition := false |}.

(** The coordinate field in the words of the specification: from just
    after the marker at [pos] up to the next [;] found from there on, or
    to the end of the title. *)
Definition coordinate_field_spec (title : string) (pos : Z) : string :=
  let rest := JS.substring title (pos + 2) None in
  let semi := JS.search rest ";" in
  if semi =? -1 then rest else JS.substring rest 0 (Some semi).

(** The character [c] is not in [s]. *)
Definition free_of (c : ascii) (s : string) : Prop :=
  Forall (fun d => d <> c) (list_ascii_of_string s).

(** No [B] and no [T] among the characters of [s]. *)
Definition no_pin_letter (s : string) : Prop :=
  Forall (fun c => c <> "B"%char /\ c <> "T"%char) (list_ascii_of_string s).

(** The two pins are not both set. *)
Definition exclusive (this : ManageWindow.t) : Prop :=
  ManageWindow._keepAtBottom this && JS.truthy (ManageWindow._keepAtTop this) = false.

(** *** The registry and the refresh *)

Import EmulateX11WindowType.

(** The state with the calls [cs] logged after those it has. *)
Definition add_log (cs : list call) (st : State) : State :=
  upd_env (fun e => with_log (log e ++ cs)%list e) st.

(** The calls logged from [st] to [st']. *)
Definition new_calls (st st' : State) : list call :=
  drop (length (log (env st))) (log (env st')).

(** The windows activated by the calls [cs], in order. *)
Definition activations (cs : list call) : list positive :=
  omap (fun c => match c with
                 | ActivateWindow w => Some w
                 | _ => None
                 end) cs.

(** No refresh is pending: no handle is held and no source is queued. *)
Definition nothing_pending (st : State) : Prop :=
  _activate_window_ID (this st) = None /\ sources (env st) = [].

(** The handle held and the sources queued agree: none of either, or the
    one source of the handle. *)
Definition pending_ok (st : State) : Prop :=
  match _activate_window_ID (this st) with
  | None => sources (env st) = []
  | Some id => exists checkWorkspace,
      sources (env st) = [(id, (PRIORITY_LOW, checkWorkspace))]
  end.

(** Window [w] is an object of the heap with a [ManageWindow] on it. *)
Definition has_record (st : State) (w : positive) : Prop :=
  exists win ding,
    windows (env st) !! w = Some win /\ customJS_ding win = Some ding.

(** Every window the tab list names is an object of the heap. *)
Definition tab_list_ok (st : State) : Prop :=
  Forall (fun w => is_Some (windows (env st) !! w)) (get_tab_list (env st)).

(** Window [w] is passed over by the activation loop: it is minimized,
    or its Directive has [pinBottom]. *)
Definition skipped (st : State) (w : positive) : Prop :=
  exists win,
    windows (env st) !! w = Some win
    /\ (minimized win = true
        \/ exists ding, customJS_ding win = Some ding
                        /\ ManageWindow._keepAtBottom ding = true).

(** Window [w] is neither minimized nor bottom-pinned. *)
Definition eligible (st : State) (w : positive) : Prop :=
  exists win,
    windows (env st) !! w = Some win
    /\ minimized win = false
    /\ (forall ding, customJS_ding win = Some ding ->
                     ManageWindow._keepAtBottom ding = false).

(** Window [w] is bottom-pinned and not minimized. *)
Definition pinned_visible (st : State) (w : positive) : Prop :=
  exists win ding,
    windows (env st) !! w = Some win
    /\ customJS_ding win = Some ding
    /\ ManageWindow._keepAtBottom ding = true
    /\ minimized win = false.

(** The calls of the first loop of a refresh pass: [refreshState] on each
    window of [_windowList]. *)
Definition refresh_calls (st : State) (checkWorkspace : bool) : list call :=
  flat_map
    (fun w =>
       match windows (env st) !! w with
       | Some win =>
           match customJS_ding win with
           | Some ding =>
               map (OnWindow w)
                 (ManageWindow.refreshState ding checkWorkspace
                    (located_on_workspace win))
           | None => []
           end
       | None => []
       end)
    (_windowList (this st)).

(** A call that [perform] only logs. *)
Definition plain (c : ManageWindow.wcall) : bool :=
  match c with
  | ManageWindow.Disconnect _ => false
  | ManageWindow.ChangedStatusCB => false
  | _ => true
  end.

(** The tests of the two activation loops, on a heap. *)
Definition eligible_b (h : gmap positive MetaWindow) (w : positive) : bool :=
  match h !! w with
  | Some win =>
      (negb (bool_decide (is_Some (customJS_ding win)))
       || negb (from_option ManageWindow._keepAtBottom false (customJS_ding win)))
      && negb (minimized win)
  | None => false
  end.

Definition pinned_visible_b (h : gmap positive MetaWindow) (w : positive) : bool :=
  match h !! w with
  | Some win =>
      bool_decide (is_Some (customJS_ding win))
      && from_option ManageWindow._keepAtBottom false (customJS_ding win)
      && negb (minimized win)
  | None => false
  end.

(** The calls of the activation step: the first eligible window of the
    tab list, or else the first visible pinned window of [_windowList]. *)
Definition activation_calls (st : State) : list call :=
  match find (eligible_b (windows (env st))) (get_tab_list (env st)) with
  | Some w => [ActivateWindow w]
  | None =>
      match find (pinned_visible_b (windows (env st))) (_windowList (this st)) with
      | Some w => [ActivateWindow w]
      | None => []
      end
  end.

(** The calls of one refresh pass. *)
Definition pass_calls (st : State) (checkWorkspace : bool) : list call :=
  if _enableRefresh (this st)
  then (refresh_calls st checkWorkspace
        ++ (if checkWorkspace then activation_calls st else []))%list
  else [].

(** *** Sample states *)

(** A window object with nothing connected to it. *)
Definition sample_window (title : option string) (is_minimized : bool)
    (ding : option ManageWindow.t) : MetaWindow :=
  {| get_title := title; minimized := is_minimized; above := false;
     get_window_type := 0; located_on_workspace := true; belongs_to := true;
     handlers := []; customJS_ding := ding |}.

(** The scenario of the specification: A is bottom-pinned and on top of
    the stack, B is a normal window, C is minimized. *)
Definition scenario_heap : gmap positive MetaWindow :=
  <[1%positive := sample_window (Some "@!0,0;B") false
      (Some (fst (ManageWindow._parseTitle (ManageWindow.fresh true [])
                    (Some "@!0,0;B"))))]>
    (<[2%positive := sample_window (Some "Editor") false None]>
       (<[3%positive := sample_window (Some "Terminal") true None]> ∅)).

Definition scenario : State :=
  {| this := assign_windowList [1%positive] (constructor true);
     env := {| windows := scenario_heap;
               window_manager := []; overview := []; sources := [];
               next_id := 1%positive;
               get_tab_list := [1%positive; 2%positive; 3%positive];
               log := [] |} |}.

(** The state after [_refreshWindows(checkWorkspace)] has queued a source:
    it takes the next id, and the handle is that id. *)
Definition scheduled (checkWorkspace : bool) (st : State) : State :=
  let id := next_id (env st) in
  {| this := assign_activate_window_ID (Some id) (this st);
     env := {| windows := windows (env st);
               window_manager := window_manager (env st);
               overview := overview (env st);
               sources := (sources (env st) ++ [(id, (PRIORITY_LOW, checkWorkspace))])%list;
               next_id := Pos.succ id;
               get_tab_list := get_tab_list (env st);
               log := (log (env st) ++ [IdleAdd PRIORITY_LOW id])%list |} |}.


(** *** Teardown *)

(** Window [w] is an object of the heap with a [ManageWindow] on it whose
    [unmanagedID] is set, as [addWindow] leaves it. *)
Definition managed (st : State) (w : positive) : Prop :=
  exists win ding id,
    windows (env st) !! w = Some win
    /\ customJS_ding win = Some ding
    /\ ManageWindow.unmanagedID ding = Some id.

(** Each window is listed once, with its record on it. *)
Definition registry_ok (st : State) : Prop :=
  NoDup (_windowList (this st)) /\ Forall (managed st) (_windowList (this st)).

Definition opt_handler (id : option positive) (s : signal)
  : list (positive * signal) :=
  match id with
  | Some i => [(i, s)]
  | None => []
  end.

(** The handlers connected to [global.window_manager] and to
    [Main.overview] are those whose ids the object holds. *)
Definition subscriptions_ok (st : State) : Prop :=
  window_manager (env st)
  = (opt_handler (_idMap (this st)) Map
     ++ opt_handler (_idDestroy (this st)) Destroy
     ++ opt_handler (_switchWorkspaceId (this st)) SwitchWorkspace)%list
  /\ overview (env st)
     = (opt_handler (_showingId (this st)) Showing
        ++ opt_handler (_hidingId (this st)) Hiding)%list.

(** The calls [_clearWindow] makes for window [w] of heap [h]. *)
Definition teardown_calls (h : gmap positive MetaWindow) (w : positive)
  : list call :=
  match h !! w with
  | Some win =>
      match customJS_ding win with
      | Some ding =>
          match ManageWindow.unmanagedID ding with
          | Some id =>
              OnWindow w (ManageWindow.Disconnect id)
              :: map (OnWindow w) (ManageWindow.disconnect ding)
          | None => []
          end
      | None => []
      end
  | None => []
  end.

(** The window object after [_clearWindow]: the handlers of the record
    are disconnected and [customJS_ding] is [null]. *)
Definition torn_down (win : MetaWindow) (ding : ManageWindow.t) (id : positive)
  : MetaWindow :=
  with_customJS_ding None
    (with_handlers
       (fold_left (fun hs i => without i hs) (ManageWindow._signalIDs ding)
          (without id (handlers win)))
       win).

(** The state with heap [h] and the calls [cs] logged. *)
Definition with_heap_log (h : gmap positive MetaWindow) (cs : list call)
    (st : State) : State :=
  add_log cs (upd_env (with_windows h) st).

(** The calls of [disable] before and after the teardown of the records. *)
Definition cancel_calls (st : State) : list call :=
  match _activate_window_ID (this st) with
  | Some id => [SourceRemove id]
  | None => []
  end.

Definition unsubscribe_calls (st : State) : list call :=
  (from_option (fun id => [WmDisconnect id]) [] (_idMap (this st))
   ++ from_option (fun id => [WmDisconnect id]) [] (_idDestroy (this st))
   ++ from_option (fun id => [WmDisconnect id]) [] (_switchWorkspaceId (this st))
   ++ from_option (fun id => [OverviewDisconnect id]) [] (_showingId (this st))
   ++ from_option (fun id => [OverviewDisconnect id]) [] (_hidingId (this st)))%list.

(** The state a method leaves, or the state itself if it throws. *)
Definition after (m : M unit) (st : State) : State :=
  match m st with
  | Some (_, st') => st'
  | None => st
  end.

(** Two windows of the trusted client mapped after [enable], with the
    refresh they asked for still pending. *)
Definition two_windows_mapped : State :=
  Eval vm_compute in
  after (set_wayland_client true ;; enable ;;
         on_map 1%positive ;; on_map 2%positive)
    {| this := constructor true;
       env := {| windows :=
                   <[1%positive := sample_window (Some "@!0,0;BT") false None]>
                     (<[2%positive := sample_window (Some "Clock ") false None]> ∅);
                 window_manager := []; overview := []; sources := [];
                 next_id := 1%positive; get_tab_list := []; log := [] |} |}.

(** A handler table after [if (id) disconnect(id)]. *)
Definition release_table (id : option positive) (l : list (positive * signal))
  : list (positive * signal) :=
  match id with
  | Some i => without i l
  | None => l
  end.

(** The state after the first step of [disable], which removes the idle
    source of the handle, and after its last five, which disconnect the
    handlers of the five ids. *)
Definition cancelled (st : State) : State :=
  match _activate_window_ID (this st) with
  | Some id =>
      upd_this (assign_activate_window_ID None)
        (add_log [SourceRemove id]
           (upd_env (fun e => with_sources (without id (sources e)) e) st))
  | None => st
  end.

Definition unsubscribed (st : State) : State :=
  {| this :=
       assign_hidingId None
         (assign_showingId None
            (assign_switchWorkspaceId None
               (assign_idDestroy None (assign_idMap None (this st)))));
     env :=
       {| windows := windows (env st);
          window_manager :=
            release_table (_switchWorkspaceId (this st))
              (release_table (_idDestroy (this st))
                 (release_table (_idMap (this st)) (window_manager (env st))));
          overview :=
            release_table (_hidingId (this st))
              (release_table (_showingId (this st)) (overview (env st)));
          sources := sources (env st);
          next_id := next_id (env st);
          get_tab_list := get_tab_list (env st);
          log := (log (env st) ++ unsubscribe_calls st)%list |} |}.

(** The state after [enable] on a Wayland compositor. *)
Definition enabled (st : State) : State :=
  let id1 := next_id (env st) in
  let id2 := Pos.succ id1 in
  let id3 := Pos.succ id2 in
  let id4 := Pos.succ id3 in
  let id5 := Pos.succ id4 in
  {| this :=
       assign_hidingId (Some id5)
         (assign_showingId (Some id4)
            (assign_switchWorkspaceId (Some id3)
               (assign_idDestroy (Some id2) (assign_idMap (Some id1) (this st)))));
     env :=
       {| windows := windows (env st);
          window_manager :=
            (window_manager (env st)
             ++ [(id1, Map); (id2, Destroy); (id3, SwitchWorkspace)])%list;
          overview := (overview (env st) ++ [(id4, Showing); (id5, Hiding)])%list;
          sources := sources (env st);
          next_id := Pos.succ id5;
          get_tab_list := get_tab_list (env st);
          log := (log (env st)
                  ++ [WmConnect Map id1; WmConnect Destroy id2;
                      WmConnect SwitchWorkspace id3;
                      OverviewConnect Showing id4; OverviewConnect Hiding id5])%list |} |}.

(** An environment with no window, no handler and no source. *)
Definition empty_env : Env :=
  {| windows := ∅; window_manager := []; overview := []; sources := [];
     next_id := 1%positive; get_tab_list := []; log := [] |}.

(** *** More on the title parser *)

(** Two objects agree on the fields [_parseTitle] does not write, and on
    the seven it does. *)
Definition same_frame (a b : ManageWindow.t) : Prop :=
  ManageWindow._wayland_client a = ManageWindow._wayland_client b
  /\ ManageWindow._signalIDs a = ManageWindow._signalIDs b
  /\ ManageWindow.unmanagedID a = ManageWindow.unmanagedID b.

Definition same_fields (a b : ManageWindow.t) : Prop :=
  ManageWindow._x a = ManageWindow._x b
  /\ ManageWindow._y a = ManageWindow._y b
  /\ ManageWindow._keepAtBottom a = ManageWindow._keepAtBottom b
  /\ ManageWindow._keepAtTop a = ManageWindow._keepAtTop b
  /\ ManageWindow._showInAllDesktops a = ManageWindow._showInAllDesktops b
  /\ ManageWindow._hideFromWindowList a = ManageWindow._hideFromWindowList b
  /\ ManageWindow._fixed a = ManageWindow._fixed b.

(** The flag field of a title in which the marker is found: the
    characters the scan goes over. *)
Definition flag_field (title : string) : list ascii :=
  list_ascii_of_string
    (ManageWindow.extra_chars (ManageWindow.special_title title)
       (JS.search (ManageWindow.special_title title) "@!")).

(** The marker is found in the title as [_parseTitle] searches it. *)
Definition marker_found (title : string) : Prop :=
  JS.search (ManageWindow.special_title title) "@!" <> -1.

(** The calls at the end of [_parseTitle], from the object as decoded
    and the [keepAtTop] saved at the start. *)
Definition calls_after (this : ManageWindow.t) (keepAtTop : option bool)
  : list ManageWindow.wcall :=
  ((if ManageWindow._wayland_client this
    then [if ManageWindow._hideFromWindowList this
          then ManageWindow.HideFromWindowList
          else ManageWindow.ShowInWindowList]
    else [])
   ++ (if ManageWindow.keepAtTop_changed this keepAtTop
       then [if JS.truthy (ManageWindow._keepAtTop this)
             then ManageWindow.MakeAbove else ManageWindow.UnmakeAbove]
       else [])
   ++ (if ManageWindow._keepAtBottom this then [ManageWindow.Lower] else [])
   ++ (if ManageWindow._fixed this
          && JS.not_null (ManageWindow._x this)
          && JS.not_null (ManageWindow._y this)
       then [ManageWindow.MoveFrame false (ManageWindow._x this)
               (ManageWindow._y this)]
       else []))%list.

(** *** States in normal form, and the invariant of the registry *)

(** The state that has the object [o], the heap [h], the idle sources
    [src] and the next id [n], and otherwise is [st] with the calls [cs]
    logged. *)
Definition mk (o : t) (h : gmap positive MetaWindow)
    (src : list (positive * (Z * bool))) (n : positive) (cs : list call)
    (st : State) : State :=
  {| this := o;
     env := {| windows := h;
               window_manager := window_manager (env st);
               overview := overview (env st);
               sources := src;
               next_id := n;
               get_tab_list := get_tab_list (env st);
               log := (log (env st) ++ cs)%list |} |}.

(** The handlers a record has on its window when it is fully set up. *)
Definition handlers_of (ding : ManageWindow.t) : option (list (positive * signal)) :=
  match ManageWindow._signalIDs ding, ManageWindow.unmanagedID ding with
  | [id1; id2; id3; id4], Some id5 =>
      Some [(id1, Raised); (id2, PositionChanged); (id3, NotifyTitle);
            (id4, NotifyAbove); (id5, Unmanaged)]
  | _, _ => None
  end.

(** A window object is consistent with [_windowList]: a window with a
    record is listed and carries the handlers of the record and no other;
    a window without a record is not listed and carries no handler. *)
Definition window_ok (windowList : list positive) (w : positive)
    (win : MetaWindow) : Prop :=
  match customJS_ding win with
  | Some ding => w ∈ windowList /\ handlers_of ding = Some (handlers win)
  | None => (w ∉ windowList) /\ handlers win = []
  end.

(** The invariant: at most the one source of the handle is pending, each
    window is listed once and is an object of the heap, every object of
    the heap is consistent with the list, the tab list names objects of
    the heap, and the compositor-wide handlers are those of the five ids. *)
Definition invariant (st : State) : Prop :=
  pending_ok st
  /\ NoDup (_windowList (this st))
  /\ (forall w, w ∈ _windowList (this st) -> is_Some (windows (env st) !! w))
  /\ (forall w win, windows (env st) !! w = Some win ->
        window_ok (_windowList (this st)) w win)
  /\ tab_list_ok st
  /\ subscriptions_ok st.

(** What may be done to the object: an event is delivered, or one of its
    methods is called. *)
Inductive operation : Type :=
  | Deliver (ev : event)
  | Enable
  | Disable
  | AddWindow (h : handle)
  | SetWaylandClient (client : bool).

Definition perform_operation (op : operation) : M unit :=
  match op with
  | Deliver ev => deliver ev
  | Enable => enable
  | Disable => disable
  | AddWindow h => addWindow h
  | SetWaylandClient client => set_wayland_client client
  end.

Definition window_of (h : handle) : positive :=
  match h with
  | Actor w => w
  | Window w => w
  end.

(** The window is an object of the heap without a record on it. *)
Definition unmanaged_window (st : State) (w : positive) : Prop :=
  exists win, windows (env st) !! w = Some win /\ customJS_ding win = None.

(** The protocol of the object: a window is mapped, or added, when it
    has no record; events name windows of the heap; [enable] is called
    when the object holds no subscription. *)
Definition admissible (st : State) (op : operation) : Prop :=
  match op with
  | Deliver (MapEvent w) => unmanaged_window st w
  | Deliver (DestroyEvent (Some w)) => is_Some (windows (env st) !! w)
  | Deliver (WindowEvent w _) => is_Some (windows (env st) !! w)
  | Deliver (TitleEvent w _) => is_Some (windows (env st) !! w)
  | Deliver _ => True
  | Enable =>
      _idMap (this st) = None /\ _idDestroy (this st) = None
      /\ _switchWorkspaceId (this st) = None
      /\ _showingId (this st) = None /\ _hidingId (this st) = None
  | Disable => True
  | AddWindow h => unmanaged_window st (window_of h)
  | SetWaylandClient _ => True
  end.

(** Whether the [_parseTitle] of a new record queues a refresh: the title
    is not [null] and no refresh is pending. *)
Definition queues_refresh (title : option string) (o : t) : bool :=
  bool_decide (is_Some title)
  && negb (bool_decide (is_Some (_activate_window_ID o))).

(** The calls of [_parseTitle] on the window, the status callback left
    out: none for a [null] title. *)
Definition title_calls (ding : ManageWindow.t) (keepAtTop : option bool)
    (title : option string) : list ManageWindow.wcall :=
  match title with
  | Some _ => calls_after ding keepAtTop
  | None => []
  end.

(** The state [addWindow] leaves on a Wayland compositor, for a window
    [w] that is the object [win] of the heap: the record of [w] is built
    from its title with the four ids from [n] on, a refresh is queued
    under the next id when [_parseTitle] asks for one and none is pending,
    the handler of ["unmanaged"] takes the id after that, and [w] is the
    last of [_windowList]. *)
Definition added (w : positive) (win : MetaWindow) (o : t)
    (h : gmap positive MetaWindow) (src : list (positive * (Z * bool)))
    (n : positive) (cs : list call) (st : State) : State :=
  let n1 := Pos.succ n in
  let n2 := Pos.succ n1 in
  let n3 := Pos.succ n2 in
  let n4 := Pos.succ n3 in
  let ding :=
    fst (ManageWindow._parseTitle
           (ManageWindow.fresh (_wayland_client o) [n; n1; n2; n3])
           (get_title win)) in
  let q := queues_refresh (get_title win) o in
  let k := if q then Pos.succ n4 else n4 in
  mk (assign_windowList (_windowList o ++ [w])%list
        (if q then assign_activate_window_ID (Some n4) o else o))
     (<[w := with_customJS_ding (Some (ManageWindow.set_unmanagedID k ding))
               (with_handlers
                  (handlers win
                   ++ [(n, Raised); (n1, PositionChanged); (n2, NotifyTitle);
                       (n3, NotifyAbove); (k, Unmanaged)])%list
                  win)]> h)
     (if q then (src ++ [(n4, (PRIORITY_LOW, true))])%list else src)
     (Pos.succ k)
     (cs
      ++ [WindowConnect w Raised n; WindowConnect w PositionChanged n1;
          WindowConnect w NotifyTitle n2; WindowConnect w NotifyAbove n3]
      ++ map (OnWindow w) (title_calls ding None (get_title win))
      ++ (if q then [IdleAdd PRIORITY_LOW n4] else [])
      ++ [WindowConnect w Unmanaged k])%list
     st.

(** Two window objects carry the same handlers, and records (or none)
    with the same handlers. *)
Definition similar (a b : MetaWindow) : Prop :=
  handlers b = handlers a
  /\ option_map handlers_of (customJS_ding b) = option_map handlers_of (customJS_ding a).

(** The state the handler of ["notify::title"] leaves for window [w],
    the object [win] of the heap with the record [ding]: the record is
    decoded anew from the title, the calls of [_parseTitle] are logged,
    and a refresh is queued when the title is not [null] and none is
    pending. *)
Definition retitled (w : positive) (win : MetaWindow) (ding : ManageWindow.t)
    (st : State) : State :=
  let title := get_title win in
  let ding' := fst (ManageWindow._parseTitle ding title) in
  let calls :=
    map (OnWindow w) (title_calls ding' (ManageWindow._keepAtTop ding) title) in
  let h' := <[w := with_customJS_ding (Some ding') win]> (windows (env st)) in
  let n := next_id (env st) in
  if queues_refresh title (this st)
  then mk (assign_activate_window_ID (Some n) (this st)) h'
         (sources (env st) ++ [(n, (PRIORITY_LOW, true))])%list (Pos.succ n)
         (calls ++ [IdleAdd PRIORITY_LOW n])%list st
  else mk (this st) h' (sources (env st)) n calls st.

(** Operations done one after the other, each admissible in the state
    it finds. *)
Fixpoint admissible_run (st : State) (ops : list operation) : Prop :=
  match ops with
  | [] => True
  | op :: rest =>
      admissible st op
      /\ forall st', perform_operation op st = Some (tt, st') ->
                     admissible_run st' rest
  end.

(** An environment as the object finds it: no handler and no record on
    any window, no source, no compositor-wide handler, and a tab list of
    windows of the heap. *)
Definition clean_env (e : Env) : Prop :=
  (forall w win, windows e !! w = Some win ->
     customJS_ding win = None /\ handlers win = [])
  /\ window_manager e = [] /\ overview e = [] /\ sources e = []
  /\ Forall (fun w => is_Some (windows e !! w)) (get_tab_list e).

(** A clean environment with two windows of the trusted client, the
    operations done on a new object in it, and the state they leave. *)
Definition sample_env : Env :=
  {| windows :=
       <[1%positive := sample_window (Some "@!0,0;BT") false None]>
         (<[2%positive := sample_window (Some "Clock ") false None]> ∅);
     window_manager := []; overview := []; sources := [];
     next_id := 1%positive; get_tab_list := [1%positive; 2%positive]; log := [] |}.

Definition sample_ops : list operation :=
  [SetWaylandClient true; Enable; Deliver (MapEvent 1%positive);
   Deliver (MapEvent 2%positive)].

Definition sample_state : State :=
  Eval vm_compute in
  after (for_of sample_ops perform_operation) (start true sample_env).

(** Window [w] of heap [h] carries a record that pins it to the bottom. *)
Definition bottom_pinned (h : gmap positive MetaWindow) (w : positive) : bool :=
  match h !! w with
  | Some win => from_option ManageWindow._keepAtBottom false (customJS_ding win)
  | None => false
  end.

(** Window [w] of heap [h] is to be shown on all workspaces and is not on
    the active one. *)
Definition sticky_away (h : gmap positive MetaWindow) (w : positive) : bool :=
  match h !! w with
  | Some win =>
      from_option ManageWindow._showInAllDesktops false (customJS_ding win)
      && negb (located_on_workspace win)
  | None => false
  end.

(** The windows moved to the active workspace by the calls [cs], and the
    windows lowered by them, in order. *)
Definition workspace_changes (cs : list call) : list positive :=
  omap (fun c => match c with
                 | OnWindow w ManageWindow.ChangeWorkspace => Some w
                 | _ => None
                 end) cs.

Definition lowered (cs : list call) : list positive :=
  omap (fun c => match c with
                 | OnWindow w ManageWindow.Lower => Some w
                 | _ => None
                 end) cs.

(** The object holds nothing: no window, no pending refresh, none of the
    five ids, and the environment has no handler, source or record. *)
Definition inert (st : State) : Prop :=
  _windowList (this st) = []
  /\ _activate_window_ID (this st) = None
  /\ _idMap (this st) = None /\ _idDestroy (this st) = None
  /\ _switchWorkspaceId (this st) = None
  /\ _showingId (this st) = None /\ _hidingId (this st) = None
  /\ window_manager (env st) = [] /\ overview (env st) = []
  /\ sources (env st) = []
  /\ (forall w win, windows (env st) !! w = Some win ->
        customJS_ding win = None /\ handlers win = []).

(** The window the event names, if any. *)
Definition event_window (ev : event) : option positive :=
  match ev with
  | MapEvent w => Some w
  | DestroyEvent window' => window'
  | WindowEvent w _ => Some w
  | TitleEvent w _ => Some w
  | _ => None
  end.

(** Two listed windows, neither on the active workspace: the first is
    bottom-pinned and shown on all workspaces, the second is a plain
    window of the client. *)
Definition away_window (title : string) : MetaWindow :=
  {| get_title := Some title; minimized := false; above := false;
     get_window_type := 0; located_on_workspace := false; belongs_to := true;
     handlers := [];
     customJS_ding :=
       Some (fst (ManageWindow._parseTitle (ManageWindow.fresh true [])
                    (Some title))) |}.

Definition sticky_scenario : State :=
  {| this := assign_windowList [1%positive; 2%positive] (constructor true);
     env := {| windows :=
                 <[1%positive := away_window "@!0,0;BD"]>
                   (<[2%positive := away_window "Notes"]> ∅);
               window_manager := []; overview := []; sources := [];
               next_id := 1%positive;
               get_tab_list := [1%positive; 2%positive];
               log := [] |} |}.

(** The sample environment once the client is set and [enable] has run,
    and the sample state once [disable] has run. *)
Definition sample_enabled : State :=
  Eval vm_compute in
  after (for_of [SetWaylandClient true; Enable] perform_operation)
    (start true sample_env).

Definition sample_disabled : State :=
  Eval vm_compute in after disable sample_state.

(** The destroyed actor has a window, and it is a menu, a tooltip or
    another window type from [DROPDOWN_MENU] on. *)
Definition is_menu (h : gmap positive MetaWindow) (window' : option positive) : bool :=
  match window' with
  | Some w =>
      match h !! w with
      | Some win => DROPDOWN_MENU <=? get_window_type win
      | None => false
      end
  | None => false
  end.

(** The scenario once [enable] has run: the five handlers are connected
    under the ids 1 to 5, the client is not set. *)
Definition scenario_enabled : State :=
  Eval vm_compute in after enable scenario.

(** * Properties *)

(** ** Strings *)

Lemma prefix_app (pat s : string) :
  String.prefix pat s = true <-> exists post, s = pat ++ post.
Proof.
  revert s. induction pat as [|c pat IH]; intros s.
  - split; [intros _; exists s; reflexivity | destruct s; reflexivity].
  - destruct s as [|d s]; simpl.
    + split; [discriminate | intros [post H]; discriminate].
    + destruct (ascii_dec c d) as [->|Hne].
      * rewrite IH. split; intros [post H]; exists post; simpl in *; congruence.
      * split; [discriminate | intros [post H]; simpl in H; congruence].
Qed.

Lemma search_from_eq (pat s : string) (i : Z) :
  JS.search_from pat s i =
  if String.prefix pat s then i
  else match s with
       | EmptyString => -1
       | String _ s' => JS.search_from pat s' (i + 1)
       end.
Proof. destruct s; reflexivity. Qed.

Lemma search_from_range (pat s : string) (i : Z) :
  JS.search_from pat s i = -1 \/ i <= JS.search_from pat s i.
Proof.
  revert i. induction s as [|c s IH]; intros i; rewrite search_from_eq;
    destruct (String.prefix pat _); try lia.
  destruct (IH (i + 1)); lia.
Qed.

Lemma occurs_head (pat s : string) :
  String.prefix pat s = true -> occurs pat s.
Proof. intros H. apply prefix_app in H as [post H]. exists "", post. exact H. Qed.

Lemma occurs_cons (pat s : string) (c : ascii) :
  occurs pat (String c s) <-> String.prefix pat (String c s) = true \/ occurs pat s.
Proof.
  split.
  - intros (pre & post & H). destruct pre as [|d pre]; simpl in H.
    + left. apply prefix_app. eauto.
    + right. injection H as _ ->. exists pre, post. reflexivity.
  - intros [H | (pre & post & ->)]; [apply occurs_head; exact H|].
    exists (String c pre), post. reflexivity.
Qed.

Lemma occurs_nil (pat : string) :
  occurs pat "" <-> String.prefix pat "" = true.
Proof.
  split; [|apply occurs_head].
  intros (pre & post & H). destruct pre; simpl in H; [|discriminate].
  apply prefix_app. eauto.
Qed.

Lemma search_from_none (pat s : string) (i : Z) :
  0 <= i -> (JS.search_from pat s i = -1 <-> ~ occurs pat s).
Proof.
  revert i. induction s as [|c s IH]; intros i Hi; rewrite search_from_eq.
  - rewrite occurs_nil. destruct (String.prefix pat ""); split; try lia; congruence.
  - rewrite occurs_cons. destruct (String.prefix pat (String c s)).
    + split; [lia | intros H; exfalso; apply H; left; reflexivity].
    + rewrite (IH (i + 1)) by lia. split.
      * intros H [H' | H']; [discriminate | exact (H H')].
      * intros H H'. apply H. right. exact H'.
Qed.

Lemma search_none (s pat : string) :
  JS.search s pat = -1 <-> ~ occurs pat s.
Proof. apply search_from_none. lia. Qed.

Lemma get_app_length (pre s : string) (n : nat) :
  String.get (String.length pre + n) (pre ++ s) = String.get n s.
Proof. induction pre as [|c pre IH]; simpl; [reflexivity | exact IH]. Qed.

Lemma length_app (a b : string) :
  String.length (a ++ b) = (String.length a + String.length b)%nat.
Proof. induction a as [|c a IH]; simpl; [reflexivity | rewrite IH; reflexivity]. Qed.

Lemma append_assoc (a b c : string) : (a ++ b) ++ c = a ++ (b ++ c).
Proof. induction a as [|x a IH]; simpl; [reflexivity | rewrite IH; reflexivity]. Qed.

Lemma string_snoc (s : string) :
  s = "" \/ exists init c, s = init ++ String c "".
Proof.
  induction s as [|x s IH]; [left; reflexivity | right].
  destruct IH as [-> | (init & c & ->)].
  - exists "", x. reflexivity.
  - exists (String x init), c. reflexivity.
Qed.

(** Reading [s[s.length - k]] in a string with a known suffix. *)
Lemma at_index_from_end (pre suf : string) (k : Z) :
  0 < k <= JS.length suf ->
  JS.at_index (pre ++ suf) (JS.length (pre ++ suf) - k)
  = String.get (Z.to_nat (JS.length suf - k)) suf.
Proof.
  unfold JS.at_index, JS.length. intros Hk. rewrite length_app.
  replace (_ <? 0) with false by (symmetry; apply Z.ltb_ge; lia).
  replace (Z.to_nat (Z.of_nat (String.length pre + String.length suf) - k))
    with (String.length pre + Z.to_nat (Z.of_nat (String.length suf) - k))%nat by lia.
  apply get_app_length.
Qed.

Lemma special_title_other (title : string) :
  ~ ends_with " " title -> ManageWindow.special_title title = title.
Proof.
  intros H. unfold ManageWindow.special_title.
  destruct (string_snoc title) as [-> | (init & c & ->)]; [reflexivity|].
  rewrite (at_index_from_end init (String c "") 1) by (unfold JS.length; simpl; lia).
  simpl. rewrite bool_decide_eq_false_2, andb_false_r; [reflexivity|].
  intros [= ->]. apply H. exists init. reflexivity.
Qed.

Lemma special_title_one (pre : string) :
  ~ ends_with " " pre -> ManageWindow.special_title (pre ++ " ") = "@!H".
Proof.
  intros H. unfold ManageWindow.special_title.
  rewrite (at_index_from_end pre " " 1) by (unfold JS.length; simpl; lia).
  assert (Hlen : (0 <? JS.length (pre ++ " ")) = true)
    by (apply Z.ltb_lt; unfold JS.length; rewrite length_app; simpl; lia).
  rewrite Hlen. simpl.
  destruct (string_snoc pre) as [-> | (init & c & ->)]; [reflexivity|].
  rewrite append_assoc. simpl.
  rewrite (at_index_from_end init (String c " ") 2) by (unfold JS.length; simpl; lia).
  simpl. rewrite bool_decide_eq_false_2, andb_false_r; [reflexivity|].
  intros [= ->]. apply H. exists init. reflexivity.
Qed.

Lemma special_title_two (pre : string) :
  ManageWindow.special_title (pre ++ "  ") = "@!HTD".
Proof.
  unfold ManageWindow.special_title.
  rewrite (at_index_from_end pre "  " 1) by (unfold JS.length; simpl; lia).
  rewrite (at_index_from_end pre "  " 2) by (unfold JS.length; simpl; lia).
  assert (Hlen : (1 <? JS.length (pre ++ "  ")) = true)
    by (apply Z.ltb_lt; unfold JS.length; rewrite length_app; simpl; lia).
  assert (Hlen' : (0 <? JS.length (pre ++ "  ")) = true)
    by (apply Z.ltb_lt; unfold JS.length; rewrite length_app; simpl; lia).
  rewrite Hlen, Hlen'. reflexivity.
Qed.


Lemma ends_with_char (c : ascii) (s : string) :
  ends_with (String c "") s ->
  JS.at_index s (JS.length s - 1) = Some c.
Proof.
  intros [pre ->].
  rewrite (at_index_from_end pre (String c "") 1) by (unfold JS.length; simpl; lia).
  reflexivity.
Qed.

(** ** The title parser *)

Section ParseTitle.

Import ManageWindow.

Implicit Types (this : ManageWindow.t) (title : string) (c : ascii).

(** The flag scan writes the five flags only. *)
Lemma scan_char_frame this c :
  _x (scan_char this c) = _x this
  /\ _y (scan_char this c) = _y this
  /\ _wayland_client (scan_char this c) = _wayland_client this.
Proof.
  unfold scan_char.
  repeat match goal with |- context [Ascii.eqb ?a ?b] => destruct (Ascii.eqb a b) end;
    repeat split; reflexivity.
Qed.

Lemma scan_frame this (l : list ascii) :
  _x (fold_left scan_char l this) = _x this
  /\ _y (fold_left scan_char l this) = _y this
  /\ _wayland_client (fold_left scan_char l this) = _wayland_client this.
Proof.
  revert this. induction l as [|c l IH]; intros this; simpl; [tauto|].
  destruct (IH (scan_char this c)) as (-> & -> & ->). apply scan_char_frame.
Qed.

(** Each case of the [switch] that sets one pin clears the other. *)
Lemma scan_char_exclusive this c : exclusive this -> exclusive (scan_char this c).
Proof.
  unfold exclusive, scan_char.
  repeat match goal with |- context [Ascii.eqb ?a ?b] => destruct (Ascii.eqb a b) end;
    simpl; intros H; try exact H; try reflexivity.
Qed.

Lemma scan_exclusive this (l : list ascii) :
  exclusive this -> exclusive (fold_left scan_char l this).
Proof.
  revert this. induction l as [|c l IH]; intros this H; simpl; [exact H|].
  apply IH, scan_char_exclusive, H.
Qed.

Lemma reset_exclusive this : exclusive (reset this).
Proof. reflexivity. Qed.

(** A character other than [B] and [T] leaves both pins as they are. *)
Lemma scan_char_no_pin this c :
  c <> "B"%char -> c <> "T"%char ->
  _keepAtBottom (scan_char this c) = _keepAtBottom this
  /\ _keepAtTop (scan_char this c) = _keepAtTop this.
Proof.
  intros HB HT. unfold scan_char.
  apply Ascii.eqb_neq in HB, HT. rewrite HB, HT.
  repeat match goal with |- context [Ascii.eqb ?a ?b] => destruct (Ascii.eqb a b) end;
    split; reflexivity.
Qed.

Lemma scan_no_pin this (s : string) :
  no_pin_letter s ->
  _keepAtBottom (fold_left scan_char (list_ascii_of_string s) this) = _keepAtBottom this
  /\ _keepAtTop (fold_left scan_char (list_ascii_of_string s) this) = _keepAtTop this.
Proof.
  unfold no_pin_letter. revert this.
  induction (list_ascii_of_string s) as [|c l IH]; intros this H; simpl; [tauto|].
  inversion H as [|? ? [HB HT] Hl]; subst.
  destruct (IH (scan_char this c) Hl) as [-> ->].
  apply scan_char_no_pin; assumption.
Qed.

Lemma list_ascii_of_string_app (a b : string) :
  list_ascii_of_string (a ++ b)
  = (list_ascii_of_string a ++ list_ascii_of_string b)%list.
Proof. induction a as [|c a IH]; simpl; [reflexivity | rewrite IH; reflexivity]. Qed.

(** What [_parseTitle] leaves in the object, by cases on the marker. *)
Lemma _parseTitle_null this :
  _parseTitle this None = (reset this, []).
Proof. reflexivity. Qed.

Lemma _parseTitle_no_marker this title :
  JS.search (special_title title) "@!" = -1 ->
  fst (_parseTitle this (Some title)) = reset this.
Proof. intros H. unfold _parseTitle. rewrite H. reflexivity. Qed.

Lemma _parseTitle_marker this title :
  JS.search (special_title title) "@!" <> -1 ->
  fst (_parseTitle this (Some title))
  = let title' := special_title title in
    let pos := JS.search title' "@!" in
    fold_left scan_char (list_ascii_of_string (extra_chars title' pos))
      (set_y (JS.parseInt (coords title' pos !! 1%nat))
         (set_x (JS.parseInt (coords title' pos !! 0%nat)) (reset this))).
Proof.
  intros H. unfold _parseTitle.
  apply Z.eqb_neq in H. rewrite H. reflexivity.
Qed.

(** The title enters [_parseTitle] through [special_title] only. *)
Lemma _parseTitle_special this (t1 t2 : string) :
  special_title t1 = special_title t2 ->
  _parseTitle this (Some t1) = _parseTitle this (Some t2).
Proof. intros H. unfold _parseTitle. rewrite H. reflexivity. Qed.

Lemma parseInt_not_null (v : option string) : JS.parseInt v <> null.
Proof.
  unfold JS.parseInt.
  repeat match goal with
         | |- context [match ?e with _ => _ end] => destruct e
         end; discriminate.
Qed.

(** With a marker in the title the position is never [null]: [parseInt]
    gives [NaN] where it reads no number. *)
Lemma marker_position_not_null this title :
  JS.search (special_title title) "@!" <> -1 ->
  _x (fst (_parseTitle this (Some title))) <> null
  /\ _y (fst (_parseTitle this (Some title))) <> null.
Proof.
  intros H. rewrite (_parseTitle_marker _ _ H). cbv zeta.
  match goal with |- context [fold_left scan_char ?l ?r] =>
    destruct (scan_frame r l) as (-> & -> & _) end.
  split; apply parseInt_not_null.
Qed.

(** C3, as amended: for every title that neither contains the marker
    ["@!"] nor ends in a space, decoding gives the empty Directive: no
    position and the five flags false. *)
Theorem decode_without_marker this title :
  ~ occurs "@!" title -> ~ ends_with " " title ->
  decode this (Some title) = empty_Directive.
Proof.
  intros Hm Hs. unfold decode.
  rewrite _parseTitle_no_marker; [reflexivity|].
  rewrite special_title_other by exact Hs.
  apply search_none, Hm.
Qed.

Lemma decode_without_marker_witness :
  ~ occurs "@!" "Desktop Icons" /\ ~ ends_with " " "Desktop Icons"
  /\ decode (fresh true []) (Some "Desktop Icons") = empty_Directive.
Proof.
  assert (H1 : ~ occurs "@!" "Desktop Icons") by (apply search_none; reflexivity).
  assert (H2 : ~ ends_with " " "Desktop Icons")
    by (intros H; apply ends_with_char in H; vm_compute in H; discriminate H).
  split; [exact H1 | split; [exact H2|]].
  apply (decode_without_marker (fresh true []) "Desktop Icons" H1 H2).
Defined.

(** C3 fails as stated: ["hello "] holds no marker, yet it decodes as
    ["@!H"], with [hideFromWindowList] set and a position that is [NaN]. *)
Lemma decode_without_marker_counterexample :
  ~ occurs "@!" "hello "
  /\ decode (fresh true []) (Some "hello ") <> empty_Directive
  /\ hideFromWindowList (decode (fresh true []) (Some "hello ")) = true.
Proof.
  split; [apply search_none; reflexivity|].
  split; [discriminate | reflexivity].
Qed.

(** C6: a title that ends in exactly one space decodes as the literal
    ["@!H"], and a title that ends in two or more spaces decodes as the
    literal ["@!HTD"]: the same Directive, and the same calls from the same
    object. *)
Theorem decode_trailing_spaces this title :
  (forall pre, title = pre ++ " " -> ~ ends_with " " pre ->
     decode this (Some title) = decode this (Some "@!H")
     /\ _parseTitle this (Some title) = _parseTitle this (Some "@!H"))
  /\ (ends_with "  " title ->
     decode this (Some title) = decode this (Some "@!HTD")
     /\ _parseTitle this (Some title) = _parseTitle this (Some "@!HTD")).
Proof.
  split.
  - intros pre -> Hpre.
    assert (H : _parseTitle this (Some (pre ++ " ")) = _parseTitle this (Some "@!H"))
      by (apply _parseTitle_special; rewrite special_title_one by exact Hpre; reflexivity).
    unfold decode. rewrite H. split; reflexivity.
  - intros [pre ->].
    assert (H : _parseTitle this (Some (pre ++ "  ")) = _parseTitle this (Some "@!HTD"))
      by (apply _parseTitle_special; rewrite special_title_two; reflexivity).
    unfold decode. rewrite H. split; reflexivity.
Qed.

Lemma decode_trailing_spaces_witness :
  ("Files " = "Files" ++ " " /\ ~ ends_with " " "Files"
   /\ decode (fresh true []) (Some "Files ") = decode (fresh true []) (Some "@!H"))
  /\ (ends_with "  " "Panel   "
      /\ decode (fresh true []) (Some "Panel   ") = decode (fresh true []) (Some "@!HTD")).
Proof.
  assert (H1 : ~ ends_with " " "Files")
    by (intros H; apply ends_with_char in H; vm_compute in H; discriminate H).
  assert (H2 : ends_with "  " "Panel   ") by (exists "Panel "; reflexivity).
  split.
  - split; [reflexivity | split; [exact H1|]].
    exact (proj1 (proj1 (decode_trailing_spaces (fresh true []) "Files ") "Files" eq_refl H1)).
  - split; [exact H2|].
    exact (proj1 (proj2 (decode_trailing_spaces (fresh true []) "Panel   ") H2)).
Defined.

(** What the two literals decode to. *)
Lemma decode_hide this :
  decode this (Some "@!H")
  = {| x := NaN; y := NaN; pinBottom := false; pinTop := false;
       showOnAllWorkspaces := false; hideFromWindowList := true;
       fixedPosition := false |}.
Proof. reflexivity. Qed.

Lemma decode_hide_top_all this :
  decode this (Some "@!HTD")
  = {| x := NaN; y := NaN; pinBottom := false; pinTop := true;
       showOnAllWorkspaces := true; hideFromWindowList := true;
       fixedPosition := false |}.
Proof. reflexivity. Qed.

Lemma _parseTitle_exclusive this (title : option string) :
  exclusive (fst (_parseTitle this title)).
Proof.
  destruct title as [title|]; [|apply reset_exclusive].
  destruct (Z.eq_dec (JS.search (special_title title) "@!") (-1)) as [H|H].
  - rewrite _parseTitle_no_marker by exact H. apply reset_exclusive.
  - rewrite _parseTitle_marker by exact H. apply scan_exclusive. reflexivity.
Qed.

(** C5: after [_parseTitle], whatever the title (or [null]) and whatever
    the object held before, [pinBottom] and [pinTop] are not both true; and
    when the flag field holds [B] or [T], the last of them decides: the one
    pin is set and the other is clear. *)
Theorem pins_exclusive this (title : option string) :
  pinBottom (decode this title) && pinTop (decode this title) = false
  /\ (forall t pre c post,
        title = Some t ->
        JS.search (special_title t) "@!" <> -1 ->
        extra_chars (special_title t) (JS.search (special_title t) "@!")
        = pre ++ String c post ->
        c = "B"%char \/ c = "T"%char ->
        no_pin_letter post ->
        pinBottom (decode this title) = Ascii.eqb c "B"
        /\ pinTop (decode this title) = Ascii.eqb c "T").
Proof.
  split; [apply _parseTitle_exclusive|].
  intros t pre c post -> Hpos Hextra Hc Hpost.
  unfold decode. rewrite _parseTitle_marker by exact Hpos. cbv zeta.
  rewrite Hextra, list_ascii_of_string_app. simpl.
  rewrite fold_left_app. simpl.
  match goal with |- context [scan_char ?r c] => generalize r end.
  intros r. destruct (scan_no_pin (scan_char r c) post Hpost) as [-> ->].
  destruct Hc as [-> | ->]; split; reflexivity.
Qed.

Lemma pins_exclusive_witness :
  JS.search (special_title "@!5,5TBH") "@!" <> -1
  /\ extra_chars (special_title "@!5,5TBH") (JS.search (special_title "@!5,5TBH") "@!")
     = "5,5T" ++ String "B" "H"
  /\ no_pin_letter "H"
  /\ pinBottom (decode (fresh true []) (Some "@!5,5TBH")) = true
  /\ pinTop (decode (fresh true []) (Some "@!5,5TBH")) = false.
Proof.
  assert (H1 : JS.search (special_title "@!5,5TBH") "@!" <> -1) by (vm_compute; discriminate).
  assert (H2 : extra_chars (special_title "@!5,5TBH") (JS.search (special_title "@!5,5TBH") "@!")
               = "5,5T" ++ String "B" "H") by reflexivity.
  assert (H3 : no_pin_letter "H")
    by (repeat constructor; discriminate).
  split; [exact H1 | split; [exact H2 | split; [exact H3|]]].
  exact (proj2 (pins_exclusive (fresh true []) (Some "@!5,5TBH"))
           "@!5,5TBH" "5,5T" "B"%char "H" eq_refl H1 H2 (or_introl eq_refl) H3).
Defined.

(** C8, as amended: ["@!10,20;BH"] decodes to the position (10, 20) with
    [pinBottom] and [hideFromWindowList] set, the letters [B] and [H] of
    its flag field, and the other three flags clear. *)
Theorem decode_example this :
  decode this (Some "@!10,20;BH")
  = {| x := Num 10; y := Num 20; pinBottom := true; pinTop := false;
       showOnAllWorkspaces := false; hideFromWindowList := true;
       fixedPosition := false |}.
Proof. reflexivity. Qed.

(** C8 fails as stated: [hideFromWindowList] is not left at its default. *)
Lemma decode_example_counterexample :
  decode (fresh true []) (Some "@!10,20;BH")
  <> {| x := Num 10; y := Num 20; pinBottom := true; pinTop := false;
        showOnAllWorkspaces := false; hideFromWindowList := false;
        fixedPosition := false |}.
Proof. discriminate. Qed.

(** C1, at the title ["@!F"]: no integer can be read, [_x] and [_y] are
    [NaN] and not [null], the flag [F] is decoded, and the window is moved
    to (NaN, NaN), by [_parseTitle] and again on each position change. *)
Theorem parse_failure_moves_window this :
  let after := fst (_parseTitle this (Some "@!F")) in
  coords "@!F" 0 = ["F"]
  /\ _x after = NaN /\ _y after = NaN
  /\ _fixed after = true
  /\ In (MoveFrame false NaN NaN) (snd (_parseTitle this (Some "@!F")))
  /\ on_position_changed after = [MoveFrame false NaN NaN].
Proof.
  cbv zeta. repeat split; try reflexivity.
  unfold _parseTitle. simpl.
  repeat match goal with
         | |- context [if ?b then _ else _] => destruct b
         end; simpl; tauto.
Qed.

(** C7, at the title [";@!1,2"]: the marker is at index 1 and the field
    after it, up to the end, is ["1,2"]; the code finds the semicolon at
    index 0, takes the characters from there to the end of the marker, and
    reads no number. *)
Theorem coords_field_semicolon_before_marker this :
  JS.search ";@!1,2" "@!" = 1
  /\ coordinate_field_spec ";@!1,2" 1 = "1,2"
  /\ coords_field ";@!1,2" 1 = ";@!"
  /\ x (decode this (Some ";@!1,2")) = NaN
  /\ y (decode this (Some ";@!1,2")) = NaN.
Proof. repeat split; reflexivity. Qed.

End ParseTitle.

(** ** The coordinate field *)

Section CoordinateField.

Import ManageWindow.

Lemma search_from_shift (pat s : string) (i : Z) :
  JS.search_from pat s i
  = if JS.search_from pat s 0 =? -1 then -1 else i + JS.search_from pat s 0.
Proof.
  revert i. induction s as [|c s IH]; intros i;
    rewrite (search_from_eq pat _ i), (search_from_eq pat _ 0);
    destruct (String.prefix pat _); try reflexivity; try (simpl; lia).
  rewrite (IH (i + 1)), (IH (0 + 1)).
  destruct (JS.search_from pat s 0 =? -1) eqn:E; [reflexivity|].
  apply Z.eqb_neq in E. destruct (search_from_range pat s 0) as [H|H]; [lia|].
  replace (0 + 1 + JS.search_from pat s 0 =? -1) with false
    by (symmetry; apply Z.eqb_neq; lia).
  lia.
Qed.

Lemma search_from_bound (pat s : string) (i : Z) :
  JS.search_from pat s i = -1
  \/ JS.search_from pat s i <= i + Z.of_nat (String.length s).
Proof.
  revert i. induction s as [|c s IH]; intros i; rewrite search_from_eq;
    destruct (String.prefix pat _); simpl String.length; try lia.
  destruct (IH (i + 1)); lia.
Qed.

(** Where [search] finds the pattern, the string splits there. *)
Lemma search_from_found (pat s : string) (i : Z) :
  JS.search_from pat s i <> -1 ->
  exists pre post,
    s = pre ++ pat ++ post
    /\ JS.search_from pat s i = i + Z.of_nat (String.length pre).
Proof.
  revert i. induction s as [|c s IH]; intros i; rewrite search_from_eq;
    destruct (String.prefix pat _) eqn:E; intros H.
  - apply prefix_app in E as [post E]. exists "", post. split; [exact E | simpl; lia].
  - contradiction.
  - apply prefix_app in E as [post E]. exists "", post. split; [exact E | simpl; lia].
  - destruct (IH (i + 1) H) as (pre & post & -> & Hk).
    exists (String c pre), post. split; [reflexivity|]. rewrite Hk. simpl String.length. lia.
Qed.

Lemma prefix_char (c d : ascii) (s : string) :
  String.prefix (String c "") (String d s) = if ascii_dec c d then true else false.
Proof. simpl. destruct (ascii_dec c d); [destruct s|]; reflexivity. Qed.

(** A search for one character skips a prefix that does not hold it. *)
Lemma search_char_skip (c : ascii) (pre rest : string) (i : Z) :
  free_of c pre ->
  JS.search_from (String c "") (pre ++ rest) i
  = JS.search_from (String c "") rest (i + Z.of_nat (String.length pre)).
Proof.
  unfold free_of. revert i. induction pre as [|d pre IH]; intros i H.
  - simpl. f_equal. lia.
  - simpl in H. inversion H as [|? ? Hd Hpre]; subst.
    simpl append. rewrite search_from_eq, prefix_char.
    destruct (ascii_dec c d) as [->|_]; [contradiction|].
    rewrite (IH (i + 1) Hpre). simpl String.length. f_equal. lia.
Qed.

(** If the first occurrence is not inside [pre], [pre] does not hold
    the character. *)
Lemma search_char_after (c : ascii) (pre rest : string) :
  JS.search (pre ++ rest) (String c "") = -1
  \/ Z.of_nat (String.length pre) <= JS.search (pre ++ rest) (String c "") ->
  free_of c pre.
Proof.
  unfold free_of, JS.search. induction pre as [|d pre IH]; intros H; [constructor|].
  simpl append in H. rewrite search_from_eq, prefix_char in H.
  simpl String.length in H.
  destruct (ascii_dec c d) as [->|Hne]; [exfalso; lia|].
  rewrite search_from_shift in H.
  simpl. constructor; [congruence|]. apply IH.
  destruct (JS.search_from (String c "") (pre ++ rest) 0 =? -1) eqn:E.
  - left. apply Z.eqb_eq, E.
  - apply Z.eqb_neq in E.
    destruct (search_from_range (String c "") (pre ++ rest) 0); lia.
Qed.

Lemma substring_skip (a b : string) (n m : nat) :
  String.substring (String.length a + n) m (a ++ b) = String.substring n m b.
Proof. induction a as [|c a IH]; simpl; [reflexivity | exact IH]. Qed.

Lemma substring_all (s : string) : String.substring 0 (String.length s) s = s.
Proof. induction s as [|c s IH]; simpl; [reflexivity | rewrite IH; reflexivity]. Qed.

Lemma JS_substring_to (s : string) (start e : Z) :
  0 <= start <= e -> e <= JS.length s ->
  JS.substring s start (Some e)
  = String.substring (Z.to_nat start) (Z.to_nat (e - start)) s.
Proof. unfold JS.substring, JS.length. intros H1 H2. f_equal; lia. Qed.

Lemma JS_substring_from (s : string) (start : Z) :
  0 <= start <= JS.length s ->
  JS.substring s start None
  = String.substring (Z.to_nat start) (Z.to_nat (JS.length s - start)) s.
Proof. unfold JS.substring, JS.length. intros H. f_equal; lia. Qed.

Lemma substring_from (a b : string) :
  JS.substring (a ++ b) (JS.length a) None = b.
Proof.
  rewrite JS_substring_from by (unfold JS.length; rewrite length_app; lia).
  unfold JS.length. rewrite length_app.
  replace (Z.to_nat (Z.of_nat (String.length a))) with (String.length a + 0)%nat by lia.
  replace (Z.to_nat _) with (String.length b) by lia.
  rewrite substring_skip. apply substring_all.
Qed.

(** X4: where the marker is found and no semicolon comes before it, the
    coordinate field the code reads is the text from just after the marker
    up to the next semicolon, or to the end of the title, trimmed. *)
Lemma coords_field_agrees_with_spec (title : string) :
  JS.search title "@!" <> -1 ->
  (JS.search title ";" = -1 \/ JS.search title "@!" <= JS.search title ";") ->
  coords_field title (JS.search title "@!")
  = JS.trim (coordinate_field_spec title (JS.search title "@!")).
Proof.
  intros Hm Hs. unfold JS.search in Hm.
  destruct (search_from_found _ _ _ Hm) as (pre & post & -> & Hpos).
  unfold JS.search in *. rewrite Hpos in *. clear Hm Hpos.
  assert (Hfree : free_of ";" pre)
    by (apply (search_char_after ";" pre ("@!" ++ post)); unfold JS.search; lia).
  assert (Hk : JS.search_from ";" (pre ++ "@!" ++ post) 0
               = JS.search_from ";" post (Z.of_nat (String.length pre) + 2)).
  { rewrite (search_char_skip _ _ _ _ Hfree). simpl append.
    rewrite search_from_eq, prefix_char.
    destruct (ascii_dec ";" "@") as [?|_]; [discriminate|].
    rewrite search_from_eq, prefix_char.
    destruct (ascii_dec ";" "!") as [?|_]; [discriminate|].
    f_equal. lia. }
  assert (Hrest : JS.substring (pre ++ "@!" ++ post) (0 + Z.of_nat (String.length pre) + 2) None
                  = post).
  { rewrite <- append_assoc.
    replace (0 + Z.of_nat (String.length pre) + 2) with (JS.length (pre ++ "@!"))
      by (unfold JS.length; rewrite length_app; simpl; lia).
    apply substring_from. }
  unfold coords_field, coordinate_field_spec, JS.search.
  rewrite Hrest, Hk, search_from_shift.
  destruct (JS.search_from ";" post 0 =? -1) eqn:E; [reflexivity|].
  apply Z.eqb_neq in E.
  destruct (search_from_range ";" post 0) as [H0|H0]; [contradiction|].
  destruct (search_from_bound ";" post 0) as [H1|H1]; [contradiction|].
  replace (negb (_ =? -1)) with true by (symmetry; apply negb_true_iff, Z.eqb_neq; lia).
  f_equal. set (j := JS.search_from ";" post 0) in *.
  assert (Hlen : JS.length (pre ++ "@!" ++ post)
                 = Z.of_nat (String.length pre) + 2 + JS.length post)
    by (unfold JS.length; rewrite !length_app; simpl String.length; lia).
  unfold JS.length in Hlen.
  rewrite !JS_substring_to by (unfold JS.length; lia).
  rewrite <- append_assoc.
  replace (Z.to_nat (0 + Z.of_nat (String.length pre) + 2))
    with (String.length (pre ++ "@!") + 0)%nat by (rewrite length_app; simpl; lia).
  rewrite substring_skip. f_equal; lia.
Qed.

Lemma coords_field_agrees_with_spec_witness :
  JS.search "Files @!10,20;B" "@!" <> -1
  /\ (JS.search "Files @!10,20;B" ";" = -1
      \/ JS.search "Files @!10,20;B" "@!" <= JS.search "Files @!10,20;B" ";")
  /\ coords_field "Files @!10,20;B" (JS.search "Files @!10,20;B" "@!") = "10,20".
Proof.
  assert (H1 : JS.search "Files @!10,20;B" "@!" <> -1) by (vm_compute; discriminate).
  assert (H2 : JS.search "Files @!10,20;B" ";" = -1
               \/ JS.search "Files @!10,20;B" "@!" <= JS.search "Files @!10,20;B" ";")
    by (right; vm_compute; discriminate).
  split; [exact H1 | split; [exact H2|]].
  rewrite (coords_field_agrees_with_spec "Files @!10,20;B" H1 H2). reflexivity.
Defined.

End CoordinateField.

(** ** The monad and the environment *)

Section Monad.

Lemma bind_Some {A B : Type} (m : M A) (k : A -> M B) (st st' : State) (a : A) :
  m st = Some (a, st') -> bind m k st = k a st'.
Proof. intros H. unfold bind. rewrite H. reflexivity. Qed.

Lemma for_of_cons {A : Type} (x : A) (l : list A) (body : A -> M unit) :
  for_of (x :: l) body = (body x ;; for_of l body).
Proof. reflexivity. Qed.

Lemma add_log_nil (st : State) : add_log [] st = st.
Proof.
  destruct st as [o e]. destruct e. unfold add_log, upd_env, with_log. simpl.
  rewrite app_nil_r. reflexivity.
Qed.

Lemma add_log_app (cs1 cs2 : list call) (st : State) :
  add_log cs2 (add_log cs1 st) = add_log (cs1 ++ cs2) st.
Proof.
  destruct st as [o e]. destruct e. unfold add_log, upd_env, with_log. simpl.
  rewrite app_assoc. reflexivity.
Qed.

Lemma new_calls_add_log (cs : list call) (st : State) (f : t -> t) :
  new_calls st (upd_this f (add_log cs st)) = cs.
Proof.
  unfold new_calls. simpl. rewrite drop_app_length. reflexivity.
Qed.

End Monad.

(** ** One refresh pass *)

Section RefreshPass.

Implicit Types (st : State) (w : positive) (h : gmap positive MetaWindow).

Lemma perform_plain (cb : M unit) w (calls : list ManageWindow.wcall) st :
  forallb plain calls = true ->
  for_of calls (perform cb w) st = Some (tt, add_log (map (OnWindow w) calls) st).
Proof.
  revert st. induction calls as [|c calls IH]; intros st H; simpl.
  - rewrite add_log_nil. reflexivity.
  - apply andb_true_iff in H as [Hc H].
    assert (E : perform cb w c st = Some (tt, add_log [OnWindow w c] st))
      by (destruct c; try discriminate; reflexivity).
    rewrite (bind_Some _ _ _ _ _ E), (IH _ H), add_log_app. reflexivity.
Qed.

Lemma refreshState_plain (ding : ManageWindow.t) (cw located : bool) :
  forallb plain (ManageWindow.refreshState ding cw located) = true.
Proof.
  unfold ManageWindow.refreshState.
  repeat match goal with
         | |- context [if ?b then _ else _] => destruct b
         end; reflexivity.
Qed.

Lemma window_eq w st (win : MetaWindow) :
  windows (env st) !! w = Some win -> window w st = Some (win, st).
Proof. intros H. unfold window. rewrite H. reflexivity. Qed.

(** The first loop: [refreshState] on each window of the list. *)
Lemma refresh_loop (cw : bool) (l : list positive) st :
  Forall (has_record st) l ->
  for_of l (fun w =>
    do win <- window w;
    match customJS_ding win with
    | None => throw
    | Some ding =>
        for_of (ManageWindow.refreshState ding cw (located_on_workspace win))
               (perform (ret tt) w)
    end) st
  = Some (tt, add_log
            (flat_map
               (fun w =>
                  match windows (env st) !! w with
                  | Some win =>
                      match customJS_ding win with
                      | Some ding =>
                          map (OnWindow w)
                            (ManageWindow.refreshState ding cw (located_on_workspace win))
                      | None => []
                      end
                  | None => []
                  end) l) st).
Proof.
  revert st. induction l as [|w l IH]; intros st H.
  - simpl. rewrite add_log_nil. reflexivity.
  - inversion H as [|? ? (win & ding & Hw & Hd) Hl]; subst.
    rewrite for_of_cons. erewrite bind_Some.
    2: { erewrite bind_Some by (apply window_eq; exact Hw).
         rewrite Hd. apply perform_plain, refreshState_plain. }
    rewrite IH by exact Hl. rewrite add_log_app. simpl. rewrite Hw, Hd. reflexivity.
Qed.

(** The loop over the tab list activates the first window that passes
    its test and stops. *)
Lemma activate_top_eq (l : list positive) st :
  Forall (fun w => is_Some (windows (env st) !! w)) l ->
  activate_top l st
  = Some (match find (eligible_b (windows (env st))) l with
          | Some _ => true
          | None => false
          end,
          match find (eligible_b (windows (env st))) l with
          | Some w => add_log [ActivateWindow w] st
          | None => st
          end).
Proof.
  induction l as [|w l IH]; intros H; [reflexivity|].
  inversion H as [|? ? [win Hw] Hl]; subst.
  cbn [activate_top find]. erewrite bind_Some by (apply window_eq; exact Hw).
  assert (E : eligible_b (windows (env st)) w
              = (negb (bool_decide (is_Some (customJS_ding win)))
                 || negb (from_option ManageWindow._keepAtBottom false (customJS_ding win)))
                && negb (minimized win))
    by (unfold eligible_b; rewrite Hw; reflexivity).
  rewrite E. destruct (_ && _); [reflexivity | apply IH, Hl].
Qed.

Lemma activate_pinned_eq (l : list positive) st :
  Forall (fun w => is_Some (windows (env st) !! w)) l ->
  activate_pinned l st
  = Some (tt, match find (pinned_visible_b (windows (env st))) l with
              | Some w => add_log [ActivateWindow w] st
              | None => st
              end).
Proof.
  induction l as [|w l IH]; intros H; [reflexivity|].
  inversion H as [|? ? [win Hw] Hl]; subst.
  cbn [activate_pinned find]. erewrite bind_Some by (apply window_eq; exact Hw).
  assert (E : pinned_visible_b (windows (env st)) w
              = bool_decide (is_Some (customJS_ding win))
                && from_option ManageWindow._keepAtBottom false (customJS_ding win)
                && negb (minimized win))
    by (unfold pinned_visible_b; rewrite Hw; reflexivity).
  rewrite E. destruct (_ && _); [reflexivity | apply IH, Hl].
Qed.

Lemma has_record_is_Some st (l : list positive) :
  Forall (has_record st) l ->
  Forall (fun w => is_Some (windows (env st) !! w)) l.
Proof.
  intros H. eapply Forall_impl; [exact H|].
  intros w (win & ding & Hw & _). exists win. exact Hw.
Qed.

(** A refresh pass never throws on a registry whose windows have their
    records; it logs [pass_calls] and clears the handle. *)
Lemma refresh_pass_eq (cw : bool) st :
  Forall (has_record st) (_windowList (this st)) -> tab_list_ok st ->
  refresh_pass cw st
  = Some (tt, upd_this (assign_activate_window_ID None) (add_log (pass_calls st cw) st)).
Proof.
  intros Hreg Htab. unfold refresh_pass, pass_calls.
  unfold bind at 1, gets at 1.
  destruct (_enableRefresh (this st)) eqn:Hen; unfold when at 1.
  2: { unfold bind, ret, modify. rewrite add_log_nil. reflexivity. }
  erewrite bind_Some; [reflexivity|].
  unfold bind at 1, gets at 1.
  erewrite bind_Some by (apply refresh_loop; exact Hreg).
  fold (refresh_calls st cw).
  destruct cw; unfold when at 1.
  2: { unfold ret. rewrite app_nil_r. reflexivity. }
  unfold bind at 1, gets at 1. cbn [env add_log upd_env get_tab_list with_log].
  erewrite bind_Some by (apply activate_top_eq; exact Htab).
  unfold activation_calls. cbn [env add_log upd_env windows with_log].
  destruct (find (eligible_b _) _) as [w|]; unfold when; cbn [negb].
  - unfold ret. rewrite add_log_app. reflexivity.
  - unfold bind at 1, gets at 1. cbn [this add_log upd_env].
    rewrite activate_pinned_eq by (apply has_record_is_Some; exact Hreg).
    cbn [env add_log upd_env windows with_log].
    destruct (find (pinned_visible_b _) _) as [w|].
    + rewrite add_log_app. reflexivity.
    + rewrite app_nil_r. reflexivity.
Qed.

Lemma find_first {A : Type} (f : A -> bool) (pre post : list A) (a : A) :
  Forall (fun v => f v = false) pre -> f a = true ->
  find f (pre ++ a :: post) = Some a.
Proof.
  intros Hpre Ha. induction Hpre as [|v pre Hv _ IH]; simpl.
  - rewrite Ha. reflexivity.
  - rewrite Hv. exact IH.
Qed.

Lemma find_nowhere {A : Type} (f : A -> bool) (l : list A) :
  Forall (fun v => f v = false) l -> find f l = None.
Proof.
  intros H. induction H as [|v l Hv _ IH]; simpl; [reflexivity|].
  rewrite Hv. exact IH.
Qed.

Lemma skipped_not_eligible st w :
  skipped st w -> eligible_b (windows (env st)) w = false.
Proof.
  intros (win & Hw & H). unfold eligible_b. rewrite Hw.
  destruct H as [Hm | (ding & Hd & Hb)].
  - rewrite Hm. apply andb_false_r.
  - rewrite Hd. simpl. rewrite Hb. reflexivity.
Qed.

Lemma eligible_eligible_b st w :
  eligible st w -> eligible_b (windows (env st)) w = true.
Proof.
  intros (win & Hw & Hm & H). unfold eligible_b. rewrite Hw, Hm.
  destruct (customJS_ding win) as [ding|]; [|reflexivity].
  simpl. rewrite (H ding eq_refl). reflexivity.
Qed.

Lemma pinned_visible_iff st w :
  pinned_visible st w <-> pinned_visible_b (windows (env st)) w = true.
Proof.
  unfold pinned_visible, pinned_visible_b. split.
  - intros (win & ding & Hw & Hd & Hb & Hm). rewrite Hw, Hd, Hm. simpl.
    rewrite Hb. reflexivity.
  - destruct (windows (env st) !! w) as [win|]; [|discriminate].
    destruct (customJS_ding win) as [ding|] eqn:Hd; [|discriminate].
    simpl. intros H. apply andb_true_iff in H as [Hb Hm].
    exists win, ding. repeat split; try assumption.
    destruct (minimized win); [discriminate | reflexivity].
Qed.

Lemma not_pinned_visible st (l : list positive) :
  Forall (fun v => ~ pinned_visible st v) l ->
  Forall (fun v => pinned_visible_b (windows (env st)) v = false) l.
Proof.
  intros H. eapply Forall_impl; [exact H|]. intros v Hv.
  destruct (pinned_visible_b (windows (env st)) v) eqn:E; [|reflexivity].
  exfalso. apply Hv, pinned_visible_iff, E.
Qed.

Lemma skipped_all st (l : list positive) :
  Forall (skipped st) l ->
  Forall (fun v => eligible_b (windows (env st)) v = false) l.
Proof.
  intros H. eapply Forall_impl; [exact H|]. intros v. apply skipped_not_eligible.
Qed.

Lemma activations_app (cs1 cs2 : list call) :
  activations (cs1 ++ cs2) = (activations cs1 ++ activations cs2)%list.
Proof. apply omap_app. Qed.

Lemma activations_refresh_calls st (cw : bool) :
  activations (refresh_calls st cw) = [].
Proof.
  unfold refresh_calls. induction (_windowList (this st)) as [|w l IH]; [reflexivity|].
  simpl. rewrite activations_app, IH, app_nil_r.
  destruct (windows (env st) !! w) as [win|]; [|reflexivity].
  destruct (customJS_ding win) as [ding|]; [|reflexivity].
  induction (ManageWindow.refreshState _ _ _) as [|c cs IHc]; [reflexivity | exact IHc].
Qed.

(** C4: a refresh pass that checks the workspace, with refresh enabled,
    does not throw and activates at most one window: the first window of
    the tab list that is neither minimized nor bottom-pinned; when the tab
    list has none, the first window of [_windowList] that is bottom-pinned
    and not minimized; and no window when there is none of either. *)
Theorem activation_arbitration st :
  _enableRefresh (this st) = true ->
  Forall (has_record st) (_windowList (this st)) ->
  tab_list_ok st ->
  exists st',
    refresh_pass true st = Some (tt, st')
    /\ (forall pre w post,
          get_tab_list (env st) = (pre ++ w :: post)%list ->
          Forall (skipped st) pre -> eligible st w ->
          activations (new_calls st st') = [w])
    /\ (Forall (skipped st) (get_tab_list (env st)) ->
        forall pre w post,
          _windowList (this st) = (pre ++ w :: post)%list ->
          Forall (fun v => ~ pinned_visible st v) pre -> pinned_visible st w ->
          activations (new_calls st st') = [w])
    /\ (Forall (skipped st) (get_tab_list (env st)) ->
        Forall (fun v => ~ pinned_visible st v) (_windowList (this st)) ->
        activations (new_calls st st') = []).
Proof.
  intros Hen Hreg Htab. eexists. split; [apply refresh_pass_eq; assumption|].
  rewrite new_calls_add_log. unfold pass_calls. rewrite Hen.
  rewrite activations_app, activations_refresh_calls. cbn [app].
  unfold activation_calls. repeat split.
  - intros pre w post Hl Hpre Hw. rewrite Hl.
    rewrite (find_first _ pre post w (skipped_all _ _ Hpre) (eligible_eligible_b _ _ Hw)).
    reflexivity.
  - intros Htl pre w post Hl Hpre Hw.
    rewrite (find_nowhere _ _ (skipped_all _ _ Htl)), Hl.
    rewrite (find_first _ pre post w (not_pinned_visible _ _ Hpre)
               (proj1 (pinned_visible_iff _ _) Hw)).
    reflexivity.
  - intros Htl Hwl.
    rewrite (find_nowhere _ _ (skipped_all _ _ Htl)).
    rewrite (find_nowhere _ _ (not_pinned_visible _ _ Hwl)).
    reflexivity.
Qed.

Lemma activation_arbitration_witness :
  _enableRefresh (this scenario) = true
  /\ Forall (has_record scenario) (_windowList (this scenario))
  /\ tab_list_ok scenario
  /\ exists st',
       refresh_pass true scenario = Some (tt, st')
       /\ activations (new_calls scenario st') = [2%positive].
Proof.
  assert (H1 : Forall (has_record scenario) (_windowList (this scenario))).
  { repeat constructor. eexists _, _. split; reflexivity. }
  assert (H2 : tab_list_ok scenario).
  { repeat constructor; eexists; reflexivity. }
  split; [reflexivity | split; [exact H1 | split; [exact H2|]]].
  destruct (activation_arbitration scenario eq_refl H1 H2) as (st' & Hrun & Htop & _).
  exists st'. split; [exact Hrun|].
  apply (Htop [1%positive] 2%positive [3%positive]); [reflexivity | |].
  - repeat constructor. eexists. split; [reflexivity|].
    right. eexists. split; reflexivity.
  - eexists. split; [reflexivity|]. split; [reflexivity | discriminate].
Defined.

End RefreshPass.

(** ** The coalesced refresh *)

Section Coalescing.

Implicit Types (st : State) (cw : bool).

Lemma _refreshWindows_pending cw st (id : positive) :
  _activate_window_ID (this st) = Some id ->
  _refreshWindows cw st = Some (tt, st).
Proof.
  intros H. unfold _refreshWindows, bind, gets. rewrite H. reflexivity.
Qed.

Lemma _refreshWindows_free cw st :
  _activate_window_ID (this st) = None ->
  _refreshWindows cw st = Some (tt, scheduled cw st).
Proof.
  intros H. unfold _refreshWindows, bind, gets. rewrite H. reflexivity.
Qed.


Lemma without_single {A : Type} (id : positive) (a : A) :
  without id [(id, a)] = [].
Proof.
  unfold without. rewrite filter_cons. simpl.
  destruct (decide (id ≠ id)) as [H|_]; [contradiction | reflexivity].
Qed.

(** The main loop with one source queued runs its closure once and
    destroys the source. *)
Lemma idle_single st st' (id : positive) (priority : Z) cw :
  sources (env st) = [(id, (priority, cw))] ->
  refresh_pass cw st = Some (tt, st') ->
  sources (env st') = sources (env st) ->
  idle st = Some ([cw], upd_env (with_sources []) st').
Proof.
  intros Hs Hpass Hs'. unfold idle, bind at 1, gets at 1. rewrite Hs.
  cbn [dispatch]. unfold bind at 1, gets at 1. rewrite Hs.
  rewrite bool_decide_eq_true_2 by (simpl; left).
  rewrite (bind_Some _ _ _ _ _ Hpass).
  unfold bind, modify, ret, upd_env. rewrite Hs', Hs, without_single. reflexivity.
Qed.




(** C2, at a ["map"] followed by a ["destroy"] in one turn of the event
    loop, in the scenario with [enable] done and nothing pending: window
    2, not of the client, is mapped and window 3 is closed.  The ["map"]
    queues the one source, with [checkWorkspace] [false]; the
    [_refreshWindows(true)] of the ["destroy"] finds the handle set and
    changes nothing; the one pass runs without the workspace check and
    activates no window.  The ["destroy"] alone queues a pass that checks
    the workspace and activates window 2. *)
Theorem destroy_request_lost :
  exists st1 st2 st3 st4,
    nothing_pending scenario_enabled
    /\ deliver (MapEvent 2%positive) scenario_enabled = Some (tt, st1)
    /\ sources (env st1) = [(6%positive, (PRIORITY_LOW, false))]
    /\ deliver (DestroyEvent (Some 3%positive)) st1 = Some (tt, st2)
    /\ sources (env st2) = [(6%positive, (PRIORITY_LOW, false))]
    /\ idle st2 = Some ([false], st3)
    /\ activations (new_calls st2 st3) = []
    /\ nothing_pending st3
    /\ (deliver (DestroyEvent (Some 3%positive)) ;; idle) scenario_enabled
       = Some ([true], st4)
    /\ activations (new_calls scenario_enabled st4) = [2%positive].
Proof.
  eexists _, _, _, _.
  split; [split; reflexivity|].
  split; [vm_compute; reflexivity|]. split; [reflexivity|].
  split; [vm_compute; reflexivity|]. split; [reflexivity|].
  split; [vm_compute; reflexivity|]. split; [reflexivity|].
  split; [split; reflexivity|].
  split; [vm_compute; reflexivity | reflexivity].
Qed.




End Coalescing.

(** ** [disable] and [enable] *)

Section Disable.

Implicit Types (st : State) (w : positive) (win : MetaWindow)
  (h : gmap positive MetaWindow).

Lemma with_heap_log_id st : with_heap_log (windows (env st)) [] st = st.
Proof.
  destruct st as [o e]. destruct e.
  unfold with_heap_log, add_log, upd_env, with_log, with_windows. simpl.
  rewrite app_nil_r. reflexivity.
Qed.

Lemma with_heap_log_twice h h' (cs cs' : list call) st :
  with_heap_log h' cs' (with_heap_log h cs st) = with_heap_log h' (cs ++ cs') st.
Proof.
  destruct st as [o e]. destruct e.
  unfold with_heap_log, add_log, upd_env, with_log, with_windows. simpl.
  rewrite app_assoc. reflexivity.
Qed.

Lemma add_log_with_heap_log h (cs cs' : list call) st :
  add_log cs' (with_heap_log h cs st) = with_heap_log h (cs ++ cs') st.
Proof. unfold with_heap_log. apply add_log_app. Qed.

Lemma update_window_eq w (f : MetaWindow -> MetaWindow) st win :
  windows (env st) !! w = Some win ->
  update_window w f st
  = Some (tt, upd_env (with_windows (<[w := f win]> (windows (env st)))) st).
Proof.
  intros H. unfold update_window. rewrite (bind_Some _ _ _ _ _ (window_eq _ _ _ H)).
  reflexivity.
Qed.

Lemma window_disconnect_eq w (id : positive) st win :
  windows (env st) !! w = Some win ->
  window_disconnect w id st
  = Some (tt, with_heap_log
                (<[w := with_handlers (without id (handlers win)) win]> (windows (env st)))
                [OnWindow w (ManageWindow.Disconnect id)] st).
Proof.
  intros H. unfold window_disconnect.
  rewrite (bind_Some _ _ _ _ _ (update_window_eq _ _ _ _ H)). reflexivity.
Qed.

(** Disconnecting the signal ids of a record, one after the other. *)
Lemma disconnect_ids (cb : M unit) w (ids : list positive) st win :
  windows (env st) !! w = Some win ->
  for_of (map ManageWindow.Disconnect ids) (perform cb w) st
  = Some (tt, with_heap_log
                (<[w := with_handlers
                          (fold_left (fun hs i => without i hs) ids (handlers win)) win]>
                   (windows (env st)))
                (map (fun i => OnWindow w (ManageWindow.Disconnect i)) ids) st).
Proof.
  revert st win. induction ids as [|i ids IH]; intros st win H.
  - simpl. replace (with_handlers (handlers win) win) with win by (destruct win; reflexivity).
    rewrite insert_id by exact H. rewrite with_heap_log_id. reflexivity.
  - cbn [map fold_left]. rewrite for_of_cons.
    erewrite bind_Some by (apply (window_disconnect_eq _ _ _ _ H)).
    erewrite IH by (apply lookup_insert_eq).
    rewrite with_heap_log_twice. cbn [with_heap_log add_log upd_env env windows with_windows with_log].
    rewrite insert_insert_eq. reflexivity.
Qed.

Lemma for_of_app {A : Type} (l1 l2 : list A) (body : A -> M unit) st st' :
  for_of l1 body st = Some (tt, st') ->
  for_of (l1 ++ l2) body st = for_of l2 body st'.
Proof.
  revert st. induction l1 as [|a l1 IH]; intros st H.
  - injection H as ->. reflexivity.
  - rewrite <- app_comm_cons, for_of_cons. rewrite for_of_cons in H.
    unfold bind in *. destruct (body a st) as [[[] st1]|]; [|discriminate].
    apply IH, H.
Qed.

Lemma _clearWindow_eq w st win ding (id : positive) :
  windows (env st) !! w = Some win ->
  customJS_ding win = Some ding ->
  ManageWindow.unmanagedID ding = Some id ->
  _clearWindow w st
  = Some (tt, with_heap_log (<[w := torn_down win ding id]> (windows (env st)))
                (teardown_calls (windows (env st)) w) st).
Proof.
  intros Hw Hd Hid. unfold _clearWindow, teardown_calls.
  rewrite (bind_Some _ _ _ _ _ (window_eq _ _ _ Hw)). rewrite Hw, Hd, Hid.
  erewrite bind_Some by (apply (window_disconnect_eq _ _ _ _ Hw)).
  unfold ManageWindow.disconnect.
  erewrite bind_Some.
  2: { erewrite for_of_app by (apply disconnect_ids, lookup_insert_eq).
       apply perform_plain. destruct (JS.truthy _); reflexivity. }
  rewrite with_heap_log_twice, add_log_with_heap_log.
  erewrite update_window_eq by (apply lookup_insert_eq).
  cbn [with_heap_log add_log upd_env env windows with_windows with_log handlers with_handlers].
  rewrite !insert_insert_eq. unfold torn_down.
  rewrite map_app, map_map. reflexivity.
Qed.

Lemma teardown_calls_lookup h h' w :
  h' !! w = h !! w -> teardown_calls h' w = teardown_calls h w.
Proof. intros H. unfold teardown_calls. rewrite H. reflexivity. Qed.

Lemma flat_map_agree {A B : Type} (f g : A -> list B) (l : list A) :
  (forall a, a ∈ l -> f a = g a) -> flat_map f l = flat_map g l.
Proof.
  induction l as [|a l IH]; intros H; [reflexivity|]. simpl.
  rewrite (H a) by left. rewrite IH; [reflexivity|].
  intros b Hb. apply H. right. exact Hb.
Qed.

(** The loop of [disable] over [_windowList]: every record is torn
    down, the other windows are left as they are. *)
Lemma clear_loop (l : list positive) st :
  NoDup l -> Forall (managed st) l ->
  exists h',
    for_of l _clearWindow st
    = Some (tt, with_heap_log h' (flat_map (teardown_calls (windows (env st))) l) st)
    /\ (forall w, w ∈ l ->
          exists win ding id,
            windows (env st) !! w = Some win
            /\ customJS_ding win = Some ding
            /\ ManageWindow.unmanagedID ding = Some id
            /\ h' !! w = Some (torn_down win ding id))
    /\ (forall w, w ∉ l -> h' !! w = windows (env st) !! w).
Proof.
  revert st. induction l as [|w l IH]; intros st Hnd Hm.
  - exists (windows (env st)). split; [|split].
    + simpl. rewrite with_heap_log_id. reflexivity.
    + intros w Hw. inversion Hw.
    + reflexivity.
  - apply NoDup_cons in Hnd as [Hw Hnd].
    apply Forall_cons in Hm as [(win & ding & id & Hwin & Hd & Hid) Hm].
    pose proof (_clearWindow_eq w st win ding id Hwin Hd Hid) as Hc.
    set (h1 := <[w := torn_down win ding id]> (windows (env st))) in *.
    set (st1 := with_heap_log h1 (teardown_calls (windows (env st)) w) st) in *.
    assert (Hh1 : forall v, v ≠ w -> h1 !! v = windows (env st) !! v)
      by (intros v Hv; apply lookup_insert_ne; congruence).
    assert (Hm1 : Forall (managed st1) l).
    { apply Forall_forall. intros v Hv.
      rewrite Forall_forall in Hm. destruct (Hm v Hv) as (win' & ding' & id' & H1 & H2).
      exists win', ding', id'. split; [|exact H2].
      change (h1 !! v = Some win'). rewrite Hh1; [exact H1|].
      intros ->. exact (Hw Hv). }
    destruct (IH st1 Hnd Hm1) as (h' & Hrun & Hin & Hout).
    exists h'. split; [|split].
    + rewrite for_of_cons, (bind_Some _ _ _ _ _ Hc), Hrun.
      unfold st1. rewrite with_heap_log_twice. simpl. do 4 f_equal.
      apply flat_map_agree. intros v Hv. apply teardown_calls_lookup, Hh1.
      intros ->. exact (Hw Hv).
    + intros v Hv. apply elem_of_cons in Hv as [-> | Hv].
      * exists win, ding, id. repeat split; try assumption.
        rewrite (Hout w Hw). apply lookup_insert_eq.
      * destruct (Hin v Hv) as (win' & ding' & id' & H1 & H2 & H3 & H4).
        exists win', ding', id'. repeat split; try assumption.
        rewrite <- (Hh1 v); [exact H1|]. intros ->. exact (Hw Hv).
    + intros v Hv. apply not_elem_of_cons in Hv as [Hne Hv].
      rewrite (Hout v Hv). apply Hh1, Hne.
Qed.

Lemma cancel_eq st :
  release _activate_window_ID source_remove assign_activate_window_ID st
  = Some (tt, cancelled st).
Proof.
  unfold release, cancelled, bind, gets.
  destruct (_activate_window_ID (this st)); reflexivity.
Qed.

Lemma unsubscribe_eq st :
  (release _idMap wm_disconnect assign_idMap ;;
   release _idDestroy wm_disconnect assign_idDestroy ;;
   release _switchWorkspaceId wm_disconnect assign_switchWorkspaceId ;;
   release _showingId overview_disconnect assign_showingId ;;
   release _hidingId overview_disconnect assign_hidingId) st
  = Some (tt, unsubscribed st).
Proof.
  destruct st as [o e]. destruct o as [? ? ? ? a b c d f ?]. destruct e.
  destruct a, b, c, d, f;
    cbv -[app without]; rewrite ?app_nil_r, <- ?app_assoc; reflexivity.
Qed.

Lemma enable_eq st :
  _isX11 (this st) = false -> enable st = Some (tt, enabled st).
Proof.
  destruct st as [o e]. destruct o, e. simpl. intros ->.
  cbv -[app Pos.succ]. rewrite <- !app_assoc. reflexivity.
Qed.

Lemma release_tables_wm (a b c : option positive) :
  release_table c
    (release_table b
       (release_table a
          (opt_handler a Map ++ opt_handler b Destroy ++ opt_handler c SwitchWorkspace)))
  = [].
Proof.
  destruct a, b, c; cbn; unfold without;
    rewrite ?filter_cons, ?filter_nil; cbn;
    repeat (case_decide; cbn; rewrite ?filter_cons, ?filter_nil; cbn);
    congruence.
Qed.

Lemma release_tables_overview (d f : option positive) :
  release_table f (release_table d (opt_handler d Showing ++ opt_handler f Hiding))
  = [].
Proof.
  destruct d, f; cbn; unfold without;
    rewrite ?filter_cons, ?filter_nil; cbn;
    repeat (case_decide; cbn; rewrite ?filter_cons, ?filter_nil; cbn);
    congruence.
Qed.

Lemma cancelled_windows st : windows (env (cancelled st)) = windows (env st).
Proof. unfold cancelled. destruct (_activate_window_ID (this st)); reflexivity. Qed.

Lemma cancelled_windowList st :
  _windowList (this (cancelled st)) = _windowList (this st).
Proof. unfold cancelled. destruct (_activate_window_ID (this st)); reflexivity. Qed.

Lemma cancelled_log st :
  log (env (cancelled st)) = (log (env st) ++ cancel_calls st)%list.
Proof.
  unfold cancelled, cancel_calls.
  destruct (_activate_window_ID (this st)); simpl; [|rewrite app_nil_r]; reflexivity.
Qed.

Lemma cancelled_sources st : pending_ok st -> sources (env (cancelled st)) = [].
Proof.
  unfold pending_ok, cancelled.
  destruct (_activate_window_ID (this st)) as [id|]; [|auto].
  intros [cw H]. simpl. rewrite H. apply without_single.
Qed.

(** The whole of [disable] on a Wayland compositor. *)
Lemma disable_eq st :
  _isX11 (this st) = false -> registry_ok st ->
  exists h',
    disable st
    = Some (tt, unsubscribed
                  (upd_this (assign_windowList [])
                     (with_heap_log h'
                        (flat_map (teardown_calls (windows (env st)))
                           (_windowList (this st)))
                        (cancelled st))))
    /\ (forall w, w ∈ _windowList (this st) ->
          exists win ding id,
            windows (env st) !! w = Some win
            /\ customJS_ding win = Some ding
            /\ ManageWindow.unmanagedID ding = Some id
            /\ h' !! w = Some (torn_down win ding id))
    /\ (forall w, w ∉ _windowList (this st) -> h' !! w = windows (env st) !! w).
Proof.
  intros HX [Hnd Hm].
  destruct (clear_loop (_windowList (this st)) (cancelled st) Hnd) as (h' & Hrun & Hin & Hout).
  { eapply Forall_impl; [exact Hm|]. intros w (win & ding & id & H).
    exists win, ding, id. rewrite cancelled_windows. exact H. }
  rewrite cancelled_windows in Hrun, Hin, Hout.
  exists h'. split; [|split; assumption].
  unfold disable, bind at 1, gets at 1. rewrite HX.
  rewrite (bind_Some _ _ _ _ _ (cancel_eq st)).
  erewrite bind_Some.
  2: { unfold bind at 1, gets at 1. rewrite cancelled_windowList. exact Hrun. }
  unfold bind at 1, modify at 1. apply unsubscribe_eq.
Qed.

(** X23: on a Wayland compositor, in a state where at most the source of
    the handle is pending, each window of [_windowList] is listed once
    and has its record, and the compositor-wide handlers are those of the
    five ids, [disable] does not throw; it removes the pending idle
    source first, then tears down the record of every window of
    [_windowList], then disconnects the five handlers.  Afterwards no
    source is pending, no handler is connected to the window manager or
    to the overview, every window that was listed has [customJS_ding]
    [null], and the object is as the constructor leaves it but for
    [_enableRefresh] and [_wayland_client], which keep their values.  An
    [enable] right after it finds an empty [_windowList] and connects each
    of the five signals once. *)
Theorem disable_then_enable st :
  _isX11 (this st) = false ->
  pending_ok st -> registry_ok st -> subscriptions_ok st ->
  exists st1 st2,
    disable st = Some (tt, st1)
    /\ new_calls st st1
       = (cancel_calls st
          ++ flat_map (teardown_calls (windows (env st))) (_windowList (this st))
          ++ unsubscribe_calls st)%list
    /\ sources (env st1) = []
    /\ window_manager (env st1) = []
    /\ overview (env st1) = []
    /\ Forall (fun w =>
                 exists win ding id,
                   windows (env st) !! w = Some win
                   /\ customJS_ding win = Some ding
                   /\ ManageWindow.unmanagedID ding = Some id
                   /\ windows (env st1) !! w = Some (torn_down win ding id))
              (_windowList (this st))
    /\ this st1
       = assign_wayland_client (_wayland_client (this st))
           (assign_enableRefresh (_enableRefresh (this st)) (constructor true))
    /\ enable st1 = Some (tt, st2)
    /\ _windowList (this st2) = []
    /\ subscriptions_ok st2
    /\ (window_manager (env st2)).*2 = [Map; Destroy; SwitchWorkspace]
    /\ (overview (env st2)).*2 = [Showing; Hiding].
Proof.
  intros HX Hp Hreg [Hwm Hov].
  destruct (disable_eq st HX Hreg) as (h' & Hrun & Hin & _).
  pose proof (cancelled_sources st Hp) as Hsrc.
  pose proof (cancelled_log st) as Hlog.
  set (calls := flat_map (teardown_calls (windows (env st))) (_windowList (this st))) in *.
  set (st1 := unsubscribed _) in Hrun.
  assert (Hids : _idMap (this (cancelled st)) = _idMap (this st)
                 /\ _idDestroy (this (cancelled st)) = _idDestroy (this st)
                 /\ _switchWorkspaceId (this (cancelled st)) = _switchWorkspaceId (this st)
                 /\ _showingId (this (cancelled st)) = _showingId (this st)
                 /\ _hidingId (this (cancelled st)) = _hidingId (this st)
                 /\ window_manager (env (cancelled st)) = window_manager (env st)
                 /\ overview (env (cancelled st)) = overview (env st)
                 /\ _wayland_client (this (cancelled st)) = _wayland_client (this st)
                 /\ _enableRefresh (this (cancelled st)) = _enableRefresh (this st)
                 /\ _isX11 (this (cancelled st)) = _isX11 (this st)
                 /\ _activate_window_ID (this (cancelled st)) = None).
  { unfold cancelled. destruct (_activate_window_ID (this st)) eqn:E;
      repeat split; try reflexivity; exact E. }
  destruct Hids as (I1 & I2 & I3 & I4 & I5 & I6 & I7 & I8 & I9 & I10 & I11).
  assert (Hwm1 : window_manager (env st1) = []).
  { unfold st1. simpl. rewrite I1, I2, I3, I6, Hwm. apply release_tables_wm. }
  assert (Hov1 : overview (env st1) = []).
  { unfold st1. simpl. rewrite I4, I5, I7, Hov. apply release_tables_overview. }
  assert (Hthis : this st1
                  = assign_wayland_client (_wayland_client (this st))
                      (assign_enableRefresh (_enableRefresh (this st)) (constructor true))).
  { unfold st1. simpl. unfold assign_hidingId. simpl.
    rewrite I8, I9, I10, I11, HX. reflexivity. }
  assert (HX1 : _isX11 (this st1) = false) by (rewrite Hthis; reflexivity).
  exists st1, (enabled st1). split; [exact Hrun|].
  split.
  { unfold new_calls, st1. simpl. rewrite Hlog.
    unfold unsubscribe_calls. simpl. rewrite I1, I2, I3, I4, I5.
    rewrite <- !app_assoc. rewrite drop_app_length. reflexivity. }
  split; [exact Hsrc|]. split; [exact Hwm1|]. split; [exact Hov1|].
  split; [apply Forall_forall; exact Hin|].
  split; [exact Hthis|].
  split; [apply enable_eq, HX1|].
  clearbody st1.
  split; [change (_windowList (this st1) = []); rewrite Hthis; reflexivity|].
  split; [split; cbn [enabled env this window_manager overview];
          rewrite ?Hwm1, ?Hov1; reflexivity|].
  split; cbn [enabled env window_manager overview];
    rewrite ?Hwm1, ?Hov1; reflexivity.
Qed.

Lemma disable_then_enable_witness :
  _isX11 (this two_windows_mapped) = false
  /\ pending_ok two_windows_mapped
  /\ registry_ok two_windows_mapped
  /\ subscriptions_ok two_windows_mapped
  /\ exists st1 st2,
       disable two_windows_mapped = Some (tt, st1)
       /\ sources (env st1) = []
       /\ this st1 = assign_wayland_client true (constructor true)
       /\ enable st1 = Some (tt, st2)
       /\ _windowList (this st2) = []
       /\ (window_manager (env st2)).*2 = [Map; Destroy; SwitchWorkspace]
       /\ (overview (env st2)).*2 = [Showing; Hiding].
Proof.
  assert (H1 : pending_ok two_windows_mapped) by (exists true; reflexivity).
  assert (H2 : registry_ok two_windows_mapped).
  { split.
    - apply (bool_decide_unpack _). reflexivity.
    - repeat constructor; eexists _, _, _; repeat split; reflexivity. }
  assert (H3 : subscriptions_ok two_windows_mapped) by (split; reflexivity).
  split; [reflexivity | split; [exact H1 | split; [exact H2 | split; [exact H3|]]]].
  destruct (disable_then_enable two_windows_mapped eq_refl H1 H2 H3)
    as (st1 & st2 & Hd & _ & Hs & _ & _ & _ & Ht & He & Hl & _ & Hw & Ho).
  exists st1, st2. repeat split; assumption.
Defined.

(** C9, at [enable()], the overview showing, [disable()], on a new
    object: the ["showing"] handler has set [_enableRefresh] to [false]
    and [disable] does not set it back, so the object is not as it was
    before [enable].  After the next [enable] a window is closed: the pass
    that is queued checks the workspace and makes no call, where after an
    [enable], [disable], [enable] without the overview it activates
    window 1. *)
Theorem disable_keeps_refresh_off :
  exists st1 st2 st3 st4,
    this (start true sample_env) = constructor true
    /\ _enableRefresh (constructor true) = true
    /\ (enable ;; deliver ShowingEvent ;; disable) (start true sample_env)
       = Some (tt, st1)
    /\ _enableRefresh (this st1) = false
    /\ this st1 <> constructor true
    /\ (enable ;; deliver (DestroyEvent None)) st1 = Some (tt, st2)
    /\ idle st2 = Some ([true], st3)
    /\ new_calls st2 st3 = []
    /\ (enable ;; disable ;; enable ;; deliver (DestroyEvent None) ;; idle)
         (start true sample_env)
       = Some ([true], st4)
    /\ activations (new_calls (start true sample_env) st4) = [1%positive].
Proof.
  eexists _, _, _, _.
  split; [reflexivity|]. split; [reflexivity|].
  split; [vm_compute; reflexivity|]. split; [reflexivity|].
  split; [discriminate|].
  split; [vm_compute; reflexivity|].
  split; [vm_compute; reflexivity|]. split; [reflexivity|].
  split; [vm_compute; reflexivity | reflexivity].
Qed.

(** After the teardown no handler of the record is left on the window. *)
Lemma torn_down_handlers win (ding : ManageWindow.t) (id i : positive) :
  i = id \/ i ∈ ManageWindow._signalIDs ding ->
  i ∉ (handlers (torn_down win ding id)).*1.
Proof.
  unfold torn_down. simpl.
  generalize (ManageWindow._signalIDs ding) as ids. intros ids.
  assert (Hsub : forall (ids : list positive) (hs : list (positive * signal)) (j : positive),
             j ∉ hs.*1 -> j ∉ (fold_left (fun hs i => without i hs) ids hs).*1).
  { clear. induction ids as [|k ids IH]; intros hs j Hj; [exact Hj|].
    simpl. apply IH. intros H. apply Hj.
    apply list_elem_of_fmap in H as (x & -> & Hx).
    apply list_elem_of_filter in Hx as [_ Hx].
    apply list_elem_of_fmap_2, Hx. }
  assert (Hrm : forall (hs : list (positive * signal)) (j : positive), j ∉ (without j hs).*1).
  { clear. intros hs j H. apply list_elem_of_fmap in H as (x & -> & Hx).
    apply list_elem_of_filter in Hx as [Hx _]. apply Hx. reflexivity. }
  intros [-> | Hi].
  - apply Hsub, Hrm.
  - revert Hi. generalize (without id (handlers win)) as hs.
    induction ids as [|k ids IH]; intros hs Hi; [inversion Hi|].
    simpl. apply elem_of_cons in Hi as [-> | Hi].
    + apply Hsub, Hrm.
    + apply IH, Hi.
Qed.

(** On X11 neither [enable] nor [disable] does anything. *)
Lemma x11_noop st :
  _isX11 (this st) = true ->
  enable st = Some (tt, st) /\ disable st = Some (tt, st).
Proof.
  intros H. unfold enable, disable, bind, gets. rewrite H. split; reflexivity.
Qed.

End Disable.

(** ** More on the title parser and the handlers of a record *)

Section ParseTitleMore.

Import ManageWindow.

Implicit Types (this : ManageWindow.t) (title : string) (c : ascii).

Lemma record_eq (a b : ManageWindow.t) :
  same_frame a b -> same_fields a b -> a = b.
Proof.
  destruct a, b. unfold same_frame, same_fields. simpl.
  intros (-> & -> & ->) (-> & -> & -> & -> & -> & -> & ->). reflexivity.
Qed.

Lemma scan_char_same_frame this c : same_frame (scan_char this c) this.
Proof.
  unfold scan_char, same_frame.
  repeat match goal with |- context [Ascii.eqb ?a ?b] => destruct (Ascii.eqb a b) end;
    repeat split; reflexivity.
Qed.

Lemma same_frame_trans (a b d : ManageWindow.t) :
  same_frame a b -> same_frame b d -> same_frame a d.
Proof.
  unfold same_frame. intros (-> & -> & ->) (-> & -> & ->). repeat split; reflexivity.
Qed.

Lemma scan_same_frame this (l : list ascii) :
  same_frame (fold_left scan_char l this) this.
Proof.
  revert this. induction l as [|c l IH]; intros this; simpl.
  - repeat split; reflexivity.
  - eapply same_frame_trans; [apply IH | apply scan_char_same_frame].
Qed.

Lemma scan_char_same_fields (a b : ManageWindow.t) c :
  same_fields a b -> same_fields (scan_char a c) (scan_char b c).
Proof.
  unfold scan_char, same_fields. intros (H1 & H2 & H3 & H4 & H5 & H6 & H7).
  repeat match goal with |- context [Ascii.eqb ?a ?b] => destruct (Ascii.eqb a b) end;
    simpl; repeat split; assumption || reflexivity.
Qed.

Lemma scan_same_fields (a b : ManageWindow.t) (l : list ascii) :
  same_fields a b -> same_fields (fold_left scan_char l a) (fold_left scan_char l b).
Proof.
  revert a b. induction l as [|c l IH]; intros a b H; simpl; [exact H|].
  apply IH, scan_char_same_fields, H.
Qed.

(** [_parseTitle] leaves the client, the signal ids and [unmanagedID]
    as they are. *)
Lemma _parseTitle_same_frame this (title : option string) :
  same_frame (fst (_parseTitle this title)) this.
Proof.
  destruct title as [title|]; [|repeat split; reflexivity].
  destruct (Z.eq_dec (JS.search (special_title title) "@!") (-1)) as [H|H].
  - rewrite _parseTitle_no_marker by exact H. repeat split; reflexivity.
  - rewrite _parseTitle_marker by exact H. cbv zeta.
    eapply same_frame_trans; [apply scan_same_frame|]. repeat split; reflexivity.
Qed.

(** The seven decoded fields depend on the title alone. *)
Lemma _parseTitle_same_fields (a b : ManageWindow.t) (title : option string) :
  same_fields (fst (_parseTitle a title)) (fst (_parseTitle b title)).
Proof.
  destruct title as [title|]; [|repeat split; reflexivity].
  destruct (Z.eq_dec (JS.search (special_title title) "@!") (-1)) as [H|H].
  - rewrite !_parseTitle_no_marker by exact H. repeat split; reflexivity.
  - rewrite !_parseTitle_marker by exact H. cbv zeta.
    apply scan_same_fields. repeat split; reflexivity.
Qed.

(** X1: decoding is stateless.  Whatever the object held before, the
    Directive after [_parseTitle] is the one of the title: a flag or a
    position of the previous title that the new title does not carry is
    cleared. *)
Theorem decode_stateless (a b : ManageWindow.t) (title : option string) :
  decode a title = decode b title.
Proof.
  unfold decode, directive_of.
  destruct (_parseTitle_same_fields a b title) as (-> & -> & -> & -> & -> & -> & ->).
  reflexivity.
Qed.

Lemma scan_keepAtTop_set this (l : list ascii) :
  (exists top, _keepAtTop this = Some top) ->
  exists top, _keepAtTop (fold_left scan_char l this) = Some top.
Proof.
  revert this. induction l as [|c l IH]; intros this H; [exact H|].
  simpl. apply IH. unfold scan_char.
  repeat match goal with |- context [Ascii.eqb ?a ?b] => destruct (Ascii.eqb a b) end;
    simpl; eauto.
Qed.

Lemma _parseTitle_keepAtTop_set this (title : option string) :
  exists top, _keepAtTop (fst (_parseTitle this title)) = Some top.
Proof.
  destruct title as [title|]; [|exists false; reflexivity].
  destruct (Z.eq_dec (JS.search (special_title title) "@!") (-1)) as [H|H].
  - rewrite _parseTitle_no_marker by exact H. exists false. reflexivity.
  - rewrite _parseTitle_marker by exact H. cbv zeta.
    apply scan_keepAtTop_set. exists false. reflexivity.
Qed.

Lemma _parseTitle_calls this title :
  snd (_parseTitle this (Some title))
  = (calls_after (fst (_parseTitle this (Some title))) (_keepAtTop this)
     ++ [ChangedStatusCB])%list.
Proof. unfold _parseTitle, calls_after. cbn [fst snd]. rewrite <- !app_assoc. reflexivity. Qed.

Lemma above_call_changed (r : ManageWindow.t) (keepAtTop : option bool) (call : wcall) :
  call = MakeAbove \/ call = UnmakeAbove ->
  In call (calls_after r keepAtTop) ->
  keepAtTop_changed r keepAtTop = true
  /\ (call = MakeAbove -> JS.truthy (_keepAtTop r) = true).
Proof.
  intros Hc H. unfold calls_after in H.
  repeat (apply in_app_or in H as [H|H]);
    repeat match type of H with
           | context [if ?b then _ else _] => destruct b eqn:?
           end;
    simpl in H; try contradiction;
    destruct H as [H|H]; try contradiction; subst call;
    destruct Hc as [Hc|Hc]; try discriminate Hc;
    split; auto; discriminate.
Qed.

(** X2: parsing the same title again changes nothing.  The object is the
    same after the second [_parseTitle], and the second run calls neither
    [make_above] nor [unmake_above]. *)
Theorem _parseTitle_twice this (title : option string) :
  let once := fst (_parseTitle this title) in
  fst (_parseTitle once title) = once
  /\ ~ In MakeAbove (snd (_parseTitle once title))
  /\ ~ In UnmakeAbove (snd (_parseTitle once title)).
Proof.
  cbv zeta. set (once := fst (_parseTitle this title)).
  assert (Heq : fst (_parseTitle once title) = once).
  { apply record_eq.
    - apply _parseTitle_same_frame.
    - apply _parseTitle_same_fields. }
  split; [exact Heq|].
  destruct (_parseTitle_keepAtTop_set this title) as [top Htop]. fold once in Htop.
  assert (Hsame : keepAtTop_changed once (_keepAtTop once) = false)
    by (unfold keepAtTop_changed; rewrite Htop; apply xorb_nilpotent).
  destruct title as [title|]; [|split; intros []].
  rewrite _parseTitle_calls, Heq.
  split; intros H; apply in_app_or in H as [H|[H|[]]]; try discriminate;
    apply above_call_changed in H as [H _]; auto; congruence.
Qed.

Lemma scan_char_flag this c :
  _showInAllDesktops (scan_char this c)
  = _showInAllDesktops this || Ascii.eqb c "D"
  /\ _hideFromWindowList (scan_char this c)
     = _hideFromWindowList this || Ascii.eqb c "H"
  /\ _fixed (scan_char this c) = _fixed this || Ascii.eqb c "F".
Proof.
  unfold scan_char.
  destruct (Ascii.eqb_spec c "B") as [->|_]; [simpl; rewrite !orb_false_r; auto|].
  destruct (Ascii.eqb_spec c "T") as [->|_]; [simpl; rewrite !orb_false_r; auto|].
  destruct (Ascii.eqb_spec c "D") as [->|_]; [simpl; rewrite !orb_false_r, orb_true_r; auto|].
  destruct (Ascii.eqb_spec c "H") as [->|_]; [simpl; rewrite !orb_false_r, orb_true_r; auto|].
  destruct (Ascii.eqb_spec c "F") as [->|_]; [simpl; rewrite !orb_false_r, orb_true_r; auto|].
  rewrite !orb_false_r. auto.
Qed.

Lemma scan_flag this (l : list ascii) :
  _showInAllDesktops (fold_left scan_char l this)
  = _showInAllDesktops this || existsb (fun c => Ascii.eqb c "D") l
  /\ _hideFromWindowList (fold_left scan_char l this)
     = _hideFromWindowList this || existsb (fun c => Ascii.eqb c "H") l
  /\ _fixed (fold_left scan_char l this)
     = _fixed this || existsb (fun c => Ascii.eqb c "F") l.
Proof.
  revert this. induction l as [|c l IH]; intros this; simpl.
  - rewrite !orb_false_r. auto.
  - destruct (IH (scan_char this c)) as (-> & -> & ->).
    destruct (scan_char_flag this c) as (-> & -> & ->).
    rewrite !orb_assoc. auto.
Qed.

Lemma existsb_letter (letter : ascii) (l : list ascii) :
  existsb (fun c => Ascii.eqb c letter) l = true <-> In letter l.
Proof.
  rewrite existsb_exists. split.
  - intros (c & Hc & E). apply Ascii.eqb_eq in E. subst. exact Hc.
  - intros H. exists letter. split; [exact H | apply Ascii.eqb_refl].
Qed.

(** X3: where the marker is found, each of the flags D, H and F is set
    exactly when its letter occurs somewhere in the flag field, the
    upper-cased text from the marker to the end of the title. *)
Theorem flags_by_letter this title :
  marker_found title ->
  (showOnAllWorkspaces (decode this (Some title)) = true
   <-> In "D"%char (flag_field title))
  /\ (hideFromWindowList (decode this (Some title)) = true
      <-> In "H"%char (flag_field title))
  /\ (fixedPosition (decode this (Some title)) = true
      <-> In "F"%char (flag_field title)).
Proof.
  intros H. unfold decode, directive_of, flag_field. cbn [showOnAllWorkspaces
    hideFromWindowList fixedPosition].
  rewrite _parseTitle_marker by exact H. cbv zeta.
  match goal with |- context [fold_left scan_char ?l ?r] =>
    destruct (scan_flag r l) as (-> & -> & ->) end.
  cbn [reset set_x set_y set_fixed set_hideFromWindowList set_showInAllDesktops
       set_keepAtTop set_keepAtBottom _showInAllDesktops _hideFromWindowList _fixed orb].
  rewrite !existsb_letter. tauto.
Qed.

Lemma flags_by_letter_witness :
  marker_found "@!0,0;b - Desktop"
  /\ In "D"%char (flag_field "@!0,0;b - Desktop")
  /\ showOnAllWorkspaces (decode (fresh true []) (Some "@!0,0;b - Desktop")) = true.
Proof.
  assert (H1 : marker_found "@!0,0;b - Desktop") by (vm_compute; discriminate).
  assert (H2 : In "D"%char (flag_field "@!0,0;b - Desktop")) by (vm_compute; tauto).
  split; [exact H1 | split; [exact H2|]].
  apply (proj1 (flags_by_letter (fresh true []) "@!0,0;b - Desktop" H1)), H2.
Defined.

(** X5: the window is snapped back on a position change exactly when the
    marker is found in its title and an F follows it: then the handler
    calls [move_frame] with the decoded [_x] and [_y], whatever they are,
    and otherwise it makes no call. *)
Theorem snap_back this title :
  let this' := fst (_parseTitle this (Some title)) in
  (marker_found title /\ In "F"%char (flag_field title) ->
   on_position_changed this' = [MoveFrame false (_x this') (_y this')])
  /\ (~ (marker_found title /\ In "F"%char (flag_field title)) ->
      on_position_changed this' = []).
Proof.
  cbv zeta. unfold on_position_changed. split.
  - intros [Hm HF].
    destruct (marker_position_not_null this title Hm) as [Hx Hy].
    destruct (flags_by_letter this title Hm) as (_ & _ & Hf).
    unfold decode, directive_of in Hf. cbn [fixedPosition] in Hf.
    rewrite (proj2 Hf HF).
    destruct (_x _); [contradiction| |]; (destruct (_y _); [contradiction| |]); reflexivity.
  - intros Hn. destruct (Z.eq_dec (JS.search (special_title title) "@!") (-1)) as [H|H].
    + rewrite _parseTitle_no_marker by exact H. reflexivity.
    + destruct (flags_by_letter this title H) as (_ & _ & Hf).
      unfold decode, directive_of in Hf. cbn [fixedPosition] in Hf.
      destruct (_fixed _); [|reflexivity].
      exfalso. apply Hn. split; [exact H | apply Hf; reflexivity].
Qed.

Lemma snap_back_witness :
  (marker_found "@!12,34;F" /\ In "F"%char (flag_field "@!12,34;F"))
  /\ on_position_changed (fst (_parseTitle (fresh true []) (Some "@!12,34;F")))
     = [MoveFrame false (Num 12) (Num 34)]
  /\ ~ (marker_found "Editor" /\ In "F"%char (flag_field "Editor"))
  /\ on_position_changed (fst (_parseTitle (fresh true []) (Some "Editor"))) = [].
Proof.
  assert (H1 : marker_found "@!12,34;F" /\ In "F"%char (flag_field "@!12,34;F"))
    by (split; [vm_compute; discriminate | vm_compute; tauto]).
  assert (H2 : ~ (marker_found "Editor" /\ In "F"%char (flag_field "Editor")))
    by (intros [H _]; apply H; reflexivity).
  split; [exact H1|]. split.
  - exact (proj1 (snap_back (fresh true []) "@!12,34;F") H1).
  - split; [exact H2|]. exact (proj2 (snap_back (fresh true []) "Editor") H2).
Defined.

(** X6: a [make_above] that [_parseTitle] calls is never undone by the
    handler of ["notify::above"]: in the state [_parseTitle] leaves, that
    handler makes no call, whether the window is above or not. *)
Theorem make_above_not_undone this (title : option string) (above : bool) :
  In MakeAbove (snd (_parseTitle this title)) ->
  on_notify_above (fst (_parseTitle this title)) above = [].
Proof.
  intros H. destruct title as [title|]; [|destruct H].
  rewrite _parseTitle_calls in H. apply in_app_or in H as [H|[H|[]]]; [|discriminate].
  apply above_call_changed in H as [_ Htop]; [|left; reflexivity].
  pose proof (_parseTitle_exclusive this (Some title)) as He. unfold exclusive in He.
  rewrite (Htop eq_refl), andb_true_r in He.
  unfold on_notify_above. rewrite He. reflexivity.
Qed.

Lemma make_above_not_undone_witness :
  In MakeAbove (snd (_parseTitle (fresh true []) (Some "@!0,0;BT")))
  /\ on_notify_above (fst (_parseTitle (fresh true []) (Some "@!0,0;BT"))) true = [].
Proof.
  assert (H : In MakeAbove (snd (_parseTitle (fresh true []) (Some "@!0,0;BT"))))
    by (vm_compute; tauto).
  split; [exact H|].
  exact (make_above_not_undone (fresh true []) (Some "@!0,0;BT") true H).
Defined.

(** X7: after any [_parseTitle] the handler of ["raised"] lowers the
    window exactly when it is bottom-pinned; the test on [_keepAtTop] in
    the handler never decides. *)
Theorem raised_lowers_iff_pinned this (title : option string) :
  on_raised (fst (_parseTitle this title))
  = if _keepAtBottom (fst (_parseTitle this title)) then [Lower] else [].
Proof.
  pose proof (_parseTitle_exclusive this title) as He. unfold exclusive in He.
  unfold on_raised. destruct (_keepAtBottom _); [|reflexivity].
  simpl in He. rewrite He. reflexivity.
Qed.

(** X19: the first [_parseTitle] of a record, the one of the
    constructor, always changes the above state of a window whose title
    is not [null]: [_keepAtTop] is [undefined] before, which differs from
    both [true] and [false].  It calls [make_above] when the title pins
    the window to the top, and [unmake_above] otherwise, also for a title
    without the marker; never both. *)
Theorem first_parse_above_call (wayland_client : bool) (ids : list positive)
    (title : string) :
  let r := _parseTitle (fresh wayland_client ids) (Some title) in
  if pinTop (directive_of (fst r))
  then In MakeAbove (snd r) /\ ~ In UnmakeAbove (snd r)
  else In UnmakeAbove (snd r) /\ ~ In MakeAbove (snd r).
Proof.
  cbv zeta. rewrite _parseTitle_calls.
  destruct (_parseTitle_keepAtTop_set (fresh wayland_client ids) (Some title))
    as [top Htop].
  set (r := fst (_parseTitle (fresh wayland_client ids) (Some title))) in *.
  cbn [pinTop directive_of _keepAtTop fresh]. unfold calls_after, keepAtTop_changed.
  rewrite Htop.
  destruct top, (_wayland_client r), (_hideFromWindowList r), (_keepAtBottom r),
    (_fixed r && JS.not_null (_x r) && JS.not_null (_y r));
    cbn; (split; [tauto|]); intros H;
    repeat (destruct H as [H|H]; [discriminate H|]); exact H.
Qed.

End ParseTitleMore.

(** ** The registry: [addWindow], the handlers, the invariant *)

Section Registry.

Implicit Types (st : State) (w : positive) (win : MetaWindow)
  (h : gmap positive MetaWindow) (o : t)
  (src : list (positive * (Z * bool))) (n : positive) (cs : list call).

Lemma mk_self st :
  mk (this st) (windows (env st)) (sources (env st)) (next_id (env st)) [] st = st.
Proof. destruct st as [o e]. destruct e. unfold mk. simpl. rewrite app_nil_r. reflexivity. Qed.

Lemma mk_window o h src n cs st w win :
  h !! w = Some win ->
  window w (mk o h src n cs st) = Some (win, mk o h src n cs st).
Proof. intros H. unfold window. simpl. rewrite H. reflexivity. Qed.

Lemma mk_update_window o h src n cs st w win (f : MetaWindow -> MetaWindow) :
  h !! w = Some win ->
  update_window w f (mk o h src n cs st)
  = Some (tt, mk o (<[w := f win]> h) src n cs st).
Proof.
  intros H. unfold update_window.
  rewrite (bind_Some _ _ _ _ _ (mk_window o h src n cs st w win H)). reflexivity.
Qed.

Lemma mk_emit o h src n cs st (c : call) :
  emit c (mk o h src n cs st) = Some (tt, mk o h src n (cs ++ [c]) st).
Proof. unfold emit, modify, upd_env, mk. simpl. rewrite <- app_assoc. reflexivity. Qed.

Lemma mk_window_connect o h src n cs st w win (s : signal) :
  h !! w = Some win ->
  window_connect w s (mk o h src n cs st)
  = Some (n, mk o (<[w := with_handlers (handlers win ++ [(n, s)]) win]> h) src
               (Pos.succ n) (cs ++ [WindowConnect w s n]) st).
Proof.
  intros H. unfold window_connect, fresh_id.
  unfold bind at 1. unfold bind at 1, gets at 1. cbn [env mk next_id].
  unfold bind at 1, modify at 1, ret at 1.
  change (upd_env (with_next_id (Pos.succ n)) (mk o h src n cs st))
    with (mk o h src (Pos.succ n) cs st).
  rewrite (bind_Some _ _ _ _ _ (mk_update_window o h src (Pos.succ n) cs st w win _ H)).
  rewrite (bind_Some _ _ _ _ _ (mk_emit _ _ _ _ _ _ _)). reflexivity.
Qed.

Lemma mk_plain o h src n cs st (cb : M unit) w (calls : list ManageWindow.wcall) :
  forallb plain calls = true ->
  for_of calls (perform cb w) (mk o h src n cs st)
  = Some (tt, mk o h src n (cs ++ map (OnWindow w) calls) st).
Proof.
  intros H. rewrite perform_plain by exact H.
  unfold add_log, upd_env, mk. simpl. rewrite <- app_assoc. reflexivity.
Qed.

Lemma mk_refreshWindows o h src n cs st (cw : bool) :
  _refreshWindows cw (mk o h src n cs st)
  = Some (tt, match _activate_window_ID o with
              | Some _ => mk o h src n cs st
              | None =>
                  mk (assign_activate_window_ID (Some n) o) h
                    (src ++ [(n, (PRIORITY_LOW, cw))]) (Pos.succ n)
                    (cs ++ [IdleAdd PRIORITY_LOW n]) st
              end).
Proof.
  destruct (_activate_window_ID o) as [id|] eqn:E.
  - apply (_refreshWindows_pending _ _ id). exact E.
  - rewrite _refreshWindows_free by exact E.
    unfold scheduled, mk. simpl. rewrite <- app_assoc. reflexivity.
Qed.

Lemma calls_after_plain (ding : ManageWindow.t) (keepAtTop : option bool) :
  forallb plain (calls_after ding keepAtTop) = true.
Proof.
  unfold calls_after.
  repeat match goal with
         | |- context [if ?b then _ else _] => destruct b
         end; reflexivity.
Qed.

(** The calls of [_parseTitle], as the constructor or the title handler
    performs them: the calls on the window are logged, and the status
    callback, last, asks for a refresh that checks the workspace. *)
Lemma mk_title_calls o h src n cs st w (ding : ManageWindow.t) (title : option string) :
  for_of (snd (ManageWindow._parseTitle ding title)) (perform (_refreshWindows true) w)
    (mk o h src n cs st)
  = Some (tt,
          let calls :=
            map (OnWindow w)
              (title_calls (fst (ManageWindow._parseTitle ding title))
                 (ManageWindow._keepAtTop ding) title) in
          if queues_refresh title o
          then mk (assign_activate_window_ID (Some n) o) h
                 (src ++ [(n, (PRIORITY_LOW, true))]) (Pos.succ n)
                 (cs ++ calls ++ [IdleAdd PRIORITY_LOW n]) st
          else mk o h src n (cs ++ calls) st).
Proof.
  unfold queues_refresh. destruct title as [title|].
  - rewrite _parseTitle_calls.
    erewrite for_of_app by (apply mk_plain, calls_after_plain).
    cbn [for_of perform]. rewrite (bind_Some _ _ _ _ _ (mk_refreshWindows _ _ _ _ _ _ _)).
    cbn [title_calls]. unfold ret.
    rewrite (bool_decide_eq_true_2 (is_Some (Some title))) by eauto.
    destruct (_activate_window_ID o) as [id|].
    + rewrite (bool_decide_eq_true_2 (is_Some (Some id))) by eauto. reflexivity.
    + rewrite (bool_decide_eq_false_2 (is_Some None)) by (intros [? ?]; discriminate).
      cbn [negb andb]. rewrite <- app_assoc. reflexivity.
  - cbn. rewrite app_nil_r. reflexivity.
Qed.

Lemma mk_addWindow o h src n cs st (hd : handle) win :
  _isX11 o = false ->
  h !! window_of hd = Some win ->
  addWindow hd (mk o h src n cs st)
  = Some (tt, added (window_of hd) win o h src n cs st).
Proof.
  intros HX Hw. set (w := window_of hd) in *.
  unfold addWindow. unfold bind at 1, gets at 1. cbn [this mk]. rewrite HX.
  replace (match hd with Actor w' => w' | Window w' => w' end) with w
    by (destruct hd; reflexivity).
  unfold bind at 1, gets at 1. cbn [this mk].
  unfold new_ManageWindow.
  erewrite bind_Some.
  2: { erewrite bind_Some by (apply mk_window_connect; exact Hw).
       erewrite bind_Some by (apply mk_window_connect, lookup_insert_eq).
       erewrite bind_Some by (apply mk_window_connect, lookup_insert_eq).
       erewrite bind_Some by (apply mk_window_connect, lookup_insert_eq).
       erewrite bind_Some by (apply mk_window, lookup_insert_eq).
       cbn [get_title with_handlers].
       rewrite (surjective_pairing (ManageWindow._parseTitle _ _)).
       erewrite bind_Some by (apply mk_title_calls).
       reflexivity. }
  cbv zeta. unfold added. cbv zeta.
  cbn [ManageWindow._keepAtTop ManageWindow.fresh].
  destruct (queues_refresh (get_title win) o).
  all: erewrite bind_Some by (apply mk_update_window, lookup_insert_eq).
  all: unfold bind at 1, modify at 1.
  all: erewrite bind_Some by (apply mk_window_connect, lookup_insert_eq).
  all: erewrite mk_update_window by (apply lookup_insert_eq).
  all: cbn [customJS_ding with_customJS_ding with_handlers handlers option_map this mk
            upd_this].
  all: rewrite !insert_insert_eq, <- !app_assoc.
  all: reflexivity.
Qed.

Lemma on_unmanaged_eq w st win (ding : ManageWindow.t) (id : positive) :
  windows (env st) !! w = Some win ->
  customJS_ding win = Some ding ->
  ManageWindow.unmanagedID ding = Some id ->
  on_unmanaged w st
  = Some (tt, upd_this
                (fun o => assign_windowList
                            (filter (fun item => item ≠ w) (_windowList o)) o)
                (with_heap_log (<[w := torn_down win ding id]> (windows (env st)))
                   (teardown_calls (windows (env st)) w) st)).
Proof.
  intros Hw Hd Hid. unfold on_unmanaged.
  rewrite (bind_Some _ _ _ _ _ (_clearWindow_eq w st win ding id Hw Hd Hid)).
  reflexivity.
Qed.

(** The invariant looks at the list, the heap, the tab list, the handler
    tables, the five ids, the handle and the sources only. *)
Lemma invariant_frame st st' :
  invariant st ->
  pending_ok st' ->
  _windowList (this st') = _windowList (this st) ->
  windows (env st') = windows (env st) ->
  get_tab_list (env st') = get_tab_list (env st) ->
  window_manager (env st') = window_manager (env st) ->
  overview (env st') = overview (env st) ->
  _idMap (this st') = _idMap (this st) ->
  _idDestroy (this st') = _idDestroy (this st) ->
  _switchWorkspaceId (this st') = _switchWorkspaceId (this st) ->
  _showingId (this st') = _showingId (this st) ->
  _hidingId (this st') = _hidingId (this st) ->
  invariant st'.
Proof.
  intros (_ & H2 & H3 & H4 & H5 & H6 & H7) Hp El Eh Et Ew Eo E1 E2 E3 E4 E5.
  unfold invariant, tab_list_ok, subscriptions_ok in *.
  rewrite El, Eh, Et, Ew, Eo, E1, E2, E3, E4, E5. repeat split; assumption.
Qed.

Lemma invariant_has_record st :
  invariant st -> Forall (has_record st) (_windowList (this st)).
Proof.
  intros (_ & _ & H3 & H4 & _). apply Forall_forall. intros w Hw.
  destruct (H3 w Hw) as [win Hwin]. pose proof (H4 w win Hwin) as Hok.
  unfold window_ok in Hok. destruct (customJS_ding win) as [ding|] eqn:E.
  - exists win, ding. split; assumption.
  - destruct Hok as [Hn _]. contradiction.
Qed.

Lemma handlers_of_unmanagedID (ding : ManageWindow.t) (hs : list (positive * signal)) :
  handlers_of ding = Some hs ->
  exists id1 id2 id3 id4 id5,
    ManageWindow._signalIDs ding = [id1; id2; id3; id4]
    /\ ManageWindow.unmanagedID ding = Some id5
    /\ hs = [(id1, Raised); (id2, PositionChanged); (id3, NotifyTitle);
             (id4, NotifyAbove); (id5, Unmanaged)].
Proof.
  unfold handlers_of.
  destruct (ManageWindow._signalIDs ding) as [|a [|b [|c [|d [|? ?]]]]]; try discriminate.
  destruct (ManageWindow.unmanagedID ding) as [e|]; [|discriminate].
  intros [= <-]. exists a, b, c, d, e. repeat split; reflexivity.
Qed.

Lemma invariant_registry_ok st : invariant st -> registry_ok st.
Proof.
  intros Hinv. pose proof Hinv as (_ & H2 & H3 & H4 & _). split; [exact H2|].
  apply Forall_forall. intros w Hw.
  destruct (H3 w Hw) as [win Hwin]. pose proof (H4 w win Hwin) as Hok.
  unfold window_ok in Hok. destruct (customJS_ding win) as [ding|] eqn:E.
  - destruct Hok as [_ Hh].
    destruct (handlers_of_unmanagedID _ _ Hh) as (? & ? & ? & ? & id5 & _ & Hid & _).
    exists win, ding, id5. repeat split; assumption.
  - destruct Hok as [Hn _]. contradiction.
Qed.

(** Removing every id a table holds empties it. *)
Lemma without_all {A : Type} (ids : list positive) (l : list (positive * A)) :
  Forall (fun e => e.1 ∈ ids) l ->
  fold_left (fun hs i => without i hs) ids l = [].
Proof.
  revert l. induction ids as [|i ids IH]; intros l H.
  - destruct l as [|e l]; [reflexivity|].
    apply Forall_cons in H as [H _]. inversion H.
  - simpl. apply IH. unfold without.
    apply Forall_forall. intros e He. apply list_elem_of_filter in He as [Hne He].
    rewrite Forall_forall in H. specialize (H e He).
    apply elem_of_cons in H as [H|H]; [contradiction | exact H].
Qed.

Lemma torn_down_no_handler win (ding : ManageWindow.t) (id : positive) :
  handlers_of ding = Some (handlers win) ->
  ManageWindow.unmanagedID ding = Some id ->
  handlers (torn_down win ding id) = [] /\ customJS_ding (torn_down win ding id) = None.
Proof.
  intros Hh Hid. split; [|reflexivity].
  destruct (handlers_of_unmanagedID _ _ Hh) as (a & b & c & d & e & Hs & He & Hl).
  rewrite Hid in He. injection He as <-.
  unfold torn_down. cbn [handlers with_customJS_ding with_handlers].
  change (fold_left (fun hs i => without i hs) (ManageWindow._signalIDs ding)
            (without id (handlers win)))
    with (fold_left (fun hs i => without i hs) (id :: ManageWindow._signalIDs ding)
            (handlers win)).
  apply without_all. rewrite Hl, Hs. repeat constructor; cbn; set_solver.
Qed.

Lemma addWindow_eq st (hd : handle) win :
  _isX11 (this st) = false ->
  windows (env st) !! window_of hd = Some win ->
  addWindow hd st
  = Some (tt, added (window_of hd) win (this st) (windows (env st))
                (sources (env st)) (next_id (env st)) [] st).
Proof.
  intros HX Hw. rewrite <- (mk_self st) at 1. apply mk_addWindow; assumption.
Qed.

Lemma invariant_refreshWindows st (cw : bool) :
  invariant st ->
  exists st', _refreshWindows cw st = Some (tt, st') /\ invariant st'.
Proof.
  intros Hinv. destruct (_activate_window_ID (this st)) as [id|] eqn:E.
  - exists st. split; [apply (_refreshWindows_pending _ _ id E) | exact Hinv].
  - exists (scheduled cw st). split; [apply _refreshWindows_free, E|].
    apply (invariant_frame st); try reflexivity; [exact Hinv|].
    destruct Hinv as (Hp & _). unfold pending_ok in *. rewrite E in Hp.
    cbn. rewrite Hp. exists cw. reflexivity.
Qed.

Lemma queues_refresh_free (title : option string) o :
  queues_refresh title o = true -> _activate_window_ID o = None.
Proof.
  unfold queues_refresh. intros H. apply andb_true_iff in H as [_ H].
  apply negb_true_iff, bool_decide_eq_false in H.
  destruct (_activate_window_ID o); [exfalso; apply H; eauto | reflexivity].
Qed.

(** [addWindow] on a window without a record keeps the invariant. *)
Lemma invariant_added st w win :
  invariant st ->
  windows (env st) !! w = Some win ->
  customJS_ding win = None ->
  invariant (added w win (this st) (windows (env st)) (sources (env st))
               (next_id (env st)) [] st).
Proof.
  intros (Hp & Hnd & Hin & Hok & Htab & Hsub) Hw Hd.
  pose proof (Hok w win Hw) as Hokw. unfold window_ok in Hokw. rewrite Hd in Hokw.
  destruct Hokw as [Hnotin Hnoh].
  unfold added. cbv zeta.
  set (q := queues_refresh (get_title win) (this st)).
  set (ding := fst (ManageWindow._parseTitle _ _)).
  assert (Hids : ManageWindow._signalIDs ding
                 = [next_id (env st); Pos.succ (next_id (env st));
                    Pos.succ (Pos.succ (next_id (env st)));
                    Pos.succ (Pos.succ (Pos.succ (next_id (env st))))]).
  { unfold ding. destruct (_parseTitle_same_frame
      (ManageWindow.fresh (_wayland_client (this st))
         [next_id (env st); Pos.succ (next_id (env st));
          Pos.succ (Pos.succ (next_id (env st)));
          Pos.succ (Pos.succ (Pos.succ (next_id (env st))))]) (get_title win))
      as (_ & -> & _). reflexivity. }
  split; [|split; [|split; [|split; [|split]]]].
  - unfold pending_ok in *. destruct q eqn:Q; cbn.
    + rewrite (queues_refresh_free _ _ Q) in Hp. rewrite Hp. exists true. reflexivity.
    + exact Hp.
  - cbn. apply NoDup_app. split; [exact Hnd|]. split.
    + intros v Hv Hv'. apply list_elem_of_singleton in Hv'. subst. contradiction.
    + apply NoDup_singleton.
  - cbn. intros v Hv. apply elem_of_app in Hv as [Hv|Hv].
    + destruct (decide (v = w)) as [->|Hne].
      * rewrite lookup_insert_eq. eauto.
      * rewrite lookup_insert_ne by congruence. apply Hin, Hv.
    + apply list_elem_of_singleton in Hv. subst. rewrite lookup_insert_eq. eauto.
  - cbn. intros v winv Hv. destruct (decide (v = w)) as [->|Hne].
    + rewrite lookup_insert_eq in Hv. injection Hv as <-.
      unfold window_ok. cbn. split; [apply elem_of_app; right; left|].
      unfold handlers_of. cbn. rewrite Hids, Hnoh. reflexivity.
    + rewrite lookup_insert_ne in Hv by congruence.
      pose proof (Hok v winv Hv) as Hokv. unfold window_ok in *.
      destruct (customJS_ding winv); destruct Hokv as [H1 H2]; split; try assumption.
      * apply elem_of_app. left. exact H1.
      * intros H. apply elem_of_app in H as [H|H]; [exact (H1 H)|].
        apply list_elem_of_singleton in H. congruence.
  - unfold tab_list_ok in *. cbn. eapply Forall_impl; [exact Htab|].
    intros v [winv Hv]. destruct (decide (v = w)) as [->|Hne].
    + rewrite lookup_insert_eq. eauto.
    + rewrite lookup_insert_ne by congruence. eauto.
  - unfold subscriptions_ok in *. cbn. destruct q; exact Hsub.
Qed.

Lemma window_ok_similar (l : list positive) w (a b : MetaWindow) :
  similar a b -> window_ok l w a -> window_ok l w b.
Proof.
  intros [Hh Hd]. unfold window_ok. rewrite Hh.
  destruct (customJS_ding a) as [da|], (customJS_ding b) as [db|];
    try discriminate; [|tauto].
  injection Hd as ->. tauto.
Qed.

(** Replacing a window object by a similar one, and the handle and the
    sources by others that agree, keeps the invariant. *)
Lemma invariant_update st w (a b : MetaWindow) o src n cs :
  invariant st ->
  windows (env st) !! w = Some a ->
  similar a b ->
  _windowList o = _windowList (this st) ->
  _idMap o = _idMap (this st) ->
  _idDestroy o = _idDestroy (this st) ->
  _switchWorkspaceId o = _switchWorkspaceId (this st) ->
  _showingId o = _showingId (this st) ->
  _hidingId o = _hidingId (this st) ->
  pending_ok (mk o (<[w := b]> (windows (env st))) src n cs st) ->
  invariant (mk o (<[w := b]> (windows (env st))) src n cs st).
Proof.
  intros (_ & Hnd & Hin & Hok & Htab & Hsub) Hw Hsim El E1 E2 E3 E4 E5 Hp.
  split; [exact Hp|]. unfold tab_list_ok, subscriptions_ok in *. cbn.
  rewrite El, E1, E2, E3, E4, E5.
  split; [exact Hnd|]. split; [|split; [|split; [|exact Hsub]]].
  - intros v Hv. destruct (decide (v = w)) as [->|Hne].
    + rewrite lookup_insert_eq. eauto.
    + rewrite lookup_insert_ne by congruence. apply Hin, Hv.
  - intros v winv Hv. destruct (decide (v = w)) as [->|Hne].
    + rewrite lookup_insert_eq in Hv. injection Hv as <-.
      apply (window_ok_similar _ _ a); [exact Hsim | apply Hok, Hw].
    + rewrite lookup_insert_ne in Hv by congruence. apply Hok, Hv.
  - eapply Forall_impl; [exact Htab|].
    intros v [winv Hv]. destruct (decide (v = w)) as [->|Hne].
    + rewrite lookup_insert_eq. eauto.
    + rewrite lookup_insert_ne by congruence. eauto.
Qed.

Lemma similar_record (win : MetaWindow) (ding ding' : ManageWindow.t) :
  customJS_ding win = Some ding ->
  same_frame ding' ding ->
  similar win (with_customJS_ding (Some ding') win).
Proof.
  intros Hd (_ & Hs & Hu). split; [reflexivity|].
  rewrite Hd. cbn. unfold handlers_of. rewrite Hs, Hu. reflexivity.
Qed.

Lemma invariant_plain st (cb : M unit) w (calls : list ManageWindow.wcall) :
  invariant st -> forallb plain calls = true ->
  exists st', for_of calls (perform cb w) st = Some (tt, st') /\ invariant st'.
Proof.
  intros Hinv Hc. eexists. split; [apply perform_plain, Hc|].
  apply (invariant_frame st); try reflexivity; [exact Hinv|].
  destruct Hinv as [Hp _]. exact Hp.
Qed.

(** The closure of ["unmanaged"] keeps the invariant. *)
Lemma invariant_unmanaged st w win (ding : ManageWindow.t) :
  invariant st ->
  windows (env st) !! w = Some win ->
  customJS_ding win = Some ding ->
  exists st', on_unmanaged w st = Some (tt, st') /\ invariant st'.
Proof.
  intros Hinv Hw Hd. pose proof Hinv as (Hp & Hnd & Hin & Hok & Htab & Hsub).
  pose proof (Hok w win Hw) as Hokw. unfold window_ok in Hokw. rewrite Hd in Hokw.
  destruct Hokw as [Hlisted Hh].
  destruct (handlers_of_unmanagedID _ _ Hh) as (? & ? & ? & ? & id & _ & Hid & _).
  eexists. split; [apply (on_unmanaged_eq w st win ding id Hw Hd Hid)|].
  destruct (torn_down_no_handler win ding id Hh Hid) as [Hth Htd].
  split; [exact Hp|]. unfold tab_list_ok, subscriptions_ok in *. cbn.
  split; [apply NoDup_filter, Hnd|]. split; [|split; [|split; [|exact Hsub]]].
  - intros v Hv. apply list_elem_of_filter in Hv as [Hne Hv].
    rewrite lookup_insert_ne by congruence. apply Hin, Hv.
  - intros v winv Hv. destruct (decide (v = w)) as [->|Hne].
    + rewrite lookup_insert_eq in Hv. injection Hv as <-.
      unfold window_ok. rewrite Htd. split; [|exact Hth].
      intros H. apply list_elem_of_filter in H as [H _]. apply H. reflexivity.
    + rewrite lookup_insert_ne in Hv by congruence.
      pose proof (Hok v winv Hv) as Hokv. unfold window_ok in *.
      destruct (customJS_ding winv); destruct Hokv as [H1 H2]; split; try assumption.
      * apply list_elem_of_filter. split; assumption.
      * intros H. apply list_elem_of_filter in H as [_ H]. exact (H1 H).
  - eapply Forall_impl; [exact Htab|].
    intros v [winv Hv]. destruct (decide (v = w)) as [->|Hne].
    + rewrite lookup_insert_eq. eauto.
    + rewrite lookup_insert_ne by congruence. eauto.
Qed.

Lemma title_handler_eq st w win (ding : ManageWindow.t) :
  windows (env st) !! w = Some win ->
  (let '(ding', calls) := ManageWindow.on_notify_title ding (get_title win) in
   update_window w (with_customJS_ding (Some ding')) ;;
   for_of calls (perform (_refreshWindows true) w)) st
  = Some (tt, retitled w win ding st).
Proof.
  intros Hw. unfold ManageWindow.on_notify_title.
  rewrite (surjective_pairing (ManageWindow._parseTitle ding (get_title win))).
  rewrite <- (mk_self st) at 1.
  erewrite bind_Some by (apply mk_update_window; exact Hw).
  rewrite mk_title_calls. unfold retitled. cbv zeta. reflexivity.
Qed.

Lemma invariant_retitled st w win (ding : ManageWindow.t) :
  invariant st ->
  windows (env st) !! w = Some win ->
  customJS_ding win = Some ding ->
  invariant (retitled w win ding st).
Proof.
  intros Hinv Hw Hd. pose proof Hinv as (Hp & _).
  assert (Hsim : similar win
            (with_customJS_ding
               (Some (fst (ManageWindow._parseTitle ding (get_title win)))) win))
    by (apply (similar_record _ ding); [exact Hd | apply _parseTitle_same_frame]).
  unfold retitled. cbv zeta.
  destruct (queues_refresh (get_title win) (this st)) eqn:Q;
    apply (invariant_update st w win); try assumption;
    try (cbn; reflexivity).
  unfold pending_ok in *. cbn.
  rewrite (queues_refresh_free _ _ Q) in Hp. rewrite Hp. exists true. reflexivity.
Qed.

(** A signal of a window of the heap never throws and keeps the
    invariant, whatever the signal. *)
Lemma invariant_window_emit st w (s : signal) :
  invariant st -> is_Some (windows (env st) !! w) ->
  exists st', window_emit w s st = Some (tt, st') /\ invariant st'.
Proof.
  intros Hinv [win Hw]. unfold window_emit.
  rewrite (bind_Some _ _ _ _ _ (window_eq _ _ _ Hw)).
  destruct (customJS_ding win) as [ding|] eqn:Hd; [|exists st; split; [reflexivity|exact Hinv]].
  destruct (connected win ding s); [|exists st; split; [reflexivity|exact Hinv]].
  destruct s; try (exists st; split; [reflexivity|exact Hinv]).
  - apply invariant_plain; [exact Hinv|].
    unfold ManageWindow.on_raised. destruct (_ && _); reflexivity.
  - apply invariant_plain; [exact Hinv|].
    unfold ManageWindow.on_position_changed. destruct (_ && _); reflexivity.
  - eexists. split; [apply title_handler_eq; exact Hw|].
    apply invariant_retitled; assumption.
  - apply invariant_plain; [exact Hinv|].
    unfold ManageWindow.on_notify_above. destruct (_ && _); reflexivity.
  - apply (invariant_unmanaged st w win ding); assumption.
Qed.

Lemma wm_connections st (s : signal) :
  subscriptions_ok st ->
  filter (fun e => e.2 = s) (window_manager (env st))
  = match s with
    | Map => opt_handler (_idMap (this st)) Map
    | Destroy => opt_handler (_idDestroy (this st)) Destroy
    | SwitchWorkspace => opt_handler (_switchWorkspaceId (this st)) SwitchWorkspace
    | _ => []
    end.
Proof.
  intros [-> _].
  destruct (_idMap (this st)), (_idDestroy (this st)), (_switchWorkspaceId (this st)), s;
    reflexivity.
Qed.

Lemma overview_connections st (s : signal) :
  subscriptions_ok st ->
  filter (fun e => e.2 = s) (overview (env st))
  = match s with
    | Showing => opt_handler (_showingId (this st)) Showing
    | Hiding => opt_handler (_hidingId (this st)) Hiding
    | _ => []
    end.
Proof.
  intros [_ ->].
  destruct (_showingId (this st)), (_hidingId (this st)), s; reflexivity.
Qed.

(** A handler that keeps the invariant, run for at most one connection. *)
Lemma invariant_table_emit st (table : State -> list (positive * signal))
    (s : signal) (handler : M unit) (id : option positive) :
  filter (fun e => e.2 = s) (table st) = opt_handler id s ->
  invariant st ->
  (exists st', handler st = Some (tt, st') /\ invariant st') ->
  exists st', table_emit table s handler st = Some (tt, st') /\ invariant st'.
Proof.
  intros Hf Hinv (st' & Hrun & Hinv'). unfold table_emit, bind at 1, gets at 1.
  rewrite Hf. destruct id as [i|]; cbn [opt_handler for_of].
  - exists st'. split; [|exact Hinv']. rewrite (bind_Some _ _ _ _ _ Hrun). reflexivity.
  - exists st. split; [reflexivity | exact Hinv].
Qed.

Lemma invariant_on_map st w :
  invariant st -> unmanaged_window st w ->
  exists st', on_map w st = Some (tt, st') /\ invariant st'.
Proof.
  intros Hinv (win & Hw & Hd). unfold on_map.
  rewrite (bind_Some _ _ _ _ _ (window_eq _ _ _ Hw)).
  unfold bind at 1, gets at 1.
  destruct (_wayland_client (this st) && belongs_to win); unfold when.
  - destruct (_isX11 (this st)) eqn:HX.
    + assert (E : addWindow (Window w) st = Some (tt, st))
        by (unfold addWindow, bind, gets; rewrite HX; reflexivity).
      rewrite (bind_Some _ _ _ _ _ E). apply invariant_refreshWindows, Hinv.
    + rewrite (bind_Some _ _ _ _ _ (addWindow_eq st (Window w) win HX Hw)).
      apply invariant_refreshWindows, invariant_added; assumption.
  - unfold bind at 1, ret at 1. apply invariant_refreshWindows, Hinv.
Qed.

Lemma invariant_on_destroy st (window' : option positive) :
  invariant st ->
  (forall w, window' = Some w -> is_Some (windows (env st) !! w)) ->
  exists st', on_destroy window' st = Some (tt, st') /\ invariant st'.
Proof.
  intros Hinv Hw. unfold on_destroy. destruct window' as [w|].
  - destruct (Hw w eq_refl) as [win Hwin].
    rewrite (bind_Some _ _ _ _ _ (window_eq _ _ _ Hwin)).
    destruct (DROPDOWN_MENU <=? get_window_type win).
    + exists st. split; [reflexivity | exact Hinv].
    + apply invariant_refreshWindows, Hinv.
  - apply invariant_refreshWindows, Hinv.
Qed.

Lemma invariant_enableRefresh st (b : bool) :
  invariant st -> invariant (upd_this (assign_enableRefresh b) st).
Proof.
  intros Hinv. apply (invariant_frame st); try reflexivity; [exact Hinv|].
  destruct Hinv as [Hp _]. exact Hp.
Qed.

Lemma invariant_on_hiding st :
  invariant st -> exists st', on_hiding st = Some (tt, st') /\ invariant st'.
Proof.
  intros Hinv. unfold on_hiding, bind at 1, modify at 1.
  apply invariant_refreshWindows, invariant_enableRefresh, Hinv.
Qed.

(** The main loop, idle: at most one pass runs, it does not throw, and
    nothing is pending afterwards. *)
Lemma invariant_idle st :
  invariant st ->
  exists passes st',
    idle st = Some (passes, st')
    /\ invariant st'
    /\ nothing_pending st'
    /\ (match _activate_window_ID (this st) with
        | Some _ => exists cw, passes = [cw]
        | None => passes = []
        end).
Proof.
  intros Hinv. pose proof Hinv as (Hp & _ & _ & _ & Htab & _).
  unfold pending_ok in Hp.
  destruct (_activate_window_ID (this st)) as [id|] eqn:E.
  - destruct Hp as [cw Hs]. eexists [cw], _.
    split; [eapply idle_single; [exact Hs | apply refresh_pass_eq | reflexivity]|].
    + apply invariant_has_record, Hinv.
    + exact Htab.
    + split; [|split; [split; reflexivity | exists cw; reflexivity]].
      apply (invariant_frame st); try reflexivity. exact Hinv.
  - exists [], st. split; [unfold idle, bind, gets; rewrite Hp; reflexivity|].
    split; [exact Hinv|]. split; [split; assumption | reflexivity].
Qed.

Lemma invariant_enable st :
  invariant st -> admissible st Enable ->
  exists st', enable st = Some (tt, st') /\ invariant st'.
Proof.
  intros Hinv (E1 & E2 & E3 & E4 & E5).
  destruct (_isX11 (this st)) eqn:HX.
  - exists st. split; [apply x11_noop, HX | exact Hinv].
  - exists (enabled st). split; [apply enable_eq, HX|].
    destruct Hinv as (Hp & Hnd & Hin & Hok & Htab & Hwm & Hov).
    rewrite E1, E2, E3 in Hwm. rewrite E4, E5 in Hov. cbn in Hwm, Hov.
    split; [exact Hp|]. split; [exact Hnd|]. split; [exact Hin|].
    split; [exact Hok|]. split; [exact Htab|].
    split; cbn; rewrite ?Hwm, ?Hov; reflexivity.
Qed.

(** The state [disable] leaves on a Wayland compositor. *)
Lemma disabled_state st :
  _isX11 (this st) = false ->
  pending_ok st -> registry_ok st -> subscriptions_ok st ->
  exists st1 h',
    st1 = unsubscribed
            (upd_this (assign_windowList [])
               (with_heap_log h'
                  (flat_map (teardown_calls (windows (env st)))
                     (_windowList (this st)))
                  (cancelled st)))
    /\ disable st = Some (tt, st1)
    /\ (forall w, w ∈ _windowList (this st) ->
          exists win ding id,
            windows (env st) !! w = Some win
            /\ customJS_ding win = Some ding
            /\ ManageWindow.unmanagedID ding = Some id
            /\ h' !! w = Some (torn_down win ding id))
    /\ (forall w, w ∉ _windowList (this st) -> h' !! w = windows (env st) !! w)
    /\ sources (env st1) = []
    /\ window_manager (env st1) = []
    /\ overview (env st1) = []
    /\ this st1
       = assign_wayland_client (_wayland_client (this st))
           (assign_enableRefresh (_enableRefresh (this st)) (constructor true)).
Proof.
  intros HX Hp Hreg [Hwm Hov].
  destruct (disable_eq st HX Hreg) as (h' & Hrun & Hin & Hout).
  pose proof (cancelled_sources st Hp) as Hsrc.
  assert (Hids : _idMap (this (cancelled st)) = _idMap (this st)
                 /\ _idDestroy (this (cancelled st)) = _idDestroy (this st)
                 /\ _switchWorkspaceId (this (cancelled st)) = _switchWorkspaceId (this st)
                 /\ _showingId (this (cancelled st)) = _showingId (this st)
                 /\ _hidingId (this (cancelled st)) = _hidingId (this st)
                 /\ window_manager (env (cancelled st)) = window_manager (env st)
                 /\ overview (env (cancelled st)) = overview (env st)
                 /\ _wayland_client (this (cancelled st)) = _wayland_client (this st)
                 /\ _enableRefresh (this (cancelled st)) = _enableRefresh (this st)
                 /\ _isX11 (this (cancelled st)) = _isX11 (this st)
                 /\ _activate_window_ID (this (cancelled st)) = None).
  { unfold cancelled. destruct (_activate_window_ID (this st)) eqn:E;
      repeat split; try reflexivity; exact E. }
  destruct Hids as (I1 & I2 & I3 & I4 & I5 & I6 & I7 & I8 & I9 & I10 & I11).
  eexists _, h'. split; [reflexivity|]. split; [exact Hrun|].
  split; [exact Hin|]. split; [exact Hout|].
  split; [exact Hsrc|].
  split; [simpl; rewrite I1, I2, I3, I6, Hwm; apply release_tables_wm|].
  split; [simpl; rewrite I4, I5, I7, Hov; apply release_tables_overview|].
  simpl. unfold assign_hidingId. simpl. rewrite I8, I9, I10, I11, HX. reflexivity.
Qed.

Lemma invariant_disable st :
  invariant st -> exists st', disable st = Some (tt, st') /\ invariant st'.
Proof.
  intros Hinv. destruct (_isX11 (this st)) eqn:HX.
  - exists st. split; [apply x11_noop, HX | exact Hinv].
  - pose proof (invariant_registry_ok st Hinv) as Hreg.
    pose proof Hinv as (Hp & Hnd & Hin & Hok & Htab & Hsub).
    destruct (disabled_state st HX Hp Hreg Hsub)
      as (st1 & h' & Hst1 & Hrun & Hin' & Hout' & Hsrc & Hwm & Hov & Hthis).
    exists st1. split; [exact Hrun|].
    assert (Hheap : windows (env st1) = h') by (rewrite Hst1; reflexivity).
    assert (Htabl : get_tab_list (env st1) = get_tab_list (env st)).
    { rewrite Hst1. cbn. unfold cancelled.
      destruct (_activate_window_ID (this st)); reflexivity. }
    unfold invariant, pending_ok, tab_list_ok, subscriptions_ok.
    rewrite Hheap, Htabl, Hsrc, Hwm, Hov, Hthis. cbn.
    split; [reflexivity|]. split; [apply NoDup_nil_2|].
    split; [intros w Hw; inversion Hw|]. split; [|split; [|split; reflexivity]].
    + intros v winv Hv. destruct (decide (v ∈ _windowList (this st))) as [Hl|Hl].
      * destruct (Hin' v Hl) as (win & ding & id & H1 & H2 & H3 & H4).
        rewrite H4 in Hv. injection Hv as <-.
        pose proof (Hok v win H1) as Hokv. unfold window_ok in Hokv.
        rewrite H2 in Hokv. destruct Hokv as [_ Hh].
        destruct (torn_down_no_handler win ding id Hh H3) as [Hth Htd].
        unfold window_ok. rewrite Htd. split; [intros H; inversion H | exact Hth].
      * rewrite (Hout' v Hl) in Hv.
        pose proof (Hok v winv Hv) as Hokv. unfold window_ok in *.
        destruct (customJS_ding winv); destruct Hokv as [H1 H2].
        -- contradiction.
        -- split; [intros H; inversion H | exact H2].
    + eapply Forall_impl; [exact Htab|]. intros v [winv Hv].
      destruct (decide (v ∈ _windowList (this st))) as [Hl|Hl].
      * destruct (Hin' v Hl) as (? & ? & ? & _ & _ & _ & H4). rewrite H4. eauto.
      * rewrite (Hout' v Hl). eauto.
Qed.

(** A loop that updates each window of a list in place. *)
Lemma update_loop (f : MetaWindow -> MetaWindow) (l : list positive) st :
  NoDup l ->
  (forall w, w ∈ l -> is_Some (windows (env st) !! w)) ->
  exists h',
    for_of l (fun w => update_window w f) st
    = Some (tt, upd_env (with_windows h') st)
    /\ (forall v, h' !! v
                  = if decide (v ∈ l) then f <$> windows (env st) !! v
                    else windows (env st) !! v).
Proof.
  revert st. induction l as [|w l IH]; intros st Hnd Hin.
  - exists (windows (env st)). split.
    + destruct st as [o e]. destruct e. reflexivity.
    + intros v. rewrite decide_False by (intros H; inversion H). reflexivity.
  - apply NoDup_cons in Hnd as [Hw Hnd].
    destruct (Hin w) as [win Hwin]; [left|].
    pose proof (update_window_eq w f st win Hwin) as Hstep.
    set (st1 := upd_env (with_windows (<[w := f win]> (windows (env st)))) st) in *.
    destruct (IH st1 Hnd) as (h' & Hrun & Hh').
    { intros v Hv. cbn. destruct (decide (v = w)) as [->|Hne].
      - rewrite lookup_insert_eq. eauto.
      - rewrite lookup_insert_ne by congruence. apply Hin. right. exact Hv. }
    exists h'. split.
    + rewrite for_of_cons, (bind_Some _ _ _ _ _ Hstep), Hrun. reflexivity.
    + intros v. rewrite Hh'. cbn. destruct (decide (v = w)) as [->|Hne].
      * rewrite decide_False by exact Hw. rewrite decide_True by left.
        rewrite lookup_insert_eq, Hwin. reflexivity.
      * rewrite lookup_insert_ne by congruence.
        destruct (decide (v ∈ l)) as [Hl|Hl].
        -- rewrite decide_True by (right; exact Hl). reflexivity.
        -- rewrite decide_False; [reflexivity|].
           intros H. apply elem_of_cons in H as [H|H]; contradiction.
Qed.

Lemma similar_refl (a : MetaWindow) : similar a a.
Proof. split; reflexivity. Qed.

Lemma similar_client (a : MetaWindow) (client : bool) :
  similar a (with_customJS_ding
               (option_map (ManageWindow.set_wayland_client client) (customJS_ding a)) a).
Proof.
  split; [reflexivity|]. cbn. destruct (customJS_ding a); reflexivity.
Qed.

(** [set_wayland_client] reaches the record of every listed window. *)
Lemma set_wayland_client_eq st (client : bool) :
  invariant st ->
  exists h',
    set_wayland_client client st
    = Some (tt, upd_env (with_windows h')
                  (upd_this (assign_wayland_client client) st))
    /\ (forall v,
          h' !! v
          = if decide (v ∈ _windowList (this st))
            then (fun win =>
                    with_customJS_ding
                      (option_map (ManageWindow.set_wayland_client client)
                         (customJS_ding win)) win) <$> windows (env st) !! v
            else windows (env st) !! v).
Proof.
  intros (_ & Hnd & Hin & _).
  unfold set_wayland_client, bind at 1, modify at 1. unfold bind at 1, gets at 1.
  apply (update_loop _ _ (upd_this (assign_wayland_client client) st)); assumption.
Qed.

Lemma invariant_set_wayland_client st (client : bool) :
  invariant st ->
  exists st', set_wayland_client client st = Some (tt, st') /\ invariant st'.
Proof.
  intros Hinv. destruct (set_wayland_client_eq st client Hinv) as (h' & Hrun & Hh').
  eexists. split; [exact Hrun|].
  destruct Hinv as (Hp & Hnd & Hin & Hok & Htab & Hsub).
  split; [exact Hp|]. split; [exact Hnd|]. unfold tab_list_ok. cbn.
  split; [|split; [|split; [|exact Hsub]]].
  - intros v Hv. rewrite Hh', decide_True by exact Hv.
    destruct (Hin v Hv) as [win ->]. cbn. eauto.
  - intros v winv Hv. rewrite Hh' in Hv.
    destruct (decide (v ∈ _windowList (this st))).
    + destruct (windows (env st) !! v) as [a|] eqn:Ha; [|discriminate].
      cbn in Hv. injection Hv as <-.
      apply (window_ok_similar _ _ a); [apply similar_client | apply Hok, Ha].
    + apply Hok, Hv.
  - eapply Forall_impl; [exact Htab|]. intros v [winv Hv]. rewrite Hh', Hv.
    destruct (decide _); cbn; eauto.
Qed.

Lemma invariant_update_window st w (a : MetaWindow) (f : MetaWindow -> MetaWindow) :
  invariant st -> windows (env st) !! w = Some a -> similar a (f a) ->
  exists st',
    update_window w f st = Some (tt, st') /\ invariant st'
    /\ is_Some (windows (env st') !! w).
Proof.
  intros Hinv Hw Hsim.
  exists (mk (this st) (<[w := f a]> (windows (env st))) (sources (env st))
            (next_id (env st)) [] st).
  split; [|split].
  - rewrite <- (mk_self st) at 1. apply mk_update_window, Hw.
  - apply (invariant_update st w a); try reflexivity; try assumption.
    destruct Hinv as [Hp _]. exact Hp.
  - cbn. rewrite lookup_insert_eq. eauto.
Qed.

Lemma invariant_deliver st (ev : event) :
  invariant st -> admissible st (Deliver ev) ->
  exists st', deliver ev st = Some (tt, st') /\ invariant st'.
Proof.
  intros Hinv Hadm. pose proof Hinv as (_ & _ & _ & _ & _ & Hsub).
  destruct ev as [w|window'| | | |w s|w title|]; cbn [deliver admissible] in *.
  - apply (invariant_table_emit st _ Map _ (_idMap (this st)));
      [apply (wm_connections st Map Hsub) | exact Hinv |].
    apply invariant_on_map; assumption.
  - apply (invariant_table_emit st _ Destroy _ (_idDestroy (this st)));
      [apply (wm_connections st Destroy Hsub) | exact Hinv |].
    apply invariant_on_destroy; [exact Hinv|]. intros w ->. exact Hadm.
  - apply (invariant_table_emit st _ SwitchWorkspace _ (_switchWorkspaceId (this st)));
      [apply (wm_connections st SwitchWorkspace Hsub) | exact Hinv |].
    apply invariant_refreshWindows, Hinv.
  - apply (invariant_table_emit st _ Showing _ (_showingId (this st)));
      [apply (overview_connections st Showing Hsub) | exact Hinv |].
    eexists. split; [reflexivity|]. apply invariant_enableRefresh, Hinv.
  - apply (invariant_table_emit st _ Hiding _ (_hidingId (this st)));
      [apply (overview_connections st Hiding Hsub) | exact Hinv |].
    apply invariant_on_hiding, Hinv.
  - apply invariant_window_emit; assumption.
  - destruct Hadm as [a Ha].
    destruct (invariant_update_window st w a (with_get_title title) Hinv Ha)
      as (st1 & Hrun1 & Hinv1 & Hw1); [split; reflexivity|].
    destruct (invariant_window_emit st1 w NotifyTitle Hinv1 Hw1) as (st2 & Hrun2 & Hinv2).
    exists st2. split; [|exact Hinv2].
    rewrite (bind_Some _ _ _ _ _ Hrun1). exact Hrun2.
  - destruct (invariant_idle st Hinv) as (passes & st' & Hrun & Hinv' & _).
    exists st'. split; [|exact Hinv'].
    rewrite (bind_Some _ _ _ _ _ Hrun). reflexivity.
Qed.

End Registry.
(** ** The registry over the life of the object *)

Section Life.

Lemma invariant_step st (op : operation) :
  invariant st -> admissible st op ->
  exists st', perform_operation op st = Some (tt, st') /\ invariant st'.
Proof.
  intros Hinv Hadm. destruct op as [ev| | |hd|client]; cbn [perform_operation].
  - apply invariant_deliver; assumption.
  - apply invariant_enable; assumption.
  - apply invariant_disable; assumption.
  - destruct (_isX11 (this st)) eqn:HX.
    + exists st. split; [|exact Hinv]. unfold addWindow, bind, gets. rewrite HX. reflexivity.
    + destruct Hadm as (win & Hw & Hd). eexists. split; [apply addWindow_eq; eassumption|].
      apply invariant_added; assumption.
  - apply invariant_set_wayland_client; assumption.
Qed.

Lemma invariant_run (ops : list operation) st :
  invariant st -> admissible_run st ops ->
  exists st', for_of ops perform_operation st = Some (tt, st') /\ invariant st'.
Proof.
  revert st. induction ops as [|op ops IH]; intros st Hinv Hadm.
  - exists st. split; [reflexivity | exact Hinv].
  - destruct Hadm as [Hop Hrest].
    destruct (invariant_step st op Hinv Hop) as (st1 & Hrun & Hinv1).
    destruct (IH st1 Hinv1 (Hrest st1 Hrun)) as (st2 & Hrun2 & Hinv2).
    exists st2. split; [|exact Hinv2].
    rewrite for_of_cons, (bind_Some _ _ _ _ _ Hrun). exact Hrun2.
Qed.

Lemma invariant_start (is_wayland_compositor : bool) (e : Env) :
  clean_env e -> invariant (start is_wayland_compositor e).
Proof.
  intros (Hwin & Hwm & Hov & Hsrc & Htab).
  split; [exact Hsrc|]. split; [apply NoDup_nil_2|].
  split; [intros w Hw; inversion Hw|]. split; [|split; [exact Htab|]].
  - intros w win Hw. destruct (Hwin w win Hw) as [Hd Hh].
    unfold window_ok. rewrite Hd. split; [intros H; inversion H | exact Hh].
  - split; cbn; assumption.
Qed.

Lemma sample_env_clean : clean_env sample_env.
Proof.
  split; [|repeat split].
  - intros w win Hw. cbn in Hw.
    apply lookup_insert_Some in Hw as [[_ <-]|[_ Hw]]; [split; reflexivity|].
    apply lookup_insert_Some in Hw as [[_ <-]|[_ Hw]]; [split; reflexivity|].
    rewrite lookup_empty in Hw. discriminate.
  - cbn. repeat constructor; eexists; vm_compute; reflexivity.
Qed.

Lemma sample_ops_admissible : admissible_run (start true sample_env) sample_ops.
Proof.
  split; [exact I|]. intros st1 H1. vm_compute in H1. injection H1 as <-.
  split; [repeat split|]. intros st2 H2. vm_compute in H2. injection H2 as <-.
  split; [eexists; split; [vm_compute; reflexivity | reflexivity]|].
  intros st3 H3. vm_compute in H3. injection H3 as <-.
  split; [eexists; split; [vm_compute; reflexivity | reflexivity]|].
  intros st4 H4. exact I.
Qed.

Lemma sample_state_run :
  for_of sample_ops perform_operation (start true sample_env) = Some (tt, sample_state).
Proof. vm_compute. reflexivity. Qed.

Lemma sample_state_invariant : invariant sample_state.
Proof.
  destruct (invariant_run sample_ops (start true sample_env)
              (invariant_start true sample_env sample_env_clean)
              sample_ops_admissible) as (st' & Hrun & Hinv).
  rewrite sample_state_run in Hrun. injection Hrun as <-. exact Hinv.
Qed.

(** X8: a new object in a clean environment keeps its registry
    consistent.  Whatever the methods called and the events delivered,
    as long as a window is added or mapped only while it has no record
    and [enable] is called only while the object holds no subscription,
    no call throws, and afterwards: at most the one idle source of the
    handle is pending; each window of [_windowList] is listed once and
    carries a record; a window carries a record exactly when it is
    listed, with the five handlers of the record and no other; and the
    compositor-wide handlers are those of the five ids. *)
Theorem registry_invariant (is_wayland_compositor : bool) (e : Env)
    (ops : list operation) :
  clean_env e ->
  admissible_run (start is_wayland_compositor e) ops ->
  exists st',
    for_of ops perform_operation (start is_wayland_compositor e) = Some (tt, st')
    /\ invariant st'.
Proof.
  intros Hclean Hadm. apply invariant_run; [|exact Hadm].
  apply invariant_start, Hclean.
Qed.

Lemma registry_invariant_witness :
  exists st',
    for_of sample_ops perform_operation (start true sample_env) = Some (tt, st')
    /\ invariant st'.
Proof.
  apply (registry_invariant true sample_env sample_ops).
  - exact sample_env_clean.
  - exact sample_ops_admissible.
Defined.

Lemma sample_enabled_invariant : invariant sample_enabled.
Proof.
  destruct (invariant_run [SetWaylandClient true; Enable] (start true sample_env)
              (invariant_start true sample_env sample_env_clean))
    as (st' & Hrun & Hinv).
  - split; [exact I|]. intros st1 H1. vm_compute in H1. injection H1 as <-.
    split; [repeat split|]. intros st2 _. exact I.
  - assert (E : for_of [SetWaylandClient true; Enable] perform_operation
                  (start true sample_env) = Some (tt, sample_enabled))
      by (vm_compute; reflexivity).
    rewrite E in Hrun. injection Hrun as <-. exact Hinv.
Qed.

End Life.
(** ** What a refresh pass does to the windows *)

Section PassMore.

Lemma flat_map_refresh_false (h : gmap positive MetaWindow) (l : list positive) :
  flat_map
    (fun w =>
       match h !! w with
       | Some win =>
           match customJS_ding win with
           | Some ding =>
               map (OnWindow w)
                 (ManageWindow.refreshState ding false (located_on_workspace win))
           | None => []
           end
       | None => []
       end) l
  = map (fun w => OnWindow w ManageWindow.Lower) (List.filter (bottom_pinned h) l).
Proof.
  induction l as [|w l IH]; [reflexivity|].
  cbn [flat_map List.filter]. rewrite IH. unfold bottom_pinned at 2.
  destruct (h !! w) as [win|]; [|reflexivity].
  destruct (customJS_ding win) as [ding|]; [|reflexivity].
  unfold ManageWindow.refreshState. cbn.
  destruct (ManageWindow._keepAtBottom ding); reflexivity.
Qed.

Lemma workspace_changes_app (cs1 cs2 : list call) :
  workspace_changes (cs1 ++ cs2) = (workspace_changes cs1 ++ workspace_changes cs2)%list.
Proof. apply omap_app. Qed.

Lemma lowered_app (cs1 cs2 : list call) :
  lowered (cs1 ++ cs2) = (lowered cs1 ++ lowered cs2)%list.
Proof. apply omap_app. Qed.

Lemma activation_calls_no_window_call st :
  workspace_changes (activation_calls st) = []
  /\ lowered (activation_calls st) = [].
Proof.
  unfold activation_calls.
  destruct (find _ (get_tab_list (env st))); [split; reflexivity|].
  destruct (find _ (_windowList (this st))); split; reflexivity.
Qed.

Lemma refresh_calls_true st :
  workspace_changes (refresh_calls st true)
  = List.filter (sticky_away (windows (env st))) (_windowList (this st))
  /\ lowered (refresh_calls st true)
     = List.filter (bottom_pinned (windows (env st))) (_windowList (this st)).
Proof.
  unfold refresh_calls. induction (_windowList (this st)) as [|w l [IH1 IH2]];
    [split; reflexivity|].
  cbn [flat_map List.filter]. rewrite workspace_changes_app, lowered_app, IH1, IH2.
  unfold sticky_away at 2, bottom_pinned at 2.
  destruct (windows (env st) !! w) as [win|]; [|split; reflexivity].
  destruct (customJS_ding win) as [ding|]; [|split; reflexivity].
  unfold ManageWindow.refreshState. cbn.
  destruct (ManageWindow._showInAllDesktops ding), (located_on_workspace win),
    (ManageWindow._keepAtBottom ding); split; reflexivity.
Qed.

(** X9: a refresh pass that does not check the workspace (the one a
    ["map"] queues) only lowers: with refresh enabled it calls [lower] on
    each bottom-pinned window of [_windowList], in the order of the list,
    and makes no other call; it activates no window and moves none to
    another workspace.  It changes no window object and not the list. *)
Theorem pass_without_workspace_check st :
  _enableRefresh (this st) = true ->
  Forall (has_record st) (_windowList (this st)) ->
  tab_list_ok st ->
  exists st',
    refresh_pass false st = Some (tt, st')
    /\ new_calls st st'
       = map (fun w => OnWindow w ManageWindow.Lower)
           (List.filter (bottom_pinned (windows (env st))) (_windowList (this st)))
    /\ windows (env st') = windows (env st)
    /\ _windowList (this st') = _windowList (this st).
Proof.
  intros Hen Hreg Htab. eexists. split; [apply refresh_pass_eq; assumption|].
  split; [|split; reflexivity].
  rewrite new_calls_add_log. unfold pass_calls. rewrite Hen, app_nil_r.
  apply flat_map_refresh_false.
Qed.

Lemma pass_without_workspace_check_witness :
  _enableRefresh (this scenario) = true
  /\ Forall (has_record scenario) (_windowList (this scenario))
  /\ tab_list_ok scenario
  /\ exists st',
       refresh_pass false scenario = Some (tt, st')
       /\ new_calls scenario st' = [OnWindow 1%positive ManageWindow.Lower].
Proof.
  assert (H1 : Forall (has_record scenario) (_windowList (this scenario))).
  { repeat constructor. eexists _, _. split; vm_compute; reflexivity. }
  assert (H2 : tab_list_ok scenario).
  { repeat constructor; eexists; vm_compute; reflexivity. }
  split; [reflexivity|]. split; [exact H1|]. split; [exact H2|].
  destruct (pass_without_workspace_check scenario eq_refl H1 H2)
    as (st' & Hrun & Hcalls & _).
  exists st'. split; [exact Hrun|]. rewrite Hcalls. vm_compute. reflexivity.
Defined.

(** X10: a refresh pass that checks the workspace, with refresh enabled,
    moves to the active workspace exactly the windows of [_windowList]
    that are shown on all workspaces and are not on the active one, and
    lowers exactly the bottom-pinned ones, each in the order of the
    list.  It changes no window object and not the list. *)
Theorem sticky_windows_follow st :
  _enableRefresh (this st) = true ->
  Forall (has_record st) (_windowList (this st)) ->
  tab_list_ok st ->
  exists st',
    refresh_pass true st = Some (tt, st')
    /\ workspace_changes (new_calls st st')
       = List.filter (sticky_away (windows (env st))) (_windowList (this st))
    /\ lowered (new_calls st st')
       = List.filter (bottom_pinned (windows (env st))) (_windowList (this st))
    /\ windows (env st') = windows (env st)
    /\ _windowList (this st') = _windowList (this st).
Proof.
  intros Hen Hreg Htab. eexists. split; [apply refresh_pass_eq; assumption|].
  rewrite new_calls_add_log. unfold pass_calls. rewrite Hen.
  rewrite workspace_changes_app, lowered_app.
  destruct (activation_calls_no_window_call st) as [-> ->].
  destruct (refresh_calls_true st) as [-> ->]. rewrite !app_nil_r.
  repeat split; reflexivity.
Qed.

Lemma sticky_windows_follow_witness :
  _enableRefresh (this sticky_scenario) = true
  /\ Forall (has_record sticky_scenario) (_windowList (this sticky_scenario))
  /\ tab_list_ok sticky_scenario
  /\ exists st',
       refresh_pass true sticky_scenario = Some (tt, st')
       /\ workspace_changes (new_calls sticky_scenario st') = [1%positive]
       /\ lowered (new_calls sticky_scenario st') = [1%positive].
Proof.
  assert (H1 : Forall (has_record sticky_scenario) (_windowList (this sticky_scenario))).
  { repeat constructor; eexists _, _; split; vm_compute; reflexivity. }
  assert (H2 : tab_list_ok sticky_scenario).
  { repeat constructor; eexists; vm_compute; reflexivity. }
  split; [reflexivity|]. split; [exact H1|]. split; [exact H2|].
  destruct (sticky_windows_follow sticky_scenario eq_refl H1 H2)
    as (st' & Hrun & Hws & Hlow & _).
  exists st'. split; [exact Hrun|]. rewrite Hws, Hlow. split; vm_compute; reflexivity.
Defined.

End PassMore.
(** ** Adding, mapping and removing windows *)

Section RegistryMore.

Lemma bind_None {A B : Type} (m : M A) (k : A -> M B) (st : State) :
  m st = None -> bind m k st = None.
Proof. intros H. unfold bind. rewrite H. reflexivity. Qed.

Lemma new_calls_same st st' :
  log (env st') = log (env st) -> new_calls st st' = [].
Proof. intros H. unfold new_calls. rewrite H. apply drop_all. Qed.

Lemma table_emit_single st (table : State -> list (positive * signal))
    (s : signal) (handler : M unit) (id : positive) st' :
  filter (fun e => e.2 = s) (table st) = [(id, s)] ->
  handler st = Some (tt, st') ->
  table_emit table s handler st = Some (tt, st').
Proof.
  intros Hf Hrun. unfold table_emit, bind at 1, gets at 1. rewrite Hf.
  cbn [for_of]. rewrite (bind_Some _ _ _ _ _ Hrun). reflexivity.
Qed.

Lemma table_emit_none st (table : State -> list (positive * signal))
    (s : signal) (handler : M unit) :
  table st = [] -> table_emit table s handler st = Some (tt, st).
Proof.
  intros Hf. unfold table_emit, bind at 1, gets at 1. rewrite Hf. reflexivity.
Qed.

Lemma directive_of_fields (a b : ManageWindow.t) :
  same_fields a b -> directive_of a = directive_of b.
Proof.
  intros (H1 & H2 & H3 & H4 & H5 & H6 & H7). unfold directive_of.
  rewrite H1, H2, H3, H4, H5, H6, H7. reflexivity.
Qed.

(** X11: [addWindow] on a Wayland compositor, for a window actor or a
    window alike: the window is appended to [_windowList], also when it
    is listed already; it gets a new record that holds the Directive
    decoded from its title and the client of the object; five handlers
    are connected to it after those it has, for ["raised"],
    ["position-changed"], ["notify::title"], ["notify::above"] and
    ["unmanaged"] in this order, under the ids the record holds; and no
    other window object changes. *)
Theorem addWindow_registers st (hd : handle) win :
  _isX11 (this st) = false ->
  windows (env st) !! window_of hd = Some win ->
  exists st' ding hs,
    addWindow hd st = Some (tt, st')
    /\ _windowList (this st') = (_windowList (this st) ++ [window_of hd])%list
    /\ windows (env st') !! window_of hd
       = Some (with_customJS_ding (Some ding)
                 (with_handlers (handlers win ++ hs)%list win))
    /\ handlers_of ding = Some hs
    /\ hs.*2 = [Raised; PositionChanged; NotifyTitle; NotifyAbove; Unmanaged]
    /\ (forall this0, directive_of ding = decode this0 (get_title win))
    /\ ManageWindow._wayland_client ding = _wayland_client (this st)
    /\ (forall v, v <> window_of hd ->
          windows (env st') !! v = windows (env st) !! v).
Proof.
  intros HX Hw.
  set (n := next_id (env st)).
  set (ids := [n; Pos.succ n; Pos.succ (Pos.succ n); Pos.succ (Pos.succ (Pos.succ n))]).
  set (p := fst (ManageWindow._parseTitle
                   (ManageWindow.fresh (_wayland_client (this st)) ids)
                   (get_title win))).
  set (k := if queues_refresh (get_title win) (this st)
            then Pos.succ (Pos.succ (Pos.succ (Pos.succ (Pos.succ n))))
            else Pos.succ (Pos.succ (Pos.succ (Pos.succ n)))).
  destruct (_parseTitle_same_frame
              (ManageWindow.fresh (_wayland_client (this st)) ids) (get_title win))
    as (Hc & Hs & _). fold p in Hc, Hs.
  exists (added (window_of hd) win (this st) (windows (env st)) (sources (env st))
            n [] st),
    (ManageWindow.set_unmanagedID k p),
    [(n, Raised); (Pos.succ n, PositionChanged);
     (Pos.succ (Pos.succ n), NotifyTitle);
     (Pos.succ (Pos.succ (Pos.succ n)), NotifyAbove); (k, Unmanaged)].
  split; [apply addWindow_eq; eassumption|].
  unfold added. cbv zeta.
  split; [destruct (queues_refresh _ _); reflexivity|].
  split; [cbn [mk env windows]; apply lookup_insert_eq|].
  split; [|split; [reflexivity|split; [|split]]].
  - unfold handlers_of. cbn [ManageWindow.set_unmanagedID ManageWindow._signalIDs
                              ManageWindow.unmanagedID].
    rewrite Hs. reflexivity.
  - intros this0. unfold decode.
    transitivity (directive_of p); [reflexivity|].
    apply directive_of_fields, _parseTitle_same_fields.
  - exact Hc.
  - intros v Hv. cbn [mk env windows]. apply lookup_insert_ne. congruence.
Qed.

Lemma addWindow_registers_witness :
  exists st' ding,
    addWindow (Actor 1%positive) (start true sample_env) = Some (tt, st')
    /\ _windowList (this st') = [1%positive]
    /\ (customJS_ding <$> windows (env st') !! 1%positive) = Some (Some ding)
    /\ directive_of ding
       = decode (ManageWindow.fresh false []) (Some "@!0,0;BT").
Proof.
  destruct (addWindow_registers (start true sample_env) (Actor 1%positive)
              (sample_window (Some "@!0,0;BT") false None) eq_refl eq_refl)
    as (st' & ding & hs & Hrun & Hl & Hw & _ & _ & Hd & _).
  exists st', ding. split; [exact Hrun|]. split; [exact Hl|].
  split; [cbn in Hw; rewrite Hw; reflexivity | apply Hd].
Defined.

(** X12: what a ["map"] does once [enable] has run, for a window without
    a record, when no refresh is pending.  The window is added exactly
    when the client is set and the window belongs to it.  One idle source
    is queued; its pass checks the workspace exactly when the window was
    added and its title is not [null]: the refresh the new record asks
    for comes first, and the one of the ["map"] handler is dropped. *)
Theorem map_event_refresh st w win (idMap : positive) :
  invariant st ->
  _isX11 (this st) = false ->
  _idMap (this st) = Some idMap ->
  nothing_pending st ->
  windows (env st) !! w = Some win ->
  customJS_ding win = None ->
  let adopted := _wayland_client (this st) && belongs_to win in
  exists st' id,
    deliver (MapEvent w) st = Some (tt, st')
    /\ _windowList (this st')
       = (_windowList (this st) ++ (if adopted then [w] else []))%list
    /\ _activate_window_ID (this st') = Some id
    /\ sources (env st')
       = [(id, (PRIORITY_LOW, adopted && bool_decide (is_Some (get_title win))))].
Proof.
  intros Hinv HX Hid [Hfree Hsrc] Hw Hd adopted.
  pose proof Hinv as (_ & _ & _ & _ & _ & Hsub).
  pose proof (wm_connections st Map Hsub) as Hconn. rewrite Hid in Hconn.
  cbn [opt_handler] in Hconn.
  assert (Hmap : exists st' id,
            on_map w st = Some (tt, st')
            /\ _windowList (this st')
               = (_windowList (this st) ++ (if adopted then [w] else []))%list
            /\ _activate_window_ID (this st') = Some id
            /\ sources (env st')
               = [(id, (PRIORITY_LOW,
                        adopted && bool_decide (is_Some (get_title win))))]).
  { unfold on_map. rewrite (bind_Some _ _ _ _ _ (window_eq _ _ _ Hw)).
    unfold bind at 1, gets at 1. fold adopted.
    destruct adopted; unfold when.
    - rewrite (bind_Some _ _ _ _ _ (addWindow_eq st (Window w) win HX Hw)).
      unfold added. cbv zeta. rewrite mk_refreshWindows.
      unfold queues_refresh. rewrite Hfree, Hsrc.
      rewrite (bool_decide_eq_false_2 (is_Some None)) by (intros [? ?]; discriminate).
      rewrite andb_true_r. cbn [negb andb].
      destruct (bool_decide (is_Some (get_title win)));
        cbn [_activate_window_ID assign_windowList assign_activate_window_ID];
        rewrite ?Hfree;
        eexists _, _; (split; [reflexivity|]);
        (split; [reflexivity|]); split; reflexivity.
    - unfold bind at 1, ret at 1.
      pose proof (mk_refreshWindows (this st) (windows (env st)) (sources (env st))
                    (next_id (env st)) [] st false) as Hr.
      rewrite mk_self, Hfree, Hsrc in Hr.
      eexists _, _. split; [exact Hr|]. cbn. rewrite app_nil_r.
      repeat split; reflexivity. }
  destruct Hmap as (st' & id & Hrun & H1 & H2 & H3).
  exists st', id. split; [|repeat split; assumption].
  apply (table_emit_single st _ Map _ idMap); assumption.
Qed.

Lemma map_event_refresh_witness :
  exists st' id,
    deliver (MapEvent 2%positive) sample_enabled = Some (tt, st')
    /\ _windowList (this st') = [2%positive]
    /\ _activate_window_ID (this st') = Some id
    /\ sources (env st') = [(id, (PRIORITY_LOW, true))].
Proof.
  apply (map_event_refresh sample_enabled 2%positive
           (sample_window (Some "Clock ") false None) 1%positive).
  - exact sample_enabled_invariant.
  - reflexivity.
  - reflexivity.
  - split; reflexivity.
  - vm_compute. reflexivity.
  - reflexivity.
Defined.

Lemma MetaWindow_eq (a b : MetaWindow) :
  get_title a = get_title b -> minimized a = minimized b -> above a = above b ->
  get_window_type a = get_window_type b ->
  located_on_workspace a = located_on_workspace b ->
  belongs_to a = belongs_to b -> handlers a = handlers b ->
  customJS_ding a = customJS_ding b -> a = b.
Proof.
  destruct a, b. cbn. intros; subst. reflexivity.
Qed.

Lemma filter_other (w : positive) (l : list positive) :
  w ∉ l -> filter (fun item => item ≠ w) l = l.
Proof.
  intros Hw. induction l as [|v l IH]; [reflexivity|].
  apply not_elem_of_cons in Hw as [Hne Hw].
  rewrite filter_cons_True by congruence. rewrite (IH Hw). reflexivity.
Qed.

(** X15: adding a window and then losing it is a round trip.  When a
    window without a record is added on a Wayland compositor, it carries
    the record and the five handlers of the record, under the ids the
    record holds.  When the window then emits ["unmanaged"], the handler
    runs and does not throw; afterwards [_windowList] is what it was and
    every window object is what it was: the record is gone and each of
    the five handlers is disconnected.  The calls of the teardown are, in
    this order: the handler of ["unmanaged"] is disconnected, then those
    of ["raised"], ["position-changed"], ["notify::title"] and
    ["notify::above"], and then [unmake_above] is called exactly when the
    title pinned the window to the top. *)
Theorem addWindow_then_unmanaged st (hd : handle) win :
  invariant st ->
  _isX11 (this st) = false ->
  windows (env st) !! window_of hd = Some win ->
  customJS_ding win = None ->
  exists st1 st2 win1 ding id1 id2 id3 id4 id5,
    addWindow hd st = Some (tt, st1)
    /\ windows (env st1) !! window_of hd = Some win1
    /\ customJS_ding win1 = Some ding
    /\ handlers win1
       = [(id1, Raised); (id2, PositionChanged); (id3, NotifyTitle);
          (id4, NotifyAbove); (id5, Unmanaged)]
    /\ ManageWindow._signalIDs ding = [id1; id2; id3; id4]
    /\ ManageWindow.unmanagedID ding = Some id5
    /\ deliver (WindowEvent (window_of hd) Unmanaged) st1 = Some (tt, st2)
    /\ _windowList (this st2) = _windowList (this st)
    /\ windows (env st2) = windows (env st)
    /\ new_calls st1 st2
       = ([OnWindow (window_of hd) (ManageWindow.Disconnect id5);
           OnWindow (window_of hd) (ManageWindow.Disconnect id1);
           OnWindow (window_of hd) (ManageWindow.Disconnect id2);
           OnWindow (window_of hd) (ManageWindow.Disconnect id3);
           OnWindow (window_of hd) (ManageWindow.Disconnect id4)]
          ++ (if pinTop (decode (ManageWindow.fresh false []) (get_title win))
              then [OnWindow (window_of hd) ManageWindow.UnmakeAbove]
              else []))%list.
Proof.
  intros Hinv HX Hw Hd. set (w := window_of hd) in *.
  pose proof Hinv as (_ & _ & _ & Hok & _).
  pose proof (Hok w win Hw) as Hokw. unfold window_ok in Hokw. rewrite Hd in Hokw.
  destruct Hokw as [Hnl Hh].
  set (n := next_id (env st)).
  set (ids := [n; Pos.succ n; Pos.succ (Pos.succ n); Pos.succ (Pos.succ (Pos.succ n))]).
  set (p := fst (ManageWindow._parseTitle
                   (ManageWindow.fresh (_wayland_client (this st)) ids)
                   (get_title win))).
  set (k := if queues_refresh (get_title win) (this st)
            then Pos.succ (Pos.succ (Pos.succ (Pos.succ (Pos.succ n))))
            else Pos.succ (Pos.succ (Pos.succ (Pos.succ n)))).
  destruct (_parseTitle_same_frame
              (ManageWindow.fresh (_wayland_client (this st)) ids) (get_title win))
    as (_ & Hs & _). fold p in Hs. cbn [ManageWindow.fresh ManageWindow._signalIDs] in Hs.
  set (ding := ManageWindow.set_unmanagedID k p).
  set (hs := [(n, Raised); (Pos.succ n, PositionChanged);
              (Pos.succ (Pos.succ n), NotifyTitle);
              (Pos.succ (Pos.succ (Pos.succ n)), NotifyAbove); (k, Unmanaged)]).
  set (win1 := with_customJS_ding (Some ding) (with_handlers (handlers win ++ hs)%list win)).
  set (st1 := added w win (this st) (windows (env st)) (sources (env st)) n [] st).
  assert (Hw1 : windows (env st1) !! w = Some win1).
  { unfold st1, added. cbv zeta. cbn [mk env windows]. apply lookup_insert_eq. }
  assert (Hheap1 : windows (env st1) = <[w := win1]> (windows (env st))).
  { unfold st1, added. cbv zeta. reflexivity. }
  assert (Hl1 : _windowList (this st1) = (_windowList (this st) ++ [w])%list).
  { unfold st1, added. cbv zeta. destruct (queues_refresh _ _); reflexivity. }
  assert (Hids : ManageWindow._signalIDs ding = ids) by exact Hs.
  assert (Hk : ManageWindow.unmanagedID ding = Some k) by reflexivity.
  assert (Hhw : handlers win1 = hs).
  { unfold win1. cbn [handlers with_customJS_ding with_handlers]. rewrite Hh.
    reflexivity. }
  assert (Hhs : handlers_of ding = Some (handlers win1)).
  { unfold handlers_of. rewrite Hids, Hk, Hhw. reflexivity. }
  assert (Hconn : connected win1 ding Unmanaged = true).
  { unfold connected. apply bool_decide_eq_true_2, Exists_exists.
    exists (k, Unmanaged). split; [|split; [reflexivity|]].
    - rewrite Hhw. do 4 right. left.
    - unfold record_ids. rewrite Hk. cbn. apply elem_of_app. right. left. }
  exists st1. eexists.
  exists win1, ding, n, (Pos.succ n), (Pos.succ (Pos.succ n)),
    (Pos.succ (Pos.succ (Pos.succ n))), k.
  split; [apply addWindow_eq; assumption|].
  split; [exact Hw1|]. split; [reflexivity|]. split; [exact Hhw|].
  split; [exact Hids|]. split; [exact Hk|]. split.
  { cbn [deliver]. unfold window_emit.
    rewrite (bind_Some _ _ _ _ _ (window_eq _ _ _ Hw1)).
    cbn [customJS_ding win1 with_customJS_ding]. fold win1. rewrite Hconn.
    apply (on_unmanaged_eq w st1 win1 ding k Hw1 eq_refl Hk). }
  destruct (torn_down_no_handler win1 ding k Hhs Hk) as [Hth Htd].
  split; [|split].
  - cbn [upd_this this with_heap_log add_log upd_env assign_windowList _windowList].
    rewrite Hl1, filter_app, (filter_other w _ Hnl).
    rewrite filter_cons_False by (intros H; apply H; reflexivity).
    rewrite filter_nil. apply app_nil_r.
  - cbn [upd_this env with_heap_log add_log upd_env with_windows with_log windows].
    rewrite Hheap1, insert_insert_eq.
    assert (E : torn_down win1 ding k = win).
    { apply MetaWindow_eq; try reflexivity.
      - rewrite Hth, Hh. reflexivity.
      - rewrite Htd, Hd. reflexivity. }
    rewrite E. apply insert_id, Hw.
  - unfold new_calls.
    cbn [upd_this env with_heap_log add_log upd_env with_windows with_log log].
    rewrite drop_app_length. unfold teardown_calls. rewrite Hw1.
    cbn [customJS_ding win1 with_customJS_ding]. rewrite Hk.
    unfold ManageWindow.disconnect. rewrite Hids, map_app.
    cbn [map app ids]. f_equal. f_equal. f_equal. f_equal. f_equal.
    assert (Ht : JS.truthy (ManageWindow._keepAtTop ding)
                 = pinTop (decode (ManageWindow.fresh false []) (get_title win))).
    { unfold decode.
      destruct (_parseTitle_same_fields
                  (ManageWindow.fresh (_wayland_client (this st)) ids)
                  (ManageWindow.fresh false []) (get_title win))
        as (_ & _ & _ & Htop & _).
      fold p in Htop. cbn [pinTop directive_of]. rewrite <- Htop. reflexivity. }
    rewrite Ht. destruct (pinTop _); reflexivity.
Qed.

Lemma addWindow_then_unmanaged_witness :
  exists st1 st2 win1 ding,
    addWindow (Window 1%positive) sample_enabled = Some (tt, st1)
    /\ windows (env st1) !! 1%positive = Some win1
    /\ customJS_ding win1 = Some ding
    /\ handlers win1
       = [(6%positive, Raised); (7%positive, PositionChanged);
          (8%positive, NotifyTitle); (9%positive, NotifyAbove);
          (11%positive, Unmanaged)]
    /\ deliver (WindowEvent 1%positive Unmanaged) st1 = Some (tt, st2)
    /\ _windowList (this st2) = []
    /\ windows (env st2) = windows (env sample_enabled)
    /\ new_calls st1 st2
       = [OnWindow 1%positive (ManageWindow.Disconnect 11%positive);
          OnWindow 1%positive (ManageWindow.Disconnect 6%positive);
          OnWindow 1%positive (ManageWindow.Disconnect 7%positive);
          OnWindow 1%positive (ManageWindow.Disconnect 8%positive);
          OnWindow 1%positive (ManageWindow.Disconnect 9%positive);
          OnWindow 1%positive ManageWindow.UnmakeAbove].
Proof.
  assert (Hinput : windows (env sample_enabled) !! 1%positive
                   = Some (sample_window (Some "@!0,0;BT") false None))
    by (vm_compute; reflexivity).
  destruct (addWindow_then_unmanaged sample_enabled (Window 1%positive)
              (sample_window (Some "@!0,0;BT") false None)
              sample_enabled_invariant eq_refl Hinput eq_refl)
    as (st1 & st2 & win1 & ding & id1 & id2 & id3 & id4 & id5
        & Hadd & Hw1 & Hd1 & Hh1 & _ & _ & Hrun & Hl & Hheap & Hcalls).
  assert (Hst1 : addWindow (Window 1%positive) sample_enabled
                 = Some (tt, after (addWindow (Window 1%positive)) sample_enabled))
    by (vm_compute; reflexivity).
  rewrite Hst1 in Hadd. injection Hadd as <-.
  exists (after (addWindow (Window 1%positive)) sample_enabled), st2, win1, ding.
  split; [exact Hst1|]. split; [exact Hw1|]. split; [exact Hd1|].
  assert (Hids : [(id1, Raised); (id2, PositionChanged); (id3, NotifyTitle);
                  (id4, NotifyAbove); (id5, Unmanaged)]
                 = [(6%positive, Raised); (7%positive, PositionChanged);
                    (8%positive, NotifyTitle); (9%positive, NotifyAbove);
                    (11%positive, Unmanaged)]).
  { rewrite <- Hh1. pose proof Hw1 as Hw1'. vm_compute in Hw1'.
    injection Hw1' as <-. reflexivity. }
  injection Hids as -> -> -> -> ->.
  split; [exact Hh1|]. split; [exact Hrun|]. split; [exact Hl|].
  split; [exact Hheap|]. rewrite Hcalls. reflexivity.
Defined.

(** X16: a window added while it is listed breaks [disable].
    [addWindow] has no check: the window is listed a second time and its
    record is replaced.  [disable] then throws: its loop tears the
    record down at the first listing of the window and finds none at the
    second. *)
Theorem listed_twice_breaks_disable st (hd : handle) :
  invariant st ->
  _isX11 (this st) = false ->
  window_of hd ∈ _windowList (this st) ->
  exists st1,
    addWindow hd st = Some (tt, st1)
    /\ _windowList (this st1) = (_windowList (this st) ++ [window_of hd])%list
    /\ disable st1 = None.
Proof.
  intros Hinv HX Hl. set (w := window_of hd) in *.
  pose proof Hinv as (_ & Hnd & Hin & _).
  destruct (Hin w Hl) as [win Hw].
  set (st1 := added w win (this st) (windows (env st)) (sources (env st))
                (next_id (env st)) [] st).
  assert (Hl1 : _windowList (this st1) = (_windowList (this st) ++ [w])%list).
  { unfold st1, added. cbv zeta. destruct (queues_refresh _ _); reflexivity. }
  assert (HX1 : _isX11 (this st1) = false).
  { unfold st1, added. cbv zeta. destruct (queues_refresh _ _); exact HX. }
  exists st1. split; [apply addWindow_eq; assumption|]. split; [exact Hl1|].
  assert (Hman : Forall (managed (cancelled st1)) (_windowList (this st))).
  { apply Forall_forall. intros v Hv. unfold managed. rewrite cancelled_windows.
    destruct (decide (v = w)) as [->|Hne].
    - eexists _, _, _.
      split; [unfold st1, added; cbv zeta; cbn [mk env windows];
              apply lookup_insert_eq|].
      split; reflexivity.
    - destruct (invariant_registry_ok st Hinv) as [_ Hm].
      destruct (proj1 (Forall_forall _ _) Hm v Hv) as (winv & dingv & idv & H1 & H2 & H3).
      exists winv, dingv, idv. split; [|split; assumption].
      unfold st1, added. cbv zeta. cbn [mk env windows].
      rewrite lookup_insert_ne by congruence. exact H1. }
  destruct (clear_loop (_windowList (this st)) (cancelled st1) Hnd Hman)
    as (h' & Hloop & Hin' & _).
  destruct (Hin' w Hl) as (win' & ding' & id' & _ & _ & _ & Hw').
  unfold disable, bind at 1, gets at 1. rewrite HX1.
  rewrite (bind_Some _ _ _ _ _ (cancel_eq st1)).
  apply bind_None. unfold bind at 1, gets at 1.
  rewrite cancelled_windowList, Hl1.
  rewrite (for_of_app _ [w] _ _ _ Hloop).
  cbn [for_of]. apply bind_None. unfold _clearWindow.
  erewrite bind_Some by (apply window_eq; cbn; exact Hw').
  reflexivity.
Qed.

Lemma listed_twice_breaks_disable_witness :
  exists st1,
    addWindow (Window 1%positive) sample_state = Some (tt, st1)
    /\ _windowList (this st1) = [1%positive; 2%positive; 1%positive]
    /\ disable st1 = None.
Proof.
  apply (listed_twice_breaks_disable sample_state (Window 1%positive)).
  - exact sample_state_invariant.
  - reflexivity.
  - left.
Defined.

(** X17: [set_wayland_client] reaches every record and makes no call.
    In a consistent state it does not throw; the object and the record of
    every window of [_windowList] hold the new client, nothing else in a
    record or a window changes, and no window is hidden from or shown in
    the window list until its title is parsed again. *)
Theorem set_wayland_client_reaches_records st (client : bool) :
  invariant st ->
  exists st',
    set_wayland_client client st = Some (tt, st')
    /\ _wayland_client (this st') = client
    /\ (forall w, w ∈ _windowList (this st) ->
          exists win ding,
            windows (env st) !! w = Some win
            /\ customJS_ding win = Some ding
            /\ windows (env st') !! w
               = Some (with_customJS_ding
                         (Some (ManageWindow.set_wayland_client client ding)) win))
    /\ (forall w, w ∉ _windowList (this st) ->
          windows (env st') !! w = windows (env st) !! w)
    /\ new_calls st st' = [].
Proof.
  intros Hinv. destruct (set_wayland_client_eq st client Hinv) as (h' & Hrun & Hh').
  eexists. split; [exact Hrun|]. split; [reflexivity|].
  split; [|split; [|apply new_calls_same; reflexivity]].
  - intros w Hw.
    destruct (proj1 (Forall_forall _ _) (invariant_has_record st Hinv) w Hw)
      as (win & ding & Hwin & Hd).
    exists win, ding. split; [exact Hwin|]. split; [exact Hd|].
    cbn. rewrite Hh', decide_True by exact Hw. rewrite Hwin. cbn. rewrite Hd.
    reflexivity.
  - intros w Hw. cbn. rewrite Hh', decide_False by exact Hw. reflexivity.
Qed.

Lemma set_wayland_client_reaches_records_witness :
  exists st',
    set_wayland_client false sample_state = Some (tt, st')
    /\ _wayland_client (this st') = false
    /\ (ManageWindow._wayland_client
          <$> (windows (env st') !! 2%positive ≫= customJS_ding)) = Some false
    /\ new_calls sample_state st' = [].
Proof.
  destruct (set_wayland_client_reaches_records sample_state false
              sample_state_invariant) as (st' & Hrun & Hc & Hin & _ & Hcalls).
  exists st'. split; [exact Hrun|]. split; [exact Hc|]. split; [|exact Hcalls].
  destruct (Hin 2%positive) as (win & ding & _ & _ & ->); [right; left|].
  reflexivity.
Defined.

(** X20: what a ["destroy"] does once [enable] has run, when no refresh
    is pending.  For the window of a menu, a tooltip or another type from
    [DROPDOWN_MENU] on, nothing is queued; for any other window, and for
    an actor that has no window, one idle source is queued whose pass
    checks the workspace.  The handler itself removes no window from
    [_windowList] and changes no window object. *)
Theorem destroy_event_refresh st (window' : option positive) (idDestroy : positive) :
  invariant st ->
  _idDestroy (this st) = Some idDestroy ->
  nothing_pending st ->
  (forall w, window' = Some w -> is_Some (windows (env st) !! w)) ->
  exists st',
    deliver (DestroyEvent window') st = Some (tt, st')
    /\ sources (env st')
       = (if is_menu (windows (env st)) window' then []
          else [(next_id (env st), (PRIORITY_LOW, true))])
    /\ _windowList (this st') = _windowList (this st)
    /\ windows (env st') = windows (env st).
Proof.
  intros Hinv Hid [Hfree Hsrc] Hwin.
  pose proof Hinv as (_ & _ & _ & _ & _ & Hsub).
  pose proof (wm_connections st Destroy Hsub) as Hconn. rewrite Hid in Hconn.
  cbn [opt_handler] in Hconn.
  pose proof (mk_refreshWindows (this st) (windows (env st)) (sources (env st))
                (next_id (env st)) [] st true) as Hr.
  rewrite mk_self, Hfree, Hsrc in Hr.
  assert (H : exists st',
            on_destroy window' st = Some (tt, st')
            /\ sources (env st')
               = (if is_menu (windows (env st)) window' then []
                  else [(next_id (env st), (PRIORITY_LOW, true))])
            /\ _windowList (this st') = _windowList (this st)
            /\ windows (env st') = windows (env st)).
  { unfold on_destroy, is_menu. destruct window' as [w|].
    - destruct (Hwin w eq_refl) as [win Hw]. rewrite Hw.
      rewrite (bind_Some _ _ _ _ _ (window_eq _ _ _ Hw)).
      destruct (DROPDOWN_MENU <=? get_window_type win).
      + exists st. repeat split; try reflexivity. exact Hsrc.
      + eexists. split; [exact Hr|]. repeat split; reflexivity.
    - eexists. split; [exact Hr|]. repeat split; reflexivity. }
  destruct H as (st' & Hrun & H1 & H2 & H3).
  exists st'. split; [|repeat split; assumption].
  apply (table_emit_single st _ Destroy _ idDestroy); assumption.
Qed.

Lemma destroy_event_refresh_witness :
  exists st',
    deliver (DestroyEvent None) sample_enabled = Some (tt, st')
    /\ sources (env st') = [(6%positive, (PRIORITY_LOW, true))]
    /\ _windowList (this st') = []
    /\ windows (env st') = windows (env sample_enabled).
Proof.
  apply (destroy_event_refresh sample_enabled None 2%positive).
  - exact sample_enabled_invariant.
  - reflexivity.
  - split; reflexivity.
  - intros w H. discriminate H.
Defined.

(** X21: a change of title re-programs the window.  When the title of
    a window with a record changes, in a consistent state, the handler of
    ["notify::title"] runs and does not throw; the record then holds the
    Directive decoded from the new title, whatever it held before, and
    keeps its client and its handler ids; [_windowList] is unchanged; and
    when no refresh was pending, one that checks the workspace is queued
    unless the new title is [null]. *)
Theorem title_change_redecodes st w win (ding : ManageWindow.t)
    (title : option string) :
  invariant st ->
  windows (env st) !! w = Some win ->
  customJS_ding win = Some ding ->
  exists st' ding',
    deliver (TitleEvent w title) st = Some (tt, st')
    /\ windows (env st') !! w
       = Some (with_customJS_ding (Some ding') (with_get_title title win))
    /\ (forall this0, directive_of ding' = decode this0 title)
    /\ same_frame ding' ding
    /\ _windowList (this st') = _windowList (this st)
    /\ (nothing_pending st ->
        sources (env st')
        = if bool_decide (is_Some title)
          then [(next_id (env st), (PRIORITY_LOW, true))] else []).
Proof.
  intros Hinv Hw Hd. pose proof Hinv as (_ & _ & _ & Hok & _).
  pose proof (Hok w win Hw) as Hokw. unfold window_ok in Hokw. rewrite Hd in Hokw.
  destruct Hokw as [_ Hh].
  destruct (handlers_of_unmanagedID _ _ Hh)
    as (id1 & id2 & id3 & id4 & id5 & Hsig & Hu & Hhs).
  set (win1 := with_get_title title win).
  set (st1 := upd_env (with_windows (<[w := win1]> (windows (env st)))) st).
  assert (Hw1 : windows (env st1) !! w = Some win1) by (cbn; apply lookup_insert_eq).
  assert (Hconn : connected win1 ding NotifyTitle = true).
  { unfold connected. apply bool_decide_eq_true_2, Exists_exists.
    exists (id3, NotifyTitle). split; [|split; [reflexivity|]].
    - cbn [win1 handlers with_get_title]. rewrite Hhs. do 2 right. left.
    - unfold record_ids. rewrite Hsig. cbn [fst]. apply elem_of_app. left.
      do 2 right. left. }
  set (ding' := fst (ManageWindow._parseTitle ding title)).
  exists (retitled w win1 ding st1), ding'. split.
  { cbn [deliver]. rewrite (bind_Some _ _ _ _ _ (update_window_eq w _ st win Hw)).
    fold win1 st1. unfold window_emit.
    rewrite (bind_Some _ _ _ _ _ (window_eq _ _ _ Hw1)).
    cbn [customJS_ding win1 with_get_title]. rewrite Hd. fold win1. rewrite Hconn.
    apply title_handler_eq, Hw1. }
  unfold retitled. cbv zeta. cbn [get_title win1 with_get_title]. fold ding'.
  split; [destruct (queues_refresh title (this st1)); cbn [mk env windows];
          apply lookup_insert_eq|].
  split; [intros this0; apply directive_of_fields, _parseTitle_same_fields|].
  split; [apply _parseTitle_same_frame|].
  split; [destruct (queues_refresh title (this st1)); reflexivity|].
  intros [Hfree Hsrc]. unfold queues_refresh.
  cbn [st1 upd_env this env sources next_id with_windows]. rewrite Hfree.
  rewrite (bool_decide_eq_false_2 (is_Some None)) by (intros [? ?]; discriminate).
  rewrite andb_true_r. cbn [negb].
  destruct (bool_decide (is_Some title)); cbn [mk env sources]; rewrite Hsrc;
    reflexivity.
Qed.

Lemma title_change_redecodes_witness :
  exists st' ding',
    deliver (TitleEvent 2%positive (Some "@!5,7;BF")) sample_state = Some (tt, st')
    /\ (customJS_ding <$> windows (env st') !! 2%positive) = Some (Some ding')
    /\ directive_of ding'
       = {| x := Num 5; y := Num 7; pinBottom := true; pinTop := false;
            showOnAllWorkspaces := false; hideFromWindowList := false;
            fixedPosition := true |}.
Proof.
  assert (Hw : exists win ding,
            windows (env sample_state) !! 2%positive = Some win
            /\ customJS_ding win = Some ding)
    by (eexists _, _; split; vm_compute; reflexivity).
  destruct Hw as (win & ding & Hw & Hd).
  destruct (title_change_redecodes sample_state 2%positive win ding
              (Some "@!5,7;BF") sample_state_invariant Hw Hd)
    as (st' & ding' & Hrun & Hw' & Hdec & _).
  exists st', ding'. split; [exact Hrun|]. split; [rewrite Hw'; reflexivity|].
  rewrite (Hdec (ManageWindow.fresh false [])). vm_compute. reflexivity.
Defined.

End RegistryMore.
(** ** An object that holds nothing *)

Section Inert.

Lemma inert_frame st st' :
  inert st ->
  this st' = this st ->
  windows (env st') = windows (env st) ->
  window_manager (env st') = window_manager (env st) ->
  overview (env st') = overview (env st) ->
  sources (env st') = sources (env st) ->
  inert st'.
Proof.
  unfold inert. intros H -> -> -> -> ->. exact H.
Qed.

(** No event reaches an object that holds nothing. *)
Lemma inert_deliver st (ev : event) :
  inert st ->
  (forall w, event_window ev = Some w -> is_Some (windows (env st) !! w)) ->
  exists st',
    deliver ev st = Some (tt, st')
    /\ inert st'
    /\ this st' = this st
    /\ log (env st') = log (env st)
    /\ next_id (env st') = next_id (env st)
    /\ get_tab_list (env st') = get_tab_list (env st)
    /\ (forall w, is_Some (windows (env st') !! w) <-> is_Some (windows (env st) !! w)).
Proof.
  intros Hin Hev.
  pose proof Hin as (Hl & Hact & I1 & I2 & I3 & I4 & I5 & Hwm & Hov & Hsrc & Hwin).
  assert (Hsame : exists st', Some (tt, st) = Some (tt, st')
            /\ inert st' /\ this st' = this st /\ log (env st') = log (env st)
            /\ next_id (env st') = next_id (env st)
            /\ get_tab_list (env st') = get_tab_list (env st)
            /\ (forall w, is_Some (windows (env st') !! w)
                          <-> is_Some (windows (env st) !! w)))
    by (exists st; split; [reflexivity|]; split; [exact Hin|];
        split; [reflexivity|]; split; [reflexivity|]; split; [reflexivity|];
        split; [reflexivity|]; intros w; reflexivity).
  destruct ev as [w|window'| | | |w s|w title|]; cbn [deliver].
  - rewrite table_emit_none by exact Hwm. exact Hsame.
  - rewrite table_emit_none by exact Hwm. exact Hsame.
  - rewrite table_emit_none by exact Hwm. exact Hsame.
  - rewrite table_emit_none by exact Hov. exact Hsame.
  - rewrite table_emit_none by exact Hov. exact Hsame.
  - destruct (Hev w eq_refl) as [win Hw]. destruct (Hwin w win Hw) as [Hd _].
    unfold window_emit. rewrite (bind_Some _ _ _ _ _ (window_eq _ _ _ Hw)), Hd.
    exact Hsame.
  - destruct (Hev w eq_refl) as [win Hw]. destruct (Hwin w win Hw) as [Hd Hh].
    rewrite (bind_Some _ _ _ _ _ (update_window_eq w _ st win Hw)).
    set (st1 := upd_env _ st).
    assert (Hw1 : windows (env st1) !! w = Some (with_get_title title win))
      by (cbn; apply lookup_insert_eq).
    unfold window_emit. rewrite (bind_Some _ _ _ _ _ (window_eq _ _ _ Hw1)).
    cbn [customJS_ding with_get_title]. rewrite Hd.
    exists st1. split; [reflexivity|].
    split; [|split; [reflexivity|split; [reflexivity|split; [reflexivity|split;
                                                              [reflexivity|]]]]].
    + unfold inert. cbn. repeat (split; [assumption|]).
      intros v winv Hv. apply lookup_insert_Some in Hv as [[_ <-]|[_ Hv]].
      * split; assumption.
      * apply (Hwin v winv Hv).
    + intros v. cbn. destruct (decide (v = w)) as [->|Hne].
      * rewrite lookup_insert_eq, Hw. split; eauto.
      * rewrite lookup_insert_ne by congruence. tauto.
  - unfold idle, bind at 1, bind at 1, gets at 1. rewrite Hsrc. exact Hsame.
Qed.

Lemma admissible_event_window st (ev : event) :
  admissible st (Deliver ev) ->
  forall w, event_window ev = Some w -> is_Some (windows (env st) !! w).
Proof.
  intros Hadm w Hw. destruct ev as [v|[v|]| | | |v s|v title|];
    cbn in Hw; try discriminate; injection Hw as ->; cbn in Hadm; try exact Hadm.
  destruct Hadm as (win & H & _). eauto.
Qed.

Lemma inert_x11_step st (op : operation) :
  inert st -> _isX11 (this st) = true -> admissible st op ->
  exists st',
    perform_operation op st = Some (tt, st')
    /\ inert st' /\ _isX11 (this st') = true
    /\ log (env st') = log (env st)
    /\ next_id (env st') = next_id (env st).
Proof.
  intros Hin HX Hadm. destruct op as [ev| | |hd|client]; cbn [perform_operation].
  - destruct (inert_deliver st ev Hin (admissible_event_window st ev Hadm))
      as (st' & Hrun & Hin' & Hthis & Hlog & Hn & _).
    exists st'. rewrite Hthis.
    split; [exact Hrun|split; [exact Hin'|split; [exact HX|split; assumption]]].
  - exists st. split; [apply x11_noop, HX|].
    split; [exact Hin|split; [exact HX|split; reflexivity]].
  - exists st. split; [apply x11_noop, HX|].
    split; [exact Hin|split; [exact HX|split; reflexivity]].
  - exists st. split; [unfold addWindow, bind, gets; rewrite HX; reflexivity|].
    split; [exact Hin|split; [exact HX|split; reflexivity]].
  - exists (upd_this (assign_wayland_client client) st). split.
    + unfold set_wayland_client, bind at 1, modify at 1, bind at 1, gets at 1.
      cbn [upd_this this assign_wayland_client _windowList].
      destruct Hin as [-> _]. reflexivity.
    + split; [exact Hin|split; [exact HX|split; reflexivity]].
Qed.

Lemma clean_start_inert (is_wayland_compositor : bool) (e : Env) :
  clean_env e -> inert (start is_wayland_compositor e).
Proof.
  intros (Hwin & Hwm & Hov & Hsrc & _). unfold inert. cbn.
  repeat (split; [first [reflexivity | assumption]|]). exact Hwin.
Qed.

Lemma inert_x11_run (ops : list operation) st :
  inert st -> _isX11 (this st) = true -> admissible_run st ops ->
  exists st',
    for_of ops perform_operation st = Some (tt, st')
    /\ inert st'
    /\ log (env st') = log (env st)
    /\ next_id (env st') = next_id (env st).
Proof.
  revert st. induction ops as [|op ops IH]; intros st Hin HX Hadm.
  - exists st. split; [reflexivity|split; [exact Hin|split; reflexivity]].
  - destruct Hadm as [Hop Hrest].
    destruct (inert_x11_step st op Hin HX Hop) as (st1 & Hrun & Hin1 & HX1 & Hlog1 & Hn1).
    destruct (IH st1 Hin1 HX1 (Hrest st1 Hrun)) as (st2 & Hrun2 & Hin2 & Hlog2 & Hn2).
    exists st2. split; [|split; [exact Hin2|split; congruence]].
    rewrite for_of_cons, (bind_Some _ _ _ _ _ Hrun). exact Hrun2.
Qed.

(** X13: on X11 the object is inert.  Whatever methods are called and
    whatever events are delivered, in any order, no call throws, and
    afterwards the object holds no window, no pending refresh and none of
    the five ids, no handler is connected to the window manager, to the
    overview or to any window, no window has a record, no idle source is
    queued, no id was taken and no call was made. *)
Theorem x11_inert (e : Env) (ops : list operation) :
  clean_env e ->
  admissible_run (start false e) ops ->
  exists st',
    for_of ops perform_operation (start false e) = Some (tt, st')
    /\ inert st'
    /\ log (env st') = log e
    /\ next_id (env st') = next_id e.
Proof.
  intros Hclean Hadm.
  apply (inert_x11_run ops (start false e)); [|reflexivity|exact Hadm].
  apply clean_start_inert, Hclean.
Qed.

Lemma sample_ops_admissible_x11 : admissible_run (start false sample_env) sample_ops.
Proof.
  split; [exact I|]. intros st1 H1. vm_compute in H1. injection H1 as <-.
  split; [repeat split|]. intros st2 H2. vm_compute in H2. injection H2 as <-.
  split; [eexists; split; [vm_compute; reflexivity | reflexivity]|].
  intros st3 H3. vm_compute in H3. injection H3 as <-.
  split; [eexists; split; [vm_compute; reflexivity | reflexivity]|].
  intros st4 H4. exact I.
Qed.

Lemma x11_inert_witness :
  exists st',
    for_of sample_ops perform_operation (start false sample_env) = Some (tt, st')
    /\ inert st'
    /\ log (env st') = []
    /\ next_id (env st') = 1%positive.
Proof.
  apply (x11_inert sample_env sample_ops).
  - exact sample_env_clean.
  - exact sample_ops_admissible_x11.
Defined.

(** X14: [disable] is complete.  After a [disable] on a Wayland
    compositor in a consistent state the object holds nothing: no window
    keeps a record or a handler, no compositor-wide handler and no idle
    source is left.  Any event delivered afterwards, whether from the
    window manager, from the overview, from a window or from the main
    loop, makes no call and leaves the object as it is. *)
Theorem disable_silences st st1 (ev : event) :
  invariant st ->
  _isX11 (this st) = false ->
  disable st = Some (tt, st1) ->
  (forall w, event_window ev = Some w -> is_Some (windows (env st) !! w)) ->
  inert st1
  /\ exists st2,
       deliver ev st1 = Some (tt, st2)
       /\ new_calls st1 st2 = []
       /\ this st2 = this st1
       /\ inert st2.
Proof.
  intros Hinv HX Hrun Hev.
  pose proof Hinv as (Hp & _ & _ & Hok & _ & Hsub).
  destruct (disabled_state st HX Hp (invariant_registry_ok st Hinv) Hsub)
    as (st1' & h' & Hst1 & Hrun' & Hin' & Hout' & Hsrc & Hwm & Hov & Hthis).
  rewrite Hrun in Hrun'. injection Hrun' as <-.
  destruct (invariant_disable st Hinv) as (st1' & Hrun' & Hinv1).
  rewrite Hrun in Hrun'. injection Hrun' as <-.
  assert (Hheap : windows (env st1) = h') by (rewrite Hst1; reflexivity).
  assert (Hinert : inert st1).
  { unfold inert. rewrite Hthis, Hwm, Hov, Hsrc. cbn.
    repeat (split; [reflexivity|]).
    intros w win Hw. destruct Hinv1 as (_ & _ & _ & Hok1 & _).
    pose proof (Hok1 w win Hw) as Hokw. unfold window_ok in Hokw.
    rewrite Hthis in Hokw. cbn in Hokw.
    destruct (customJS_ding win); destruct Hokw as [H1 H2].
    - inversion H1.
    - split; [reflexivity | exact H2]. }
  split; [exact Hinert|].
  destruct (inert_deliver st1 ev Hinert) as (st2 & Hrun2 & Hin2 & Hthis2 & Hlog2 & _).
  { intros w Hw. rewrite Hheap. destruct (decide (w ∈ _windowList (this st))) as [Hl|Hl].
    - destruct (Hin' w Hl) as (? & ? & ? & _ & _ & _ & ->). eauto.
    - rewrite (Hout' w Hl). apply Hev, Hw. }
  exists st2. split; [exact Hrun2|]. split; [apply new_calls_same, Hlog2|].
  split; assumption.
Qed.

Lemma disable_silences_witness :
  inert sample_disabled
  /\ exists st2,
       deliver (MapEvent 1%positive) sample_disabled = Some (tt, st2)
       /\ new_calls sample_disabled st2 = []
       /\ this st2 = this sample_disabled
       /\ inert st2.
Proof.
  apply (disable_silences sample_state sample_disabled (MapEvent 1%positive)).
  - exact sample_state_invariant.
  - reflexivity.
  - vm_compute. reflexivity.
  - intros w H. injection H as <-. eexists. vm_compute. reflexivity.
Defined.

End Inert.
(** ** [enable] called twice *)

Section EnableTwice.

Lemma cancelled_frame st :
  _idMap (this (cancelled st)) = _idMap (this st)
  /\ _idDestroy (this (cancelled st)) = _idDestroy (this st)
  /\ _switchWorkspaceId (this (cancelled st)) = _switchWorkspaceId (this st)
  /\ _showingId (this (cancelled st)) = _showingId (this st)
  /\ _hidingId (this (cancelled st)) = _hidingId (this st)
  /\ window_manager (env (cancelled st)) = window_manager (env st)
  /\ overview (env (cancelled st)) = overview (env st).
Proof.
  unfold cancelled. destruct (_activate_window_ID (this st));
    repeat split; reflexivity.
Qed.

(** X18: a second [enable] leaks the handlers of the first.  On a
    Wayland compositor [enable] has no check: called again without a
    [disable] in between it connects the five handlers a second time and
    overwrites the five ids.  The next [disable] disconnects the handlers
    of the second [enable] only: those of the first stay connected to the
    window manager and to the overview, and the object holds none of
    their ids any more. *)
Theorem enable_twice_leaks st :
  invariant st ->
  _isX11 (this st) = false ->
  admissible st Enable ->
  exists st1 st2 st3,
    enable st = Some (tt, st1)
    /\ enable st1 = Some (tt, st2)
    /\ disable st2 = Some (tt, st3)
    /\ window_manager (env st3) = window_manager (env st1)
    /\ overview (env st3) = overview (env st1)
    /\ (window_manager (env st3)).*2 = [Map; Destroy; SwitchWorkspace]
    /\ (overview (env st3)).*2 = [Showing; Hiding]
    /\ admissible st3 Enable.
Proof.
  intros Hinv HX (E1 & E2 & E3 & E4 & E5).
  pose proof Hinv as (_ & _ & _ & _ & _ & Hwm & Hov).
  rewrite E1, E2, E3 in Hwm. rewrite E4, E5 in Hov. cbn in Hwm, Hov.
  pose proof (invariant_registry_ok st Hinv) as Hreg.
  set (st1 := enabled st). set (st2 := enabled st1).
  assert (HX2 : _isX11 (this st2) = false) by exact HX.
  assert (Hreg2 : registry_ok st2) by exact Hreg.
  destruct (disable_eq st2 HX2 Hreg2) as (h' & Hrun & _).
  destruct (cancelled_frame st2) as (I1 & I2 & I3 & I4 & I5 & I6 & I7).
  exists st1, st2. eexists.
  split; [apply enable_eq, HX|]. split; [apply enable_eq; exact HX|].
  split; [exact Hrun|].
  set (n := next_id (env st)).
  assert (Hwm3 : window_manager
                   (env (unsubscribed
                           (upd_this (assign_windowList [])
                              (with_heap_log h'
                                 (flat_map (teardown_calls (windows (env st2)))
                                    (_windowList (this st2)))
                                 (cancelled st2)))))
                 = [(n, Map); (Pos.succ n, Destroy);
                    (Pos.succ (Pos.succ n), SwitchWorkspace)]).
  { cbn [unsubscribed env window_manager upd_this this with_heap_log add_log
         upd_env with_windows with_log assign_windowList
         _idMap _idDestroy _switchWorkspaceId].
    rewrite I1, I2, I3, I6. unfold st2, st1, enabled. cbv zeta.
    cbn [env this window_manager next_id assign_hidingId assign_showingId
         assign_switchWorkspaceId assign_idDestroy assign_idMap
         _idMap _idDestroy _switchWorkspaceId release_table].
    rewrite Hwm. fold n. cbn [app]. unfold without.
    repeat (first [rewrite filter_cons_True by (cbn; lia)
                  |rewrite filter_cons_False by (cbn; lia)]).
    rewrite filter_nil. reflexivity. }
  assert (Hov3 : overview
                   (env (unsubscribed
                           (upd_this (assign_windowList [])
                              (with_heap_log h'
                                 (flat_map (teardown_calls (windows (env st2)))
                                    (_windowList (this st2)))
                                 (cancelled st2)))))
                 = [(Pos.succ (Pos.succ (Pos.succ n)), Showing);
                    (Pos.succ (Pos.succ (Pos.succ (Pos.succ n))), Hiding)]).
  { cbn [unsubscribed env overview upd_this this with_heap_log add_log
         upd_env with_windows with_log assign_windowList
         _showingId _hidingId].
    rewrite I4, I5, I7. unfold st2, st1, enabled. cbv zeta.
    cbn [env this overview next_id assign_hidingId assign_showingId
         assign_switchWorkspaceId assign_idDestroy assign_idMap
         _showingId _hidingId release_table].
    rewrite Hov. fold n. cbn [app]. unfold without.
    repeat (first [rewrite filter_cons_True by (cbn; lia)
                  |rewrite filter_cons_False by (cbn; lia)]).
    rewrite filter_nil. reflexivity. }
  rewrite Hwm3, Hov3.
  split; [unfold st1, enabled; cbv zeta; cbn [env window_manager]; rewrite Hwm;
          reflexivity|].
  split; [unfold st1, enabled; cbv zeta; cbn [env overview]; rewrite Hov;
          reflexivity|].
  split; [reflexivity|]. split; [reflexivity|].
  repeat split; reflexivity.
Qed.

Lemma enable_twice_leaks_witness :
  exists st1 st2 st3,
    enable (start true sample_env) = Some (tt, st1)
    /\ enable st1 = Some (tt, st2)
    /\ disable st2 = Some (tt, st3)
    /\ (window_manager (env st3)).*2 = [Map; Destroy; SwitchWorkspace]
    /\ (overview (env st3)).*2 = [Showing; Hiding]
    /\ admissible st3 Enable.
Proof.
  destruct (enable_twice_leaks (start true sample_env)
              (invariant_start true sample_env sample_env_clean) eq_refl)
    as (st1 & st2 & st3 & H1 & H2 & H3 & _ & _ & H4 & H5 & H6).
  - repeat split; reflexivity.
  - exists st1, st2, st3.
    split; [exact H1|split; [exact H2|split; [exact H3|split; [exact H4|split;
      [exact H5|exact H6]]]]].
Defined.

End EnableTwice.
